(** * Soundsync: peer time synchronisation, AirPlay RTP transport,
      local-device sink resync and the rendezvous relay

    A shallow embedding of four source files of the repository:
    - [src/communication/peer.ts]          (modules [Peer], [Rpc], [PeerSync])
    - [src/utils/vendor_integrations/airplay/airplayUdpSocket.ts]
                                           (modules [Airplay], [AirplaySenders])
    - the local device sink ([LocalDeviceSink])
                                           (modules [Sink], [SinkLifecycle])
    - [rendezvous-service/src/routes/wrtc_messenger.ts]
                                           (modules [Rendezvous], [RendezvousGet])

    Conventions.  A JavaScript [number] is an exact rational ([Q]): IEEE-754
    rounding, NaN and the infinities are not represented.  The exception is
    the code that turns a time into the 32-bit words of an NTP timestamp
    and back ([getNtpTimestamp], [parseNtpTimestamp] and their callers):
    there the rounding decides which bytes are written, and a [number] is
    an IEEE-754 binary64 number (module [Binary64]).  Objects that the
    code aliases (peers) live in a heap indexed by handles.  Code that can
    throw returns a [Result]. *)

From Stdlib Require Import ZArith QArith Qround Qabs Lqa Lia List Bool.
From Stdlib Require Import SpecFloat.
From stdpp Require Import base option list gmap strings.

Local Open Scope Z_scope.

(** ** Exceptions *)

Inductive Exn : Type :=
| RangeError.     (* DataView / Buffer access out of bounds *)

Inductive Result (A : Type) : Type :=
| Ok (a : A)
| Throw (e : Exn).
Arguments Ok {A} a.
Arguments Throw {A} e.

Definition rbind {A B} (r : Result A) (k : A -> Result B) : Result B :=
  match r with
  | Ok a => k a
  | Throw e => Throw e
  end.

Notation "'try!' x <- r ; k" := (rbind r (fun x => k))
  (at level 10, x name, r at level 100, k at level 200).

(** ** Typed arrays and DataView *)

Module Bytes.

(** A [Uint8Array] / [ArrayBuffer]: a list of bytes, each in [0, 255]. *)
Definition Uint8Array (n : nat) : list Z := replicate n 0.

Definition ToInt32 (z : Z) : Z := (z + 2 ^ 31) mod 2 ^ 32 - 2 ^ 31.
Definition ToUint8 (z : Z) : Z := z mod 2 ^ 8.
Definition ToUint16 (z : Z) : Z := z mod 2 ^ 16.
Definition ToUint32 (z : Z) : Z := z mod 2 ^ 32.

(** Rounding toward zero, the first step of the ToUint conversions when
    the number is not integral. *)
Definition Qtruncate (q : Q) : Z := Z.quot (Qnum q) (Zpos (Qden q)).

(** The JavaScript operators [|] and [&] on integral numbers. *)
Definition js_or (a b : Z) : Z := ToInt32 (Z.lor (ToInt32 a) (ToInt32 b)).
Definition js_and (a b : Z) : Z := ToInt32 (Z.land (ToInt32 a) (ToInt32 b)).

(** [dataView.getUint8(off)]: RangeError outside the buffer. *)
Definition getUint8 (buf : list Z) (off : nat) : Result Z :=
  match buf !! off with
  | Some b => Ok b
  | None => Throw RangeError
  end.

(** [dataView.getUint16(off)], big-endian (the DataView default). *)
Definition getUint16 (buf : list Z) (off : nat) : Result Z :=
  match buf !! off, buf !! S off with
  | Some b0, Some b1 => Ok (b0 * 256 + b1)
  | _, _ => Throw RangeError
  end.

(** [dataView.getUint32(off)], big-endian. *)
Definition getUint32 (buf : list Z) (off : nat) : Result Z :=
  match buf !! off, buf !! S off, buf !! S (S off), buf !! S (S (S off)) with
  | Some b0, Some b1, Some b2, Some b3 =>
      Ok (((b0 * 256 + b1) * 256 + b2) * 256 + b3)
  | _, _, _, _ => Throw RangeError
  end.

(** The setters convert their argument with ToUint8, ToUint16 or ToUint32.
    They are only applied to freshly allocated arrays at offsets inside
    them, where DataView does not throw. *)
Definition setUint8 (off : nat) (v : Z) (buf : list Z) : list Z :=
  <[off := ToUint8 v]> buf.

Definition setUint16 (off : nat) (v : Z) (buf : list Z) : list Z :=
  let u := ToUint16 v in
  <[S off := u mod 256]> (<[off := u / 256]> buf).

Definition setUint32 (off : nat) (v : Z) (buf : list Z) : list Z :=
  let u := ToUint32 v in
  <[S (S (S off)) := u mod 256]>
    (<[S (S off) := (u / 2 ^ 8) mod 256]>
      (<[S off := (u / 2 ^ 16) mod 256]>
        (<[off := u / 2 ^ 24]> buf))).

(** [arrayBuffer.slice(begin)]. *)
Definition slice (begin : nat) (buf : list Z) : list Z := drop begin buf.

(** [typedArray.set(src, offset)]: RangeError when [src] does not fit. *)
Definition set (src : list Z) (offset : nat) (data : list Z) : Result (list Z) :=
  if decide (offset + length src <= length data)%nat
  then Ok (take offset data ++ src ++ drop (offset + length src) data)
  else Throw RangeError.

End Bytes.

(** ** JavaScript numbers as IEEE-754 binary64 *)

Module Binary64.

(** A binary64 number: sign, mantissa and exponent of a finite number, the
    two zeros, the two infinities and NaN.  The operations are those of
    [SpecFloat] at precision 53, which round to nearest, ties to even, as
    the operators [+], [-], [*] and [/] of JavaScript do. *)
Definition prec : Z := 53.
Definition emax : Z := 1024.

Definition float64 : Type := spec_float.

#[global] Instance float64_eq_dec : EqDecision float64.
Proof. solve_decision. Defined.

Definition add : float64 -> float64 -> float64 := SFadd prec emax.
Definition sub : float64 -> float64 -> float64 := SFsub prec emax.
Definition mul : float64 -> float64 -> float64 := SFmul prec emax.
Definition div : float64 -> float64 -> float64 := SFdiv prec emax.

(** [a < b]; false when one of them is NaN. *)
Definition ltb : float64 -> float64 -> bool := SFltb.

(** The number that an integer literal or an integral value denotes; exact
    below [2^53] in absolute value. *)
Definition of_Z (z : Z) : float64 := binary_normalize prec emax z 0 false.

(** [Math.floor(x)] *)
Definition Math_floor (x : float64) : float64 :=
  match x with
  | S754_finite s m e =>
      if 0 <=? e then x
      else of_Z ((if s then Zneg m else Zpos m) / 2 ^ (- e))
  | _ => x
  end.

(** [Math.max(a, b)]: NaN when one of them is NaN, and [+0] is larger
    than [-0]. *)
Definition Math_max (a b : float64) : float64 :=
  match SFcompare a b with
  | None => S754_nan
  | Some Lt => b
  | Some Gt => a
  | Some Eq =>
      match a with
      | S754_zero true => b
      | _ => a
      end
  end.

(** The integer that the ToUint conversions reduce: the number rounded
    toward zero, and 0 for NaN and the infinities. *)
Definition ToIntegerOrZero (x : float64) : Z :=
  match x with
  | S754_finite s m e =>
      let v := if 0 <=? e then Zpos m * 2 ^ e else Zpos m / 2 ^ (- e) in
      if s then - v else v
  | _ => 0
  end.

(** The exact value of a finite number (0 for the others), to compare
    numbers in statements. *)
Definition to_Q (x : float64) : Q :=
  match x with
  | S754_finite s m e =>
      let v := if 0 <=? e then inject_Z (Zpos m * 2 ^ e)
               else Qmake (Zpos m) (Z.to_pos (2 ^ (- e))) in
      if s then Qopp v else v
  | _ => 0%Q
  end.

End Binary64.

(** ** The AirPlay UDP transport (airplayUdpSocket.ts) *)

Module Airplay.
Import Bytes Binary64.

Definition RTP_HEADER_A_EXTENSION : Z := 0x10.
Definition RTP_HEADER_A_SOURCE : Z := 0x0f.
Definition RTP_HEADER_B_PAYLOAD_TYPE : Z := 0x7f.
Definition RTP_HEADER_B_MARKER : Z := 0x80.
Definition RTP_HEADER_LENGTH : nat := 4.
Definition RTP_NTP_TIMESTAMP_LENGTH : nat := 8.

(** The numeric enum [RTP_PAYLOAD_TYPES].  TypeScript compiles it to an
    object with a forward mapping (member name to number) and a reverse
    mapping (decimal string of the number to member name). *)
Inductive RTP_PAYLOAD_TYPES : Type :=
| timingRequest | timingResponse | sync | rangeResend | audioData.

#[global] Instance RTP_PAYLOAD_TYPES_eq_dec : EqDecision RTP_PAYLOAD_TYPES.
Proof. solve_decision. Defined.

(** Forward mapping: [RTP_PAYLOAD_TYPES.timingRequest] is [0x52], ... *)
Definition enum_value (m : RTP_PAYLOAD_TYPES) : Z :=
  match m with
  | timingRequest => 0x52
  | timingResponse => 0x53
  | sync => 0x54
  | rangeResend => 0x55
  | audioData => 0x60
  end.

(** Reverse mapping: [RTP_PAYLOAD_TYPES[String(n)]] is the member's name, or
    [undefined] when no member has the value [n]. *)
Definition enum_reverse (n : Z) : option RTP_PAYLOAD_TYPES :=
  if decide (n = 0x52) then Some timingRequest
  else if decide (n = 0x53) then Some timingResponse
  else if decide (n = 0x54) then Some sync
  else if decide (n = 0x55) then Some rangeResend
  else if decide (n = 0x60) then Some audioData
  else None.

(** What the [payloadType] field of a header holds at run time: the
    senders store the enum's number, the parser stores the member's name
    (a string) or [undefined]. *)
Inductive PayloadTypeField : Type :=
| PTNumber (n : Z)
| PTName (m : RTP_PAYLOAD_TYPES)
| PTUndefined.

#[global] Instance PayloadTypeField_eq_dec : EqDecision PayloadTypeField.
Proof. solve_decision. Defined.

(** [Number(header.payloadType)] followed by the operand conversion of [|]:
    a name or [undefined] gives NaN, which [|] reads as 0. *)
Definition payloadType_bits (f : PayloadTypeField) : Z :=
  match f with
  | PTNumber n => n
  | PTName _ => 0
  | PTUndefined => 0
  end.

Record RTP_HEADER : Type := {
  extension : bool;
  source : Z;
  payloadType : PayloadTypeField;
  marker : bool;
  seqnum : Z;
}.

(** [Boolean(x)] for a number [x]. *)
Definition Boolean (x : Z) : bool := negb (x =? 0).

Definition parseRtpHeader (message : list Z) : Result RTP_HEADER :=
  try! a <- getUint8 message 0;
  try! b <- getUint8 message 1;
  try! seqnum <- getUint16 message 2;
  Ok {| extension := Boolean (js_and a RTP_HEADER_A_EXTENSION);
        source := js_and a RTP_HEADER_A_SOURCE;
        payloadType :=
          match enum_reverse (js_and b RTP_HEADER_B_PAYLOAD_TYPE) with
          | Some m => PTName m
          | None => PTUndefined
          end;
        marker := Boolean (js_and b RTP_HEADER_B_MARKER);
        seqnum := seqnum |}.

Definition getRtpHeader (header : RTP_HEADER) : list Z :=
  let data := Uint8Array RTP_HEADER_LENGTH in
  let a := js_or (if extension header then RTP_HEADER_A_EXTENSION else 0)
                 (source header) in
  let b := js_or (if marker header then RTP_HEADER_B_MARKER else 0)
                 (payloadType_bits (payloadType header)) in
  setUint16 2 (seqnum header) (setUint8 1 b (setUint8 0 a data)).

(** NTP timestamps; times are milliseconds, binary64 numbers.  [2 ** 32]
    and [1000] are exact. *)
Definition two32 : float64 := of_Z (2 ^ 32).
Definition thousand : float64 := of_Z 1000.

Definition parseNtpTimestamp (ntpTime : list Z) : Result float64 :=
  try! integer <- getUint32 ntpTime 0;
  try! fraction <- getUint32 ntpTime 4;
  Ok (mul (add (of_Z integer) (div (of_Z fraction) two32)) thousand).

(** [dv.setUint32(off, x)] converts the number [x] with ToUint32: rounded
    toward zero, then reduced modulo [2^32] (by [setUint32]). *)
Definition getNtpTimestamp (time : float64) : list Z :=
  let data := Uint8Array RTP_NTP_TIMESTAMP_LENGTH in
  let integer := Math_floor (div time thousand) in
  let fraction := mul (sub (div time thousand) integer) two32 in
  setUint32 4 (ToIntegerOrZero fraction)
    (setUint32 0 (ToIntegerOrZero integer) data).

(** [packetParsers] *)
Record TimingRequest : Type := {
  referenceTime : float64;
  receivedTime : float64;
  sendTime : float64;
}.

Record RangeResend : Type := {
  missedSeq : Z;
  missedCount : Z;
}.

Definition packetParsers_timingRequest (message : list Z) : Result TimingRequest :=
  try! referenceTime <-
    parseNtpTimestamp (slice (RTP_HEADER_LENGTH + 4) message);
  try! receivedTime <-
    parseNtpTimestamp
      (slice (RTP_HEADER_LENGTH + 4 + RTP_NTP_TIMESTAMP_LENGTH) message);
  try! sendTime <-
    parseNtpTimestamp
      (slice (RTP_HEADER_LENGTH + 4 + RTP_NTP_TIMESTAMP_LENGTH
              + RTP_NTP_TIMESTAMP_LENGTH) message);
  Ok {| referenceTime := referenceTime;
        receivedTime := receivedTime;
        sendTime := sendTime |}.

(** [message.readUInt16BE(off)] throws a range error past the end. *)
Definition packetParsers_rangeResend (message : list Z) : Result RangeResend :=
  try! missedSeq <- getUint16 message RTP_HEADER_LENGTH;
  try! missedCount <- getUint16 message (RTP_HEADER_LENGTH + 2);
  Ok {| missedSeq := missedSeq; missedCount := missedCount |}.

(** The value of [this.packetParsers[header.payloadType]?.(message)]. *)
Inductive ParsedMessage : Type :=
| ParsedTimingRequest (m : TimingRequest)
| ParsedRangeResend (m : RangeResend)
| ParsedUndefined.

Definition packetParsers (key : PayloadTypeField) (message : list Z)
  : Result ParsedMessage :=
  match key with
  | PTName timingRequest =>
      try! m <- packetParsers_timingRequest message; Ok (ParsedTimingRequest m)
  | PTName rangeResend =>
      try! m <- packetParsers_rangeResend message; Ok (ParsedRangeResend m)
  | _ => Ok ParsedUndefined
  end.

(** Events of the socket object as the higher layer observes them. *)
Inductive EventName : Type :=
| EventPayloadType (key : PayloadTypeField)   (* [emit(header.payloadType, ...)] *)
| EventMessage.                               (* [emit('message', ...)] *)

Record Emission : Type := {
  event : EventName;
  parsedMessage : ParsedMessage;
  header : RTP_HEADER;
}.

(** The listener installed on the dgram socket's ['message'] event.  It
    returns the events emitted to the higher layer, in order. *)
Definition onSocketMessage (message : list Z) : Result (list Emission) :=
  try! header <- parseRtpHeader message;
  try! parsedMessage <- packetParsers (payloadType header) message;
  Ok [ {| event := EventPayloadType (payloadType header);
          parsedMessage := parsedMessage; header := header |};
       {| event := EventMessage;
          parsedMessage := parsedMessage; header := header |} ].

(** The socket object: its ports and the datagrams handed to
    [socket.send(data, port, host)]. *)
Record Datagram : Type := {
  data : list Z;
  port : Z;
  host : string;
}.

Record AirplayUdpSocket : Type := {
  serverPort : Z;
  clientPort : Z;
  clientHost : string;
  sent : list Datagram;
}.

Definition socket_send (d : list Z) (this : AirplayUdpSocket) : AirplayUdpSocket :=
  {| serverPort := serverPort this;
     clientPort := clientPort this;
     clientHost := clientHost this;
     sent := sent this ++ [ {| data := d; port := clientPort this;
                               host := clientHost this |} ] |}.

(** [packetSender.timingResponse] *)
Definition packetSender_timingResponse
    (originalPacket : TimingRequest) (originalPacketHeader : RTP_HEADER)
    (currentTime : float64) (this : AirplayUdpSocket) : Result AirplayUdpSocket :=
  if decide (clientPort this = -1) then Ok this
  else
    let data := Uint8Array (RTP_HEADER_LENGTH + 4 + 3 * RTP_NTP_TIMESTAMP_LENGTH) in
    let header :=
      getRtpHeader
        {| extension := extension originalPacketHeader;
           source := source originalPacketHeader;
           payloadType := PTNumber (enum_value timingResponse);
           marker := marker originalPacketHeader;
           seqnum := seqnum originalPacketHeader |} in
    try! data <- set header 0 data;
    try! data <- set (getNtpTimestamp (mul (sendTime originalPacket) thousand))
                   (RTP_HEADER_LENGTH + 4) data;
    try! data <- set (getNtpTimestamp currentTime)
                   (RTP_HEADER_LENGTH + 4 + RTP_NTP_TIMESTAMP_LENGTH) data;
    try! data <- set (getNtpTimestamp currentTime)
                   (RTP_HEADER_LENGTH + 4 + RTP_NTP_TIMESTAMP_LENGTH
                    + RTP_NTP_TIMESTAMP_LENGTH) data;
    Ok (socket_send data this).

(** [bindToPort].  The operating system is an oracle that tells, for each
    port, how a [socket.bind] of that port ends: the ['listening'] event or
    an ['error'] event with its error.  One call binds each port at most
    once, so the oracle may depend on the port alone. *)
Inductive BindOutcome : Type :=
| Listening
| BindError (code : string).

Definition EADDRINUSE : string := "EADDRINUSE".

(** How a call of [bindToPort] ends. *)
Inductive BindResult : Type :=
| Resolved                  (* the [break]: the promise of the call resolves *)
| Rejected (code : string). (* [throw e]: the promise of the call rejects *)

(** One state of the loop: the value of [this.serverPort] and the ports
    that were handed to [socket.bind] so far. *)
Record BindState : Type := {
  bs_serverPort : Z;
  bs_attempts : list Z;
}.

(** Big-step semantics of the [while (true)] loop from a given
    [this.serverPort]. *)
Inductive bind_loop (os : Z -> BindOutcome) : BindState -> BindState -> BindResult -> Prop :=
| bind_listening st :
    os (bs_serverPort st) = Listening ->
    bind_loop os st
      {| bs_serverPort := bs_serverPort st;
         bs_attempts := bs_attempts st ++ [bs_serverPort st] |}
      Resolved
| bind_rethrow st code :
    os (bs_serverPort st) = BindError code ->
    code <> EADDRINUSE ->
    bind_loop os st
      {| bs_serverPort := bs_serverPort st;
         bs_attempts := bs_attempts st ++ [bs_serverPort st] |}
      (Rejected code)
| bind_retry st st' r :
    os (bs_serverPort st) = BindError EADDRINUSE ->
    bind_loop os
      {| bs_serverPort := bs_serverPort st + 1;
         bs_attempts := bs_attempts st ++ [bs_serverPort st] |} st' r ->
    bind_loop os st st' r.

(** The same loop as a function, with a bound on the number of
    iterations; [None] means that the bound was reached. *)
Fixpoint bind_loop_fuel (fuel : nat) (os : Z -> BindOutcome) (st : BindState)
  : option (BindState * BindResult) :=
  match fuel with
  | O => None
  | S fuel' =>
      let tried := {| bs_serverPort := bs_serverPort st;
                      bs_attempts := bs_attempts st ++ [bs_serverPort st] |} in
      match os (bs_serverPort st) with
      | Listening => Some (tried, Resolved)
      | BindError code =>
          if decide (code = EADDRINUSE)
          then bind_loop_fuel fuel' os
                 {| bs_serverPort := bs_serverPort st + 1;
                    bs_attempts := bs_attempts st ++ [bs_serverPort st] |}
          else Some (tried, Rejected code)
      end
  end.

(** [bindToPort(basePort)]: [this.serverPort = basePort], then the loop. *)
Definition bindToPort_start (basePort : Z) : BindState :=
  {| bs_serverPort := basePort; bs_attempts := [] |}.

Definition bindToPort (fuel : nat) (os : Z -> BindOutcome) (basePort : Z)
  : option (BindState * BindResult) :=
  bind_loop_fuel fuel os (bindToPort_start basePort).

(** *** Definitions used to state the properties *)

(** The two 32-bit words that [getNtpTimestamp] writes. *)
Definition ntp_integer (time : float64) : Z :=
  ToUint32 (ToIntegerOrZero (Math_floor (div time thousand))).
Definition ntp_fraction (time : float64) : Z :=
  ToUint32
    (ToIntegerOrZero
       (mul (sub (div time thousand) (Math_floor (div time thousand))) two32)).

(** What [parseNtpTimestamp] makes of two 32-bit words. *)
Definition ntp_decode (integer fraction : Z) : float64 :=
  mul (add (of_Z integer) (div (of_Z fraction) two32)) thousand.

(** Reading back the timestamp of [time] gives [time] itself. *)
Definition ntp_exact (time : float64) : bool :=
  match parseNtpTimestamp (getNtpTimestamp time) with
  | Ok decoded => bool_decide (decoded = time)
  | Throw _ => false
  end.

(** Reading back the timestamp of the whole number [t] of milliseconds
    gives a number less than a microsecond away from [t]. *)
Definition ntp_close (t : Z) : bool :=
  match parseNtpTimestamp (getNtpTimestamp (of_Z t)) with
  | Ok decoded =>
      if Qlt_le_dec (Qabs (to_Q decoded - inject_Z t)) (1 # 1000) then true
      else false
  | Throw _ => false
  end.

(** The integers [from], [from + 1], ..., [from + n - 1]. *)
Definition range (from : Z) (n : nat) : list Z :=
  map (fun i => from + Z.of_nat i) (seq 0 n).

(** The header of the sync packets that [packetSender.sync] sends first. *)
Definition sync_header : RTP_HEADER :=
  {| extension := true; source := 0; payloadType := PTNumber (enum_value sync);
     marker := true; seqnum := 7 |}.

(** The scenario S5 of the spec: a timing request (sequence number 7)
    whose send-time slot holds 1 700 000 000 seconds, that is
    1 700 000 000 000 ms. *)
Definition S5_request : list Z :=
  [0x80; 0xd2; 0; 7] ++ [0; 0; 0; 0]
  ++ [0; 0; 0; 0; 0; 0; 0; 0]
  ++ [0; 0; 0; 0; 0; 0; 0; 0]
  ++ [0x65; 0x53; 0xf1; 0x00; 0; 0; 0; 0].

Definition S5_header : RTP_HEADER :=
  {| extension := false; source := 0; payloadType := PTName timingRequest;
     marker := true; seqnum := 7 |}.

Definition zero_request : TimingRequest :=
  {| referenceTime := of_Z 0; receivedTime := of_Z 0; sendTime := of_Z 0 |}.

Definition S5_parsed : TimingRequest :=
  match packetParsers_timingRequest S5_request with
  | Ok m => m
  | Throw _ => zero_request
  end.

Definition S5_socket : AirplayUdpSocket :=
  {| serverPort := 6001; clientPort := 6002; clientHost := "192.168.1.20";
     sent := [] |}.

(** The result of a call whose last bind ended with [o]. *)
Definition outcome_result (o : BindOutcome) : BindResult :=
  match o with
  | Listening => Resolved
  | BindError code => Rejected code
  end.

(** The ports [P], [P+1], ..., [P+n-1]. *)
Definition ports_from (P : Z) (n : nat) : list Z :=
  map (fun i => P + Z.of_nat i) (seq 0 n).

(** The operating system of scenario S6: the ports 6001 and 6002 are
    occupied, every other port is free. *)
Definition S6_os (p : Z) : BindOutcome :=
  if decide (p = 6001) then BindError EADDRINUSE
  else if decide (p = 6002) then BindError EADDRINUSE
  else Listening.

End Airplay.

(** ** Numeric window statistics (utils/basicNumericStatsTracker) *)

Module BasicNumericStatsTracker.
Local Open Scope nat_scope.

(** Modelled from the spec: the class [BasicNumericStatsTracker] is not
    among the source files.  Section 4.A describes it: a fixed-capacity ring
    of samples; [push(x)] evicts the oldest sample on overflow; [full(k)] is
    true when the ring holds at least [k] samples; [median()] is the exact
    middle for an odd count and the average of the two middles for an even
    count; [flush()] empties the ring.  The spec does not say what
    [median()] is on an empty ring; it is 0 here. *)
Record t : Type := {
  capacity : nat;
  buffer : list Q;   (* oldest sample first *)
}.

(** Modelled from the spec: the constructor, an empty ring of the given
    capacity. *)
Definition new (capacity : nat) : t :=
  {| capacity := capacity; buffer := [] |}.

(** Modelled from the spec: [push(x)] appends the sample and, on overflow,
    evicts the oldest one. *)
Definition push (x : Q) (r : t) : t :=
  let b := buffer r ++ [x] in
  {| capacity := capacity r;
     buffer := if capacity r <? length b then tail b else b |}.

(** Modelled from the spec: [full(k)], true when the ring holds at least
    [k] samples. *)
Definition full (k : nat) (r : t) : bool := k <=? length (buffer r).

(** Modelled from the spec: [flush()] empties the ring. *)
Definition flush (r : t) : t := {| capacity := capacity r; buffer := [] |}.

(** Sorting by insertion, for the median. *)
Fixpoint insert_sorted (x : Q) (l : list Q) : list Q :=
  match l with
  | [] => [x]
  | y :: l' => if Qle_bool x y then x :: l else y :: insert_sorted x l'
  end.

Definition sorted (l : list Q) : list Q := foldr insert_sorted [] l.

(** Modelled from the spec: [median()], the middle of the sorted samples
    for an odd count, the average of the two middles for an even count. *)
Definition median (r : t) : Q :=
  let s := sorted (buffer r) in
  let n := length s in
  if Nat.even n
  then ((nth (n / 2 - 1) s 0 + nth (n / 2) s 0) / 2)%Q
  else nth (n / 2) s 0%Q.

End BasicNumericStatsTracker.

(** ** The peer link and its time-sync estimator (peer.ts) *)

Module Peer.

Definition TIME_DELTAS_TO_KEEP : nat := 100.
Definition MS_DIFF_TO_UPDATE_TIME_DELTA : Q := 5.
Definition TIMESYNC_INIT_REQUEST_COUNT : nat := 10.
Definition TIMEKEEPER_REFRESH_INTERVAL : Z := 100.

Inductive Capacity : Type :=
| Librespot | Shairport | HttpServerAccessible | Hue
| ChromecastInteraction | SharedStateKeeper | AirplaySink.

Inductive PeerState : Type := connecting | connected | deleted.

#[global] Instance PeerState_eq_dec : EqDecision PeerState.
Proof. solve_decision. Defined.

Record PeerDescriptor : Type := {
  d_uuid : string;
  d_instanceUuid : string;
  d_name : string;
  d_capacities : list Capacity;
  d_version : string;
}.

(** Controller messages.  The body of an [rpc] message and the shared state
    of a [peerInfo] message are opaque here. *)
Inductive ControllerMessage : Type :=
| timekeepRequest (sentAt : Q)
| timekeepResponse (sentAt respondedAt : Q)
| peerInfo (peer : PeerDescriptor) (sharedState : bool)
| disconnect
| rpc (isResponse : bool) (uuid : string).

Inductive MessageType : Type :=
| type_timekeepRequest | type_timekeepResponse | type_peerInfo
| type_disconnect | type_rpc.

#[global] Instance MessageType_eq_dec : EqDecision MessageType.
Proof. solve_decision. Defined.

Definition message_type (m : ControllerMessage) : MessageType :=
  match m with
  | timekeepRequest _ => type_timekeepRequest
  | timekeepResponse _ _ => type_timekeepResponse
  | peerInfo _ _ => type_peerInfo
  | disconnect => type_disconnect
  | rpc _ _ => type_rpc
  end.

(** Events of a peer (an [EventEmitter]). *)
Inductive Event : Type :=
| stateChange
| timedeltaUpdated
| timesyncStateUpdated
| controllerMessage_all
| controllerMessage (type : MessageType).

#[global] Instance Event_eq_dec : EqDecision Event.
Proof. solve_decision. Defined.

(** The closures that the code registers as listeners.  A listener that
    another module installs is opaque: running it is recorded as an effect,
    and what it does lies outside this model. *)
Inductive Listener : Type :=
| on_timekeepRequest          (* constructor, line 71 *)
| on_timekeepResponse         (* constructor, line 78 *)
| on_peerInfo                 (* constructor, line 98 *)
| on_rpc                      (* constructor, line 122 *)
| on_stateChange              (* constructor, line 149 *)
| waitForConnected_listener (promise : nat)
| waitForFirstTimeSync_handler (promise : nat)
| external_listener (id : nat).   (* installed by another module *)

#[global] Instance Listener_eq_dec : EqDecision Listener.
Proof. solve_decision. Defined.

Record Peer : Type := {
  uuid : string;
  instanceUuid : string;
  name : string;
  version : string;
  state : PeerState;
  timeDelta : Q;
  timedeltas : BasicNumericStatsTracker.t;
  capacities : list Capacity;
  isLocal : bool;
  listeners : list (Event * Listener);     (* in registration order *)
  timekeepInterval : bool;                 (* the interval timer is running *)
  missingPeerResponseTimeout : bool;       (* the watchdog is armed *)
}.

(** What a handler does to the world outside the peers, in order. *)
Inductive Effect : Type :=
| Sent (peer : nat) (message : ControllerMessage)   (* [sendControllerMessage] *)
| Emitted (peer : nat) (event : Event)              (* [this.emit(event)] *)
| Called (id : nat) (peer : nat) (event : Event)    (* an external listener ran *)
| ManagerEmitted (event : string) (peer : option nat)
| SetTimeout (peer : nat) (delay : Z)               (* of [_sendTimekeepRequest] *)
| SharedStateHandled                                (* [handleSharedStateFromPeer] *)
| RpcHandled (peer : nat) (uuid : string)           (* the rpc listener ran *)
| Destroyed (peer : nat)                            (* [this._destroy()] *)
| RemoteDisconnect (peer : nat).                    (* [this.onRemoteDisconnect()] *)

(** A callback queued by [setImmediate] in [setState]: it closes over the
    peer and the [state] argument. *)
Record Immediate : Type := {
  im_peer : nat;
  im_state : PeerState;
}.

Record World : Type := {
  peers : gmap nat Peer;        (* the heap of peer objects *)
  registry : list nat;          (* the peers of [getPeersManager()] *)
  localPeer : nat;              (* [getLocalPeer()] *)
  immediates : list Immediate;  (* pending [setImmediate] callbacks, oldest first *)
  resolved : list nat;          (* promises that are resolved *)
  nextPromise : nat;
  trace : list Effect;
  clock : nat -> Q;             (* the n-th reading of [now()] *)
  ticks : nat;                  (* number of readings taken *)
}.

(** *** Field updates *)

Definition set_peers (f : gmap nat Peer -> gmap nat Peer) (w : World) : World :=
  {| peers := f (peers w); registry := registry w; localPeer := localPeer w;
     immediates := immediates w; resolved := resolved w;
     nextPromise := nextPromise w; trace := trace w; clock := clock w;
     ticks := ticks w |}.

Definition set_registry (f : list nat -> list nat) (w : World) : World :=
  {| peers := peers w; registry := f (registry w); localPeer := localPeer w;
     immediates := immediates w; resolved := resolved w;
     nextPromise := nextPromise w; trace := trace w; clock := clock w;
     ticks := ticks w |}.

Definition set_immediates (f : list Immediate -> list Immediate) (w : World) : World :=
  {| peers := peers w; registry := registry w; localPeer := localPeer w;
     immediates := f (immediates w); resolved := resolved w;
     nextPromise := nextPromise w; trace := trace w; clock := clock w;
     ticks := ticks w |}.

Definition resolve (promise : nat) (w : World) : World :=
  {| peers := peers w; registry := registry w; localPeer := localPeer w;
     immediates := immediates w; resolved := resolved w ++ [promise];
     nextPromise := nextPromise w; trace := trace w; clock := clock w;
     ticks := ticks w |}.

Definition new_promise (w : World) : nat * World :=
  (nextPromise w,
   {| peers := peers w; registry := registry w; localPeer := localPeer w;
      immediates := immediates w; resolved := resolved w;
      nextPromise := S (nextPromise w); trace := trace w; clock := clock w;
      ticks := ticks w |}).

Definition effect (e : Effect) (w : World) : World :=
  {| peers := peers w; registry := registry w; localPeer := localPeer w;
     immediates := immediates w; resolved := resolved w;
     nextPromise := nextPromise w; trace := trace w ++ [e]; clock := clock w;
     ticks := ticks w |}.

(** Modelled from the spec: [now()] of utils/misc is not among the source
    files.  Section 4.C: a clock in milliseconds.  Each call takes the next
    reading of the oracle. *)
Definition now (w : World) : Q * World :=
  (clock w (ticks w),
   {| peers := peers w; registry := registry w; localPeer := localPeer w;
      immediates := immediates w; resolved := resolved w;
      nextPromise := nextPromise w; trace := trace w; clock := clock w;
      ticks := S (ticks w) |}).

Definition update_peer (h : nat) (f : Peer -> Peer) (w : World) : World :=
  set_peers (fun m => match m !! h with
                      | Some p => <[h := f p]> m
                      | None => m
                      end) w.

Definition set_state (s : PeerState) (p : Peer) : Peer :=
  {| uuid := uuid p; instanceUuid := instanceUuid p; name := name p;
     version := version p; state := s; timeDelta := timeDelta p;
     timedeltas := timedeltas p; capacities := capacities p;
     isLocal := isLocal p; listeners := listeners p;
     timekeepInterval := timekeepInterval p;
     missingPeerResponseTimeout := missingPeerResponseTimeout p |}.

Definition set_timeDelta (d : Q) (p : Peer) : Peer :=
  {| uuid := uuid p; instanceUuid := instanceUuid p; name := name p;
     version := version p; state := state p; timeDelta := d;
     timedeltas := timedeltas p; capacities := capacities p;
     isLocal := isLocal p; listeners := listeners p;
     timekeepInterval := timekeepInterval p;
     missingPeerResponseTimeout := missingPeerResponseTimeout p |}.

Definition set_timedeltas
    (f : BasicNumericStatsTracker.t -> BasicNumericStatsTracker.t) (p : Peer) : Peer :=
  {| uuid := uuid p; instanceUuid := instanceUuid p; name := name p;
     version := version p; state := state p; timeDelta := timeDelta p;
     timedeltas := f (timedeltas p); capacities := capacities p;
     isLocal := isLocal p; listeners := listeners p;
     timekeepInterval := timekeepInterval p;
     missingPeerResponseTimeout := missingPeerResponseTimeout p |}.

Definition set_listeners
    (f : list (Event * Listener) -> list (Event * Listener)) (p : Peer) : Peer :=
  {| uuid := uuid p; instanceUuid := instanceUuid p; name := name p;
     version := version p; state := state p; timeDelta := timeDelta p;
     timedeltas := timedeltas p; capacities := capacities p;
     isLocal := isLocal p; listeners := f (listeners p);
     timekeepInterval := timekeepInterval p;
     missingPeerResponseTimeout := missingPeerResponseTimeout p |}.

Definition set_timers (interval watchdog : bool) (p : Peer) : Peer :=
  {| uuid := uuid p; instanceUuid := instanceUuid p; name := name p;
     version := version p; state := state p; timeDelta := timeDelta p;
     timedeltas := timedeltas p; capacities := capacities p;
     isLocal := isLocal p; listeners := listeners p;
     timekeepInterval := interval;
     missingPeerResponseTimeout := watchdog |}.

Definition set_descriptor (d : PeerDescriptor) (p : Peer) : Peer :=
  {| uuid := d_uuid d; instanceUuid := d_instanceUuid d; name := d_name d;
     version := d_version d; state := state p; timeDelta := timeDelta p;
     timedeltas := timedeltas p; capacities := d_capacities d;
     isLocal := isLocal p; listeners := listeners p;
     timekeepInterval := timekeepInterval p;
     missingPeerResponseTimeout := missingPeerResponseTimeout p |}.

(** *** The event emitter *)

(** [removeListener(event, listener)] removes the most recently added
    registration of [listener] for [event]. *)
Fixpoint remove_first (el : Event * Listener) (ls : list (Event * Listener))
  : list (Event * Listener) :=
  match ls with
  | [] => []
  | x :: ls' => if decide (x = el) then ls' else x :: remove_first el ls'
  end.

Definition removeListener (ev : Event) (l : Listener) (p : Peer) : Peer :=
  set_listeners (fun ls => rev (remove_first (ev, l) (rev ls))) p.

Definition addListener (ev : Event) (l : Listener) (p : Peer) : Peer :=
  set_listeners (fun ls => ls ++ [(ev, l)]) p.

Definition removeAllListeners (p : Peer) : Peer :=
  set_listeners (fun _ => []) p.

Definition isTimeSynchronized (h : nat) (w : World) : bool :=
  match peers w !! h with
  | Some p =>
      bool_decide (h = localPeer w)
      || BasicNumericStatsTracker.full TIMESYNC_INIT_REQUEST_COUNT (timedeltas p)
  | None => false
  end.

(** The listeners that are not controller-message handlers.  [h] is the
    peer they were registered on ([this]). *)
Definition run_listener (h : nat) (ev : Event) (l : Listener) (w : World) : World :=
  match peers w !! h with
  | None => w
  | Some p =>
      match l with
      | on_stateChange =>
          let w := if decide (state p <> connected)
                   then update_peer h (set_timedeltas BasicNumericStatsTracker.flush) w
                   else w in
          if decide (state p = connected) then
            let w := effect (ManagerEmitted "newConnectedPeer" (Some h)) w in
            if isLocal p then w
            else foldl (fun w i => effect (SetTimeout h (Z.of_nat i * 10)) w) w
                       (seq 0 TIMESYNC_INIT_REQUEST_COUNT)
          else w
      | waitForConnected_listener promise =>
          if decide (state p = connected) then w
          else resolve promise (update_peer h (removeListener stateChange l) w)
      | waitForFirstTimeSync_handler promise =>
          if isTimeSynchronized h w then w
          else resolve promise (update_peer h (removeListener timesyncStateUpdated l) w)
      | external_listener id => effect (Called id h ev) w
      | _ => w
      end
  end.

(** [this.emit(event)]: the listeners registered for [event] at the time
    of the call run in registration order. *)
Definition listeners_of (ev : Event) (p : Peer) : list Listener :=
  map snd (filter (fun el => el.1 = ev) (listeners p)).

Definition emit (h : nat) (ev : Event) (w : World) : World :=
  match peers w !! h with
  | None => w
  | Some p =>
      foldl (fun w l => run_listener h ev l w) (effect (Emitted h ev) w)
            (listeners_of ev p)
  end.

(** *** State changes *)

Definition setState (h : nat) (s : PeerState) (w : World) : World :=
  match peers w !! h with
  | None => w
  | Some p =>
      if decide (state p = s) then w
      else if decide (state p = deleted) then w
      else set_immediates (fun q => q ++ [ {| im_peer := h; im_state := s |} ])
             (update_peer h (set_state s) w)
  end.

(** The callback that [setState] hands to [setImmediate]. *)
Definition run_immediate_callback (im : Immediate) (w : World) : World :=
  let w := emit (im_peer im) stateChange w in
  let w := effect (ManagerEmitted "peerChange" (Some (im_peer im))) w in
  if decide (im_state im = connected)
  then effect (ManagerEmitted "connectedPeer" (Some (im_peer im))) w
  else w.

(** One turn of the event loop's check phase: the oldest pending callback. *)
Definition run_immediate (w : World) : World :=
  match immediates w with
  | [] => w
  | im :: rest => run_immediate_callback im (set_immediates (fun _ => rest) w)
  end.

(** All the callbacks that are pending. *)
Definition run_immediates (w : World) : World :=
  Nat.iter (length (immediates w)) run_immediate w.

Definition sendControllerMessage (h : nat) (m : ControllerMessage) (w : World) : World :=
  effect (Sent h m) w.

(** Modelled from the spec: the peers manager is not among the source
    files.  Section 4.I: a registry of peers; [unregisterPeer] takes a peer
    out of it, and [getConnectedPeerByUuid] finds a registered peer with the
    given stable uuid that is connected. *)
Definition unregisterPeer (h : nat) (w : World) : World :=
  set_registry (filter (fun h' => h' <> h)) w.

(** Modelled from the spec: the test of [getConnectedPeerByUuid], a peer
    with the stable uuid [u] whose state is connected. *)
Definition is_connected_with_uuid (u : string) (w : World) (h : nat) : bool :=
  match peers w !! h with
  | Some p => bool_decide (uuid p = u) && bool_decide (state p = connected)
  | None => false
  end.

(** Modelled from the spec: [getConnectedPeerByUuid(uuid)] of the peers
    manager, the first registered peer that passes the test. *)
Definition getConnectedPeerByUuid (u : string) (w : World) : option nat :=
  List.find (is_connected_with_uuid u w) (registry w).

(** [destroy(reason, { advertiseDestroy, canTryReconnect })] *)
Definition destroy (h : nat) (advertiseDestroy canTryReconnect : bool) (w : World)
  : World :=
  match peers w !! h with
  | None => w
  | Some p =>
      if decide (state p = deleted) then w
      else
        let w := if advertiseDestroy
                 then sendControllerMessage h disconnect w else w in
        let w := setState h deleted w in
        let w := effect (Destroyed h) w in
        let w := unregisterPeer h w in
        let w := update_peer h (fun p => set_timers false (missingPeerResponseTimeout p) p) w in
        let w := update_peer h removeAllListeners w in
        let w := effect (ManagerEmitted "peerChange" None) w in
        if canTryReconnect then effect (RemoteDisconnect h) w else w
  end.

Definition handleNoResponseTimeout (h : nat) (w : World) : World :=
  destroy h true true w.

(** *** The listeners of the constructor *)

Definition handle_timekeepRequest (h : nat) (sentAt : Q) (w : World) : World :=
  let (respondedAt, w) := now w in
  sendControllerMessage h (timekeepResponse sentAt respondedAt) w.

Definition handle_timekeepResponse (h : nat) (sentAt respondedAt : Q) (w : World)
  : World :=
  let (receivedAt, w) := now w in
  let roundtripTime := (receivedAt - sentAt)%Q in
  let receivedByPeerAt := (sentAt + roundtripTime / 2)%Q in
  let delta := (respondedAt - receivedByPeerAt)%Q in
  let w := update_peer h (set_timedeltas (BasicNumericStatsTracker.push delta)) w in
  let w :=
    match peers w !! h with
    | None => w
    | Some p =>
        if BasicNumericStatsTracker.full TIMESYNC_INIT_REQUEST_COUNT (timedeltas p)
        then
          let realTimeDelta := BasicNumericStatsTracker.median (timedeltas p) in
          if Qlt_le_dec MS_DIFF_TO_UPDATE_TIME_DELTA
                        (Qabs (realTimeDelta - timeDelta p))
          then emit h timedeltaUpdated
                 (update_peer h (set_timeDelta realTimeDelta) w)
          else w
        else w
    end in
  emit h timesyncStateUpdated w.

(** The listener of [peerInfo], after the duplicate check (lines 108-120). *)
Definition peerInfo_accept (h : nat) (peer : PeerDescriptor) (sharedState : bool)
    (w : World) : World :=
  let w := update_peer h (set_descriptor peer) w in
  let w := match peers w !! h with
           | Some p => if decide (state p <> connected)
                       then setState h connected w else w
           | None => w
           end in
  if sharedState then effect SharedStateHandled w else w.

Definition handle_peerInfo (h : nat) (peer : PeerDescriptor) (sharedState : bool)
    (w : World) : World :=
  match getConnectedPeerByUuid (d_uuid peer) w with
  | Some existingPeer =>
      match peers w !! existingPeer with
      | Some e =>
          if decide (instanceUuid e = d_instanceUuid peer)
          then destroy h false false w
          else peerInfo_accept h peer sharedState (destroy existingPeer true false w)
      | None => peerInfo_accept h peer sharedState w
      end
  | None => peerInfo_accept h peer sharedState w
  end.

(** The rpc listener awaits handlers that live in other modules; only the
    fact that it ran is recorded. *)
Definition handle_rpc (h : nat) (uuid : string) (w : World) : World :=
  effect (RpcHandled h uuid) w.

Definition run_message_listener (h : nat) (m : ControllerMessage) (l : Listener)
    (w : World) : World :=
  match l, m with
  | on_timekeepRequest, timekeepRequest sentAt => handle_timekeepRequest h sentAt w
  | on_timekeepResponse, timekeepResponse sentAt respondedAt =>
      handle_timekeepResponse h sentAt respondedAt w
  | on_peerInfo, peerInfo peer sharedState => handle_peerInfo h peer sharedState w
  | on_rpc, rpc _ uuid => handle_rpc h uuid w
  | _, _ => run_listener h (controllerMessage (message_type m)) l w
  end.

Definition emit_message (h : nat) (ev : Event) (m : ControllerMessage) (w : World)
  : World :=
  match peers w !! h with
  | None => w
  | Some p =>
      foldl (fun w l => run_message_listener h m l w) (effect (Emitted h ev) w)
            (listeners_of ev p)
  end.

(** [_onReceivedMessage(message)] *)
Definition _onReceivedMessage (h : nat) (m : ControllerMessage) (w : World) : World :=
  let w := update_peer h (fun p => set_timers (timekeepInterval p) (negb (isLocal p)) p) w in
  let w := emit_message h controllerMessage_all m w in
  let w := emit_message h (controllerMessage (message_type m)) m w in
  effect (ManagerEmitted "controllerMessage" (Some h)) w.

(** [waitForConnected()]: the promise it returns. *)
Definition waitForConnected (h : nat) (w : World) : nat * World :=
  let (promise, w) := new_promise w in
  match peers w !! h with
  | None => (promise, w)
  | Some p =>
      if decide (state p = connected) then (promise, resolve promise w)
      else (promise,
            update_peer h (addListener stateChange (waitForConnected_listener promise)) w)
  end.

Definition getCurrentTime (h : nat) (realDelta : bool) (w : World) : Q * World :=
  let (t, w) := now w in
  if decide (h = localPeer w) then (t, w)
  else
    match peers w !! h with
    | Some p =>
        ((t + (if realDelta
               then BasicNumericStatsTracker.median (timedeltas p)
               else timeDelta p))%Q, w)
    | None => (t, w)
    end.

Definition _sendTimekeepRequest (h : nat) (w : World) : World :=
  match peers w !! h with
  | None => w
  | Some p =>
      if isLocal p then w
      else let (sentAt, w) := now w in
           sendControllerMessage h (timekeepRequest sentAt) w
  end.

(** The constructor: a new object at a fresh address. *)
Definition constructor_listeners : list (Event * Listener) :=
  [ (controllerMessage type_timekeepRequest, on_timekeepRequest);
    (controllerMessage type_timekeepResponse, on_timekeepResponse);
    (controllerMessage type_peerInfo, on_peerInfo);
    (controllerMessage type_rpc, on_rpc);
    (stateChange, on_stateChange) ].

Definition new_Peer (d : PeerDescriptor) (w : World) : nat * World :=
  let h := fresh (dom (peers w)) in
  let p := {| uuid := d_uuid d; instanceUuid := d_instanceUuid d;
              name := d_name d; version := d_version d;
              state := connecting; timeDelta := 0;
              timedeltas := BasicNumericStatsTracker.new TIME_DELTAS_TO_KEEP;
              capacities := d_capacities d; isLocal := false;
              listeners := constructor_listeners;
              timekeepInterval := true;
              missingPeerResponseTimeout := false |} in
  (h, effect (ManagerEmitted "peerChange" (Some h)) (set_peers (insert h p) w)).

Definition empty_world (clock : nat -> Q) : World :=
  {| peers := ∅; registry := []; localPeer := 0%nat; immediates := [];
     resolved := []; nextPromise := 0%nat; trace := []; clock := clock;
     ticks := 0%nat |}.

(** *** Sequences of calls of [setState] and [destroy] *)

Inductive Call : Type :=
| call_setState (s : PeerState)
| call_destroy (advertiseDestroy canTryReconnect : bool).

Definition run_call (h : nat) (c : Call) (w : World) : World :=
  match c with
  | call_setState s => setState h s w
  | call_destroy a r => destroy h a r w
  end.

Definition state_of (h : nat) (w : World) : option PeerState :=
  state <$> peers w !! h.

(** The states a peer goes through, one after each call. *)
Fixpoint states_after (h : nat) (calls : list Call) (w : World) : list (option PeerState) :=
  match calls with
  | [] => []
  | c :: calls' =>
      let w' := run_call h c w in
      state_of h w' :: states_after h calls' w'
  end.

Definition rank (s : PeerState) : nat :=
  match s with
  | connecting => 0
  | connected => 1
  | deleted => 2
  end.

(** Every transition in a list of successive states goes forward:
    [connecting], then [connected], then [deleted]. *)
Fixpoint forward_from (s : PeerState) (l : list (option PeerState)) : Prop :=
  match l with
  | [] => True
  | Some s' :: l' => (rank s <= rank s')%nat /\ forward_from s' l'
  | None :: _ => False
  end.

(** *** Well-formed listener tables *)

(** The event on which the code registers each of its closures; a listener
    of another module may be registered on any event. *)
Definition registered_on (ev : Event) (l : Listener) : bool :=
  match l with
  | on_timekeepRequest => bool_decide (ev = controllerMessage type_timekeepRequest)
  | on_timekeepResponse => bool_decide (ev = controllerMessage type_timekeepResponse)
  | on_peerInfo => bool_decide (ev = controllerMessage type_peerInfo)
  | on_rpc => bool_decide (ev = controllerMessage type_rpc)
  | on_stateChange => bool_decide (ev = stateChange)
  | waitForConnected_listener _ => bool_decide (ev = stateChange)
  | waitForFirstTimeSync_handler _ => bool_decide (ev = timesyncStateUpdated)
  | external_listener _ => true
  end.

Definition well_registered (p : Peer) : Prop :=
  Forall (fun el => registered_on el.1 el.2 = true) (listeners p).

(** The ring of a peer holds at most [TIME_DELTAS_TO_KEEP] samples. *)
Definition ring_bounded (p : Peer) : Prop :=
  BasicNumericStatsTracker.capacity (timedeltas p) = TIME_DELTAS_TO_KEEP
  /\ (length (BasicNumericStatsTracker.buffer (timedeltas p))
      <= TIME_DELTAS_TO_KEEP)%nat.

(** The sample that the timekeepResponse listener pushes. *)
Definition delta_sample (receivedAt sentAt respondedAt : Q) : Q :=
  (respondedAt - (sentAt + (receivedAt - sentAt) / 2))%Q.

(** The registered peers that are connected under the stable uuid [u]. *)
Definition connected_with_uuid (u : string) (w : World) : list nat :=
  List.filter (is_connected_with_uuid u w) (registry w).

(** Effects that are calls of listeners of other modules. *)
Definition is_call (e : Effect) : Prop :=
  match e with
  | Called _ _ _ => True
  | _ => False
  end.

(** The two events of the time-sync estimator. *)
Definition sync_event (ev : Event) : Prop :=
  ev = timedeltaUpdated \/ ev = timesyncStateUpdated.

(** What a peer keeps when a listener of a sync event runs: everything
    but its table of listeners. *)
Definition same_sync_state (p q : Peer) : Prop :=
  timeDelta q = timeDelta p /\ timedeltas q = timedeltas p
  /\ state q = state p /\ well_registered q.

(** *** Sample inputs *)

Definition sample_descriptor : PeerDescriptor :=
  {| d_uuid := "peer-x"; d_instanceUuid := "instance-1"; d_name := "kitchen";
     d_capacities := [AirplaySink]; d_version := "0.1.0" |}.

Definition sample_clock (n : nat) : Q := inject_Z (1000 + 40 * Z.of_nat n).

(** A world with one freshly constructed peer. *)
Definition one_peer_world : nat * World :=
  new_Peer sample_descriptor (empty_world sample_clock).

(** Scenario S4: peer-x is connected as instance-1 on link 1; the link 2
    is still connecting when it receives the [peerInfo] of instance-2. *)
Definition connected_peer_x : Peer :=
  {| uuid := "peer-x"; instanceUuid := "instance-1"; name := "kitchen";
     version := "0.1.0"; state := connected; timeDelta := 0;
     timedeltas := BasicNumericStatsTracker.new TIME_DELTAS_TO_KEEP;
     capacities := [AirplaySink]; isLocal := false;
     listeners := constructor_listeners; timekeepInterval := true;
     missingPeerResponseTimeout := true |}.

Definition newcomer : Peer :=
  {| uuid := "peer-x"; instanceUuid := EmptyString; name := EmptyString;
     version := EmptyString;
     state := connecting; timeDelta := 0;
     timedeltas := BasicNumericStatsTracker.new TIME_DELTAS_TO_KEEP;
     capacities := []; isLocal := false;
     listeners := constructor_listeners; timekeepInterval := true;
     missingPeerResponseTimeout := true |}.

Definition two_links_world : World :=
  {| peers := <[1%nat := connected_peer_x]> (<[2%nat := newcomer]> ∅);
     registry := [1%nat; 2%nat]; localPeer := 0%nat; immediates := [];
     resolved := []; nextPromise := 0%nat; trace := []; clock := sample_clock;
     ticks := 0%nat |}.

Definition restarted_descriptor : PeerDescriptor :=
  {| d_uuid := "peer-x"; d_instanceUuid := "instance-2"; d_name := "kitchen";
     d_capacities := [AirplaySink]; d_version := "0.1.0" |}.

(** Scenario S1: a connected peer whose ring holds nine samples of 137 ms
    and whose committed delta is still 0; a listener of another module is
    registered on [timedeltaUpdated]. *)
Definition nine_samples_peer : Peer :=
  {| uuid := "peer-x"; instanceUuid := "instance-1"; name := "kitchen";
     version := "0.1.0"; state := connected; timeDelta := 0;
     timedeltas := {| BasicNumericStatsTracker.capacity := TIME_DELTAS_TO_KEEP;
                      BasicNumericStatsTracker.buffer := replicate 9 137%Q |};
     capacities := [AirplaySink]; isLocal := false;
     listeners := constructor_listeners ++ [(timedeltaUpdated, external_listener 7)];
     timekeepInterval := true; missingPeerResponseTimeout := true |}.

Definition nine_samples_world : World :=
  {| peers := <[1%nat := nine_samples_peer]> ∅;
     registry := [1%nat]; localPeer := 0%nat; immediates := [];
     resolved := []; nextPromise := 0%nat; trace := []; clock := sample_clock;
     ticks := 0%nat |}.

(** The peer that [new_Peer sample_descriptor] constructs. *)
Definition fresh_peer : Peer :=
  {| uuid := "peer-x"; instanceUuid := "instance-1"; name := "kitchen";
     version := "0.1.0"; state := connecting; timeDelta := 0;
     timedeltas := BasicNumericStatsTracker.new TIME_DELTAS_TO_KEEP;
     capacities := [AirplaySink]; isLocal := false;
     listeners := constructor_listeners; timekeepInterval := true;
     missingPeerResponseTimeout := false |}.

(** The peer object after [destroy]. *)
Definition destroyed (p : Peer) : Peer :=
  removeAllListeners
    (set_timers false (missingPeerResponseTimeout p) (set_state deleted p)).

End Peer.

(** ** The local device sink (LocalDeviceSink) *)

Module Sink.

(** The piped source as the sink reads it. *)
Record AudioSource : Type := {
  startedAt : Q;
  latency : Q;
  peer : nat;          (* [source.peer], a handle into the heap of peers *)
}.

(** The closures of [_startSink] that are registered somewhere. *)
Inductive Callback : Type :=
| handleTimedeltaUpdate
| setDelayFromLocalNow_callback
| syncDeviceVolume.

(** Where [_startSink] registers them. *)
Inductive Trigger : Type :=
| peer_timedeltaUpdated      (* [this.pipedSource.peer.on('timedeltaUpdated', ...)] *)
| source_update              (* [this.pipedSource.on('update', ...)] *)
| interval (ms : Z).         (* [setInterval(..., ms)] *)

#[global] Instance Trigger_eq_dec : EqDecision Trigger.
Proof. solve_decision. Defined.

Record LocalDeviceSink : Type := {
  delayFromLocalNowBuffer : Q;     (* the one cell of the shared Float64Array *)
  pipedSource : AudioSource;
  registrations : list (Trigger * Callback);
  world : Peer.World;              (* the peers and the clock *)
}.

Definition set_world (w : Peer.World) (this : LocalDeviceSink) : LocalDeviceSink :=
  {| delayFromLocalNowBuffer := delayFromLocalNowBuffer this;
     pipedSource := pipedSource this;
     registrations := registrations this;
     world := w |}.

Definition set_buffer (v : Q) (this : LocalDeviceSink) : LocalDeviceSink :=
  {| delayFromLocalNowBuffer := v;
     pipedSource := pipedSource this;
     registrations := registrations this;
     world := world this |}.

Definition register (t : Trigger) (c : Callback) (this : LocalDeviceSink)
  : LocalDeviceSink :=
  {| delayFromLocalNowBuffer := delayFromLocalNowBuffer this;
     pipedSource := pipedSource this;
     registrations := registrations this ++ [(t, c)];
     world := world this |}.

(** [setDelayFromLocalNow]: the operands of the subtraction are evaluated
    from left to right, so the clock is read twice. *)
Definition setDelayFromLocalNow (this : LocalDeviceSink) : LocalDeviceSink :=
  let (currentTime, w) :=
    Peer.getCurrentTime (peer (pipedSource this)) true (world this) in
  let startedAt := startedAt (pipedSource this) in
  let latency := latency (pipedSource this) in
  let (localNow, w) := Peer.now w in
  set_buffer (currentTime - startedAt - latency - localNow)%Q (set_world w this).

Definition run_callback (c : Callback) (this : LocalDeviceSink) : LocalDeviceSink :=
  match c with
  | handleTimedeltaUpdate => setDelayFromLocalNow this
  | setDelayFromLocalNow_callback => setDelayFromLocalNow this
  | syncDeviceVolume => this       (* touches the audio stream only *)
  end.

(** What [_startSink] does to the sink once the output stream is open: the
    first resync (line 60) and the three registrations (lines 73, 75, 79). *)
Definition _startSink (this : LocalDeviceSink) : LocalDeviceSink :=
  let this := setDelayFromLocalNow this in
  let this := register peer_timedeltaUpdated handleTimedeltaUpdate this in
  let this := register source_update handleTimedeltaUpdate this in
  register (interval 1000) setDelayFromLocalNow_callback this.

(** An event of the peer or of the source, or a turn of a timer: the
    callbacks registered for it run in order. *)
Definition fire (t : Trigger) (this : LocalDeviceSink) : LocalDeviceSink :=
  foldl (fun this c => run_callback c this) this
        (map snd (filter (fun tc => tc.1 = t) (registrations this))).

(** The right-hand side of the spec, written after its words:
    [peer.get_current_time(true) - source.started_at - source.latency - now()],
    with the clock read at the resync. *)
Definition spec_delay_from_local_now (this : LocalDeviceSink) : Q :=
  let (currentTime, w) :=
    Peer.getCurrentTime (peer (pipedSource this)) true (world this) in
  let (localNow, _) := Peer.now w in
  (currentTime - startedAt (pipedSource this) - latency (pipedSource this)
   - localNow)%Q.

(** A sink that has not registered anything yet, piped from a source of
    the remote peer of [Peer.nine_samples_world]. *)
Definition sample_sink : LocalDeviceSink :=
  {| delayFromLocalNowBuffer := 0;
     pipedSource := {| startedAt := 400; latency := 250; peer := 1%nat |};
     registrations := [];
     world := Peer.nine_samples_world |}.

End Sink.

(** ** The rendezvous relay (wrtc_messenger.ts) *)

Module Rendezvous.

(** The value of [ctx.request.body]. *)
Inductive RequestBody : Type :=
| body_string (s : string)
| body_object
| body_undefined.

(** The numbers that [ToNumber] of a string can give. *)
Inductive StringNumber : Type :=
| NaN
| Finite (q : Q)
| PlusInfinity
| MinusInfinity.

Record Redis : Type := {
  lists : gmap string (list string);
  expiry : gmap string Z;
}.

Definition lpush (key message : string) (r : Redis) : Redis :=
  {| lists := <[key := message :: default [] (lists r !! key)]> (lists r);
     expiry := expiry r |}.

Definition expire (key : string) (seconds : Z) (r : Redis) : Redis :=
  {| lists := lists r; expiry := <[key := seconds]> (expiry r) |}.

Record Response : Type := {
  status : Z;
  message : string;
}.

Section Handler.

(** [ToNumber] applied to a string is ECMAScript's, not the repository's;
    the handler is embedded for every such function. *)
Variable StringToNumber : string -> StringNumber.
(** [config.get('conversationExpireTime')] *)
Variable conversationExpireTime : Z.

(** [s < n] for a string [s] and a number [n]: the string is converted to
    a number, and a comparison with NaN is false. *)
Definition string_lt_number (s : string) (n : Q) : bool :=
  match StringToNumber s with
  | NaN => false
  | Finite q => if Qlt_le_dec q n then true else false
  | PlusInfinity => false
  | MinusInfinity => true
  end.

(** [router.post('/api/conversations/:id/messages')].  The route parameter
    [ctx.params.id] is always a string.  A failed [ctx.assert] ends the
    request with the given status. *)
Definition post_messages (body : RequestBody) (conversationId : string) (r : Redis)
  : Response * Redis :=
  match body with
  | body_string message =>
      if negb (String.length message <? 1024)%nat
      then ({| status := 400; message := "body should be less than 1024 chars" |}, r)
      else if negb (string_lt_number conversationId 64)
      then ({| status := 400;
               message := "conversion_id should be less than 64 chars" |}, r)
      else
        let key := ("conversation:" +:+ conversationId)%string in
        ({| status := 204; message := EmptyString |},
         expire key conversationExpireTime (lpush key message r))
  | _ => ({| status := 400; message := "body should be a string" |}, r)
  end.

End Handler.

(** [ToNumber] on the strings used in the examples below: a string of
    decimal digits is read in base ten (the empty string is 0); every
    other string is treated as having no numeric reading.  (ECMAScript reads more strings
    as numbers: signs, blanks, fractions, exponents, other bases.) *)
Fixpoint digits_value (acc : Z) (s : string) : option Z :=
  match s with
  | EmptyString => Some acc
  | String c s' =>
      let n := Z.of_nat (Ascii.nat_of_ascii c) in
      if (48 <=? n) && (n <=? 57) then digits_value (acc * 10 + (n - 48)) s'
      else None
  end.

Definition decimal_StringToNumber (s : string) : StringNumber :=
  match digits_value 0 s with
  | Some z => Finite (inject_Z z)
  | None => NaN
  end.

(** A string of [n] letters a. *)
Fixpoint letters (n : nat) : string :=
  match n with
  | O => EmptyString
  | S n' => String (Ascii.ascii_of_nat 97) (letters n')
  end.

Definition empty_redis : Redis := {| lists := ∅; expiry := ∅ |}.

End Rendezvous.

(** ** The other senders of the AirPlay transport *)

Module AirplaySenders.
Import Bytes Binary64 Airplay.

(** The big-endian bytes that [setUint16] and [setUint32] write. *)
Definition be16 (v : Z) : list Z :=
  let u := ToUint16 v in [u / 256; u mod 256].

Definition be32 (v : Z) : list Z :=
  let u := ToUint32 v in
  [u / 2 ^ 24; (u / 2 ^ 16) mod 256; (u / 2 ^ 8) mod 256; u mod 256].

(** [packetSender.sync]; its numbers are binary64 numbers, converted by
    [setUint32] and [getNtpTimestamp]. *)
Definition packetSender_sync
    (nextAudioChunkTimestamp currentTime latency : float64) (isFirst : bool)
    (this : AirplayUdpSocket) : Result AirplayUdpSocket :=
  if decide (clientPort this = -1) then Ok this
  else
    let data := Uint8Array (RTP_HEADER_LENGTH + 4 * 4) in
    try! data <- set (getRtpHeader
                        {| extension := isFirst; source := 0;
                           payloadType := PTNumber (enum_value sync);
                           marker := true; seqnum := 7 |}) 0 data;
    let data := setUint32 RTP_HEADER_LENGTH
                  (ToIntegerOrZero (sub nextAudioChunkTimestamp latency)) data in
    try! data <- set (getNtpTimestamp (Math_max (of_Z 0) currentTime))
                   (RTP_HEADER_LENGTH + 4) data;
    let data := setUint32 (RTP_HEADER_LENGTH + 4 * 3)
                  (ToIntegerOrZero nextAudioChunkTimestamp) data in
    Ok (socket_send data this).

Section AudioData.

(** [FRAMES_PER_PACKET] of airplayConstants, which is not among the source
    files. *)
Variable FRAMES_PER_PACKET : Q.

(** [packetSender.audioData]; the arguments [aesKey] and [aesIv] are
    accepted and, as the source has it, not used. *)
Definition packetSender_audioData
    (alacData : list Z) (timestamp : Q) (firstPacketInStream : bool)
    (clientSessionId : Q) (aesKey aesIv : string)
    (this : AirplayUdpSocket) : Result AirplayUdpSocket :=
  if decide (clientPort this = -1) then Ok this
  else
    let data := Uint8Array (RTP_HEADER_LENGTH + 4 + 4 + length alacData) in
    let data := setUint8 0 0x80 data in
    let data := setUint8 1 (if firstPacketInStream then 0xe0 else 0x60) data in
    let data := setUint16 2 (Qfloor (timestamp / FRAMES_PER_PACKET)) data in
    let data := setUint32 4 (Qtruncate timestamp) data in
    let data := setUint32 8 (Qtruncate clientSessionId) data in
    try! data <- set alacData 12 data;
    Ok (socket_send data this).

End AudioData.

(** How long a datagram must be for the receive path to read it: the
    header, and what the parser of its payload type reads. *)
Definition needed_length (key : PayloadTypeField) : nat :=
  match key with
  | PTName timingRequest =>
      RTP_HEADER_LENGTH + 4 + 3 * RTP_NTP_TIMESTAMP_LENGTH
  | PTName rangeResend => RTP_HEADER_LENGTH + 4
  | _ => RTP_HEADER_LENGTH
  end.

(** The same for a datagram, whose payload type is the one of its header
    when it has four bytes for [parseRtpHeader] to read. *)
Definition required_length (message : list Z) : nat :=
  match parseRtpHeader message with
  | Ok header => needed_length (payloadType header)
  | Throw _ => RTP_HEADER_LENGTH
  end.

(** Four bytes of ALAC data for the examples. *)
Definition sample_alac : list Z := [0x20; 0x00; 0x12; 0xff].

End AirplaySenders.

(** ** RPC correlation of the peer link (peer.ts, lines 122-148 and 284-301) *)

Module Rpc.

Record RPCMessage : Type := {
  rpcType : string;
  isResponse : bool;
  isError : bool;
  body : string;        (* the body, opaque *)
  uuid : string;
}.

(** How the promise returned by [sendRcp] ended. *)
Inductive Settled : Type :=
| Fulfilled (body : string)      (* [resolve(m.body)] *)
| RejectedWith (text : string).  (* [reject(new Error(m.body))] *)

(** The part of a peer that the RPC code touches. *)
Record RpcPeer : Type := {
  rpcResponseHandlers : gmap string nat;  (* uuid to the promise its closure settles *)
  settled : gmap nat Settled;             (* promises that are settled *)
  nextPromise : nat;
  sent : list RPCMessage;                 (* [sendControllerMessage], oldest first *)
  uuids : nat -> string;                  (* the successive results of [uuidv4()],
                                             UUID strings: never a property name
                                             of [Object.prototype] *)
  nextUuid : nat;
}.

Section Handlers.

(** [rpcHandlers[rpcType](peer, body)] lives in another module: it returns a
    body ([inl]) or throws, in which case the listener sends [e.toString()]
    ([inr]).  The listener awaits the handler; the model runs the handler
    and sends the response in one step. *)
Variable rpcHandlers : string -> string -> string + string.

(** [sendRcp(type, message)]: the promise it returns. *)
Definition sendRcp (type message : string) (p : RpcPeer) : nat * RpcPeer :=
  let u := uuids p (nextUuid p) in
  (nextPromise p,
   {| rpcResponseHandlers := <[u := nextPromise p]> (rpcResponseHandlers p);
      settled := settled p;
      nextPromise := S (nextPromise p);
      sent := sent p ++ [ {| rpcType := type; isResponse := false; isError := false;
                             body := message; uuid := u |} ];
      uuids := uuids p;
      nextUuid := S (nextUuid p) |}).

(** The listener of [rpc] messages. *)
Definition on_rpc (m : RPCMessage) (p : RpcPeer) : RpcPeer :=
  if isResponse m then
    match rpcResponseHandlers p !! uuid m with
    | Some promise =>
        {| rpcResponseHandlers := delete (uuid m) (rpcResponseHandlers p);
           settled := <[promise := if isError m then RejectedWith (body m)
                                   else Fulfilled (body m)]> (settled p);
           nextPromise := nextPromise p;
           sent := sent p;
           uuids := uuids p;
           nextUuid := nextUuid p |}
    | None => p
    end
  else
    let response :=
      match rpcHandlers (rpcType m) (body m) with
      | inl b => {| rpcType := rpcType m; isResponse := true; isError := false;
                    body := b; uuid := uuid m |}
      | inr e => {| rpcType := rpcType m; isResponse := true; isError := true;
                    body := e; uuid := uuid m |}
      end in
    {| rpcResponseHandlers := rpcResponseHandlers p;
       settled := settled p;
       nextPromise := nextPromise p;
       sent := sent p ++ [response];
       uuids := uuids p;
       nextUuid := nextUuid p |}.

End Handlers.

(** A handler table for the examples: [ping] answers [pong], every other
    type throws. *)
Definition sample_rpcHandlers (type body : string) : string + string :=
  if decide (type = "ping") then inl "pong" else inr "TypeError".

Definition sample_rpc_peer : RpcPeer :=
  {| rpcResponseHandlers := ∅; settled := ∅; nextPromise := 0%nat; sent := [];
     uuids := fun n => if decide (n = 0%nat) then "u-0" else "u-1";
     nextUuid := 0%nat |}.

End Rpc.

(** ** More of the peer link: [waitForFirstTimeSync] *)

Module PeerSync.
Import Peer.

(** [waitForFirstTimeSync()]: the promise it returns; resolved at once
    (with [true]) when the peer is time synchronized. *)
Definition waitForFirstTimeSync (h : nat) (w : World) : nat * World :=
  let (promise, w) := new_promise w in
  if isTimeSynchronized h w then (promise, resolve promise w)
  else (promise,
        update_peer h
          (addListener timesyncStateUpdated (waitForFirstTimeSync_handler promise)) w).

(** A remote peer as the constructor leaves it, with [n] samples of 137 ms
    in its ring. *)
Definition peer_with_samples (n : nat) : Peer :=
  {| uuid := "peer-x"; instanceUuid := "instance-1"; name := "kitchen";
     version := "0.1.0"; state := connected; timeDelta := 0;
     timedeltas := {| BasicNumericStatsTracker.capacity := TIME_DELTAS_TO_KEEP;
                      BasicNumericStatsTracker.buffer := replicate n 137%Q |};
     capacities := [AirplaySink]; isLocal := false;
     listeners := constructor_listeners;
     timekeepInterval := true; missingPeerResponseTimeout := true |}.

Definition world_with_samples (n : nat) : World :=
  {| peers := <[1%nat := peer_with_samples n]> ∅;
     registry := [1%nat]; localPeer := 0%nat; immediates := [];
     resolved := []; nextPromise := 0%nat; trace := []; clock := sample_clock;
     ticks := 0%nat |}.

End PeerSync.

(** ** The rendezvous relay: reading a conversation *)

Module RendezvousGet.
Import Rendezvous.

(** [DEL key]: the list and its expiry are removed. *)
Definition del (key : string) (r : Redis) : Redis :=
  {| lists := delete key (lists r); expiry := delete key (expiry r) |}.

(** [LRANGE key 0 -1]: the whole list, empty for a missing key. *)
Definition lrange_all (key : string) (r : Redis) : list string :=
  default [] (lists r !! key).

(** The response to a GET.  [ctx.body] is the first entry of the result of
    the pipeline, the entry of the LRANGE command; [get_body] is the list
    that this entry carries (the client, which is not in src, may wrap it
    with an error slot).  A failed [ctx.assert] sets no body. *)
Record GetResponse : Type := {
  get_status : Z;
  get_body : option (list string);
}.

Section Handler.

Variable StringToNumber : string -> StringNumber.
Variable conversationExpireTime : Z.

(** [router.get('/api/conversations/:id/messages')]; setting [ctx.body]
    gives the status 200. *)
Definition get_messages (conversationId : string) (r : Redis) : GetResponse * Redis :=
  if negb (string_lt_number StringToNumber conversationId 64)
  then ({| get_status := 400; get_body := None |}, r)
  else
    let key := ("conversation:" +:+ conversationId)%string in
    ({| get_status := 200; get_body := Some (lrange_all key r) |}, del key r).

(** The store after a sequence of POSTs of string bodies to one
    conversation, the first of the list being sent first. *)
Definition post_all (bodies : list string) (conversationId : string) (r : Redis)
  : Redis :=
  fold_left
    (fun r m =>
       (post_messages StringToNumber conversationExpireTime
          (body_string m) conversationId r).2)
    bodies r.

End Handler.

End RendezvousGet.

(** ** The local device sink: stopping *)

Module SinkLifecycle.
Import Sink.

(** The sink together with [this.cleanStream], which [_startSink] sets and
    [_stopSink] deletes. *)
Record RunningSink : Type := {
  sink : LocalDeviceSink;
  cleanStream : bool;
}.

#[global] Instance Callback_eq_dec : EqDecision Callback.
Proof. solve_decision. Defined.

(** [emitter.off(event, listener)] and [clearInterval(timer)]: the most
    recent matching registration is removed. *)
Fixpoint remove_first (tc : Trigger * Callback) (l : list (Trigger * Callback))
  : list (Trigger * Callback) :=
  match l with
  | [] => []
  | x :: l' => if decide (x = tc) then l' else x :: remove_first tc l'
  end.

Definition unregister (t : Trigger) (c : Callback) (this : LocalDeviceSink)
  : LocalDeviceSink :=
  {| delayFromLocalNowBuffer := delayFromLocalNowBuffer this;
     pipedSource := pipedSource this;
     registrations := rev (remove_first (t, c) (rev (registrations this)));
     world := world this |}.

(** The closure [this.cleanStream] (lines 80-92), on a sink that is still
    piped ([this.pipedSource] and its peer are set).  [syncDeviceVolume] is
    taken off the sink's own [update] event, on which [_startSink] never
    put it; stopping the audio stream touches nothing modelled here. *)
Definition cleanStream_callback (this : LocalDeviceSink) : LocalDeviceSink :=
  let this := unregister peer_timedeltaUpdated handleTimedeltaUpdate this in
  let this := unregister source_update handleTimedeltaUpdate this in
  unregister (interval 1000) setDelayFromLocalNow_callback this.

Definition startSink (s : RunningSink) : RunningSink :=
  {| sink := _startSink (sink s); cleanStream := true |}.

(** [_stopSink()] *)
Definition _stopSink (s : RunningSink) : RunningSink :=
  if cleanStream s
  then {| sink := cleanStream_callback (sink s); cleanStream := false |}
  else s.

End SinkLifecycle.

(** ** The life cycle of a peer link: definitions used to state properties *)

Module PeerLifecycle.
Import Peer.

(** Effects that only notify listeners of the emitters: an emission on the
    peer or on the peers manager. *)
Definition is_notification (e : Effect) : Prop :=
  match e with
  | Emitted _ _ => True
  | ManagerEmitted _ _ => True
  | _ => False
  end.

(** The registry holds each peer once, and under every stable uuid at most
    one registered peer is connected. *)
Definition singleton_per_uuid (w : World) : Prop :=
  NoDup (registry w)
  /\ forall u : string, (length (connected_with_uuid u w) <= 1)%nat.

(** The timers that the [stateChange] listener arms on entering
    [connected]: ten requests, 10 ms apart. *)
Definition initial_timekeep_requests (h : nat) : list Effect :=
  [ SetTimeout h 0; SetTimeout h 10; SetTimeout h 20; SetTimeout h 30;
    SetTimeout h 40; SetTimeout h 50; SetTimeout h 60; SetTimeout h 70;
    SetTimeout h 80; SetTimeout h 90 ].

End PeerLifecycle.

(** * Properties *)

(** ** Bytes *)

Module BytesFacts.
Import Bytes.


Lemma getUint16_setUint16 (buf : list Z) (off : nat) (v : Z) :
  (S off < length buf)%nat -> 0 <= v < 2 ^ 16 ->
  getUint16 (setUint16 off v buf) off = Ok v.
Proof.
  intros Hlen Hv. unfold getUint16, setUint16, ToUint16.
  rewrite (Z.mod_small v (2 ^ 16)) by lia.
  rewrite list_lookup_insert_ne by lia.
  rewrite list_lookup_insert_eq by lia.
  rewrite list_lookup_insert_eq by (rewrite length_insert; lia).
  f_equal. change (2 ^ 8) with 256. change (2 ^ 16) with 65536.
  change (2 ^ 24) with 16777216. Z.div_mod_to_equations. lia.
Qed.

Lemma getUint32_setUint32 (buf : list Z) (off : nat) (v : Z) :
  (S (S (S off)) < length buf)%nat -> 0 <= v < 2 ^ 32 ->
  getUint32 (setUint32 off v buf) off = Ok v.
Proof.
  intros Hlen Hv. unfold getUint32, setUint32, ToUint32.
  rewrite (Z.mod_small v (2 ^ 32)) by lia.
  rewrite !list_lookup_insert_ne by lia.
  rewrite list_lookup_insert_eq by lia.
  rewrite list_lookup_insert_ne by lia.
  rewrite list_lookup_insert_ne by lia.
  rewrite list_lookup_insert_eq by (rewrite length_insert; lia).
  rewrite list_lookup_insert_ne by lia.
  rewrite list_lookup_insert_eq by (rewrite !length_insert; lia).
  rewrite list_lookup_insert_eq by (rewrite !length_insert; lia).
  f_equal. change (2 ^ 8) with 256. change (2 ^ 16) with 65536.
  change (2 ^ 24) with 16777216. Z.div_mod_to_equations. lia.
Qed.

Lemma getUint32_app (buf rest : list Z) (off : nat) :
  (S (S (S off)) < length buf)%nat ->
  getUint32 (buf ++ rest) off = getUint32 buf off.
Proof.
  intros Hlen. unfold getUint32. rewrite !lookup_app_l by lia. reflexivity.
Qed.

Lemma getUint32_setUint32_below (buf : list Z) (off off' : nat) (v : Z) :
  (off' + 4 <= off)%nat ->
  getUint32 (setUint32 off v buf) off' = getUint32 buf off'.
Proof.
  intros Hoff. unfold getUint32, setUint32.
  rewrite !list_lookup_insert_ne by lia. reflexivity.
Qed.

Lemma length_setUint32 (buf : list Z) (off : nat) (v : Z) :
  length (setUint32 off v buf) = length buf.
Proof. unfold setUint32. rewrite !length_insert. reflexivity. Qed.

Lemma Qtruncate_nonneg (q : Q) : (0 <= q)%Q -> Qtruncate q = Qfloor q.
Proof.
  destruct q as [n d]. unfold Qle, Qtruncate, Qfloor. simpl. intros H.
  apply Z.quot_div_nonneg; lia.
Qed.

End BytesFacts.

(** ** The AirPlay transport *)

Module AirplayFacts.
Import Bytes BytesFacts Binary64 Airplay.

(** The header bytes as [parseRtpHeader] reads them back. *)
Lemma parse_header_bytes (a b sq : Z) (rest : list Z) :
  0 <= sq < 2 ^ 16 ->
  parseRtpHeader
    (setUint16 2 sq (setUint8 1 b (setUint8 0 a (Uint8Array RTP_HEADER_LENGTH)))
     ++ rest)
  = Ok {| extension := Boolean (js_and (ToUint8 a) RTP_HEADER_A_EXTENSION);
          source := js_and (ToUint8 a) RTP_HEADER_A_SOURCE;
          payloadType :=
            match enum_reverse (js_and (ToUint8 b) RTP_HEADER_B_PAYLOAD_TYPE) with
            | Some m => PTName m
            | None => PTUndefined
            end;
          marker := Boolean (js_and (ToUint8 b) RTP_HEADER_B_MARKER);
          seqnum := sq |}.
Proof.
  intros Hsq. unfold parseRtpHeader.
  assert (Hlen : length (setUint16 2 sq (setUint8 1 b (setUint8 0 a
                   (Uint8Array RTP_HEADER_LENGTH)))) = 4%nat).
  { unfold setUint16, setUint8. rewrite !length_insert. reflexivity. }
  assert (H0 : getUint8 (setUint16 2 sq (setUint8 1 b (setUint8 0 a
                 (Uint8Array RTP_HEADER_LENGTH))) ++ rest) 0 = Ok (ToUint8 a)).
  { unfold getUint8. rewrite lookup_app_l by lia. reflexivity. }
  assert (H1 : getUint8 (setUint16 2 sq (setUint8 1 b (setUint8 0 a
                 (Uint8Array RTP_HEADER_LENGTH))) ++ rest) 1 = Ok (ToUint8 b)).
  { unfold getUint8. rewrite lookup_app_l by lia. reflexivity. }
  assert (H2 : getUint16 (setUint16 2 sq (setUint8 1 b (setUint8 0 a
                 (Uint8Array RTP_HEADER_LENGTH))) ++ rest) 2 = Ok sq).
  { pose proof (getUint16_setUint16
                  (setUint8 1 b (setUint8 0 a (Uint8Array RTP_HEADER_LENGTH)))
                  2 sq) as H.
    unfold getUint16 in *. rewrite !lookup_app_l by lia.
    apply H; [ | lia ]. unfold setUint8. rewrite !length_insert. simpl. lia. }
  rewrite H0. cbn [rbind]. rewrite H1. cbn [rbind]. rewrite H2. reflexivity.
Qed.

Lemma header_byte_a (e : bool) (s : Z) :
  0 <= s <= 15 ->
  let a := ToUint8 (js_or (if e then RTP_HEADER_A_EXTENSION else 0) s) in
  Boolean (js_and a RTP_HEADER_A_EXTENSION) = e
  /\ js_and a RTP_HEADER_A_SOURCE = s.
Proof.
  intros Hs.
  assert (Hcases : s = 0 \/ s = 1 \/ s = 2 \/ s = 3 \/ s = 4 \/ s = 5 \/ s = 6
                   \/ s = 7 \/ s = 8 \/ s = 9 \/ s = 10 \/ s = 11 \/ s = 12
                   \/ s = 13 \/ s = 14 \/ s = 15) by lia.
  destruct e; repeat (destruct Hcases as [-> | Hcases]); try subst s;
    vm_compute; split; reflexivity.
Qed.

Lemma header_byte_b (mk : bool) (m : RTP_PAYLOAD_TYPES) :
  let b := ToUint8 (js_or (if mk then RTP_HEADER_B_MARKER else 0)
                          (payloadType_bits (PTNumber (enum_value m)))) in
  Boolean (js_and b RTP_HEADER_B_MARKER) = mk
  /\ enum_reverse (js_and b RTP_HEADER_B_PAYLOAD_TYPE) = Some m.
Proof. destruct mk, m; vm_compute; split; reflexivity. Qed.

(** Parsing what [getRtpHeader] wrote, for a header whose payload type is
    the number of the enum member [m]. *)
Lemma parse_getRtpHeader (h : RTP_HEADER) (m : RTP_PAYLOAD_TYPES) (rest : list Z) :
  0 <= source h <= 15 ->
  0 <= seqnum h <= 65535 ->
  payloadType h = PTNumber (enum_value m) ->
  parseRtpHeader (getRtpHeader h ++ rest)
  = Ok {| extension := extension h; source := source h;
          payloadType := PTName m; marker := marker h; seqnum := seqnum h |}.
Proof.
  intros Hs Hq Hpt. unfold getRtpHeader.
  rewrite parse_header_bytes by lia.
  destruct (header_byte_a (extension h) (source h) Hs) as [-> ->].
  rewrite Hpt.
  destruct (header_byte_b (marker h) m) as [-> ->].
  reflexivity.
Qed.

(** C5, as amended: for every header with [source] in [0, 15], [seqnum] in
    [0, 65535] and a payload type that is the number of a member of the
    known set, parsing the four bytes written by [getRtpHeader] gives back
    the same [extension], [marker], [source] and [seqnum]; the
    [payloadType] of the parsed header is the name of the enum member (the
    reverse mapping of the enum), not the number that was encoded. *)
Theorem rtp_header_roundtrip (h : RTP_HEADER) (m : RTP_PAYLOAD_TYPES) :
  0 <= source h <= 15 ->
  0 <= seqnum h <= 65535 ->
  payloadType h = PTNumber (enum_value m) ->
  parseRtpHeader (getRtpHeader h)
  = Ok {| extension := extension h; source := source h;
          payloadType := PTName m; marker := marker h; seqnum := seqnum h |}.
Proof.
  intros Hs Hq Hpt.
  rewrite <- (app_nil_r (getRtpHeader h)).
  apply parse_getRtpHeader; assumption.
Qed.

Lemma rtp_header_roundtrip_witness :
  parseRtpHeader (getRtpHeader sync_header)
  = Ok {| extension := true; source := 0; payloadType := PTName sync;
          marker := true; seqnum := 7 |}.
Proof.
  apply (rtp_header_roundtrip sync_header sync); simpl; [lia | lia | reflexivity].
Defined.

(** C5 as stated fails on the [payloadType] field: the header
    [{extension: false, source: 0, payloadType: 0x52, marker: false, seqnum: 0}]
    is encoded as [00 52 00 00], and parsing these bytes gives the
    payload type ['timingRequest'], which is not the number [0x52]. *)
Lemma rtp_header_roundtrip_counterexample :
  let h := {| extension := false; source := 0; payloadType := PTNumber 0x52;
              marker := false; seqnum := 0 |} in
  getRtpHeader h = [0; 0x52; 0; 0]
  /\ parseRtpHeader (getRtpHeader h)
     = Ok {| extension := false; source := 0; payloadType := PTName timingRequest;
             marker := false; seqnum := 0 |}
  /\ parseRtpHeader (getRtpHeader h) <> Ok h.
Proof.
  split; [reflexivity | split; [reflexivity | ] ].
  intros H. vm_compute in H. discriminate H.
Qed.

(** *** NTP timestamps *)

Lemma length_getNtpTimestamp (time : float64) :
  length (getNtpTimestamp time) = RTP_NTP_TIMESTAMP_LENGTH.
Proof. unfold getNtpTimestamp. rewrite !length_setUint32. reflexivity. Qed.

Lemma length_getRtpHeader (h : RTP_HEADER) :
  length (getRtpHeader h) = RTP_HEADER_LENGTH.
Proof.
  unfold getRtpHeader, setUint16, setUint8. rewrite !length_insert. reflexivity.
Qed.

Lemma setUint32_wraps (off : nat) (v : Z) (buf : list Z) :
  setUint32 off v buf = setUint32 off (ToUint32 v) buf.
Proof.
  unfold setUint32, ToUint32. rewrite Z.mod_mod by lia. reflexivity.
Qed.

Lemma ToUint32_range (v : Z) : 0 <= ToUint32 v < 2 ^ 32.
Proof. unfold ToUint32. apply Z.mod_pos_bound. lia. Qed.

(** Reading back the eight bytes of [getNtpTimestamp]: the two words
    written, whatever the time (NaN and the infinities included) and
    whatever follows the eight bytes. *)
Lemma parse_getNtpTimestamp (time : float64) (rest : list Z) :
  parseNtpTimestamp (getNtpTimestamp time ++ rest)
  = Ok (ntp_decode (ntp_integer time) (ntp_fraction time)).
Proof.
  unfold parseNtpTimestamp, getNtpTimestamp.
  rewrite (setUint32_wraps 4), (setUint32_wraps 0).
  fold (ntp_integer time). fold (ntp_fraction time).
  pose proof (ToUint32_range
                (ToIntegerOrZero (Math_floor (div time thousand)))) as Hi.
  pose proof (ToUint32_range
                (ToIntegerOrZero
                   (mul (sub (div time thousand) (Math_floor (div time thousand)))
                      two32))) as Hf.
  fold (ntp_integer time) in Hi. fold (ntp_fraction time) in Hf.
  rewrite !getUint32_app
    by (rewrite !length_setUint32; unfold Uint8Array; rewrite length_replicate;
        unfold RTP_NTP_TIMESTAMP_LENGTH; lia).
  rewrite getUint32_setUint32_below by lia.
  rewrite !getUint32_setUint32
    by (rewrite ?length_setUint32; unfold Uint8Array; rewrite ?length_replicate;
        unfold RTP_NTP_TIMESTAMP_LENGTH; lia).
  reflexivity.
Qed.

Lemma parse_getNtpTimestamp_alone (time : float64) (rest : list Z) :
  parseNtpTimestamp (getNtpTimestamp time ++ rest)
  = parseNtpTimestamp (getNtpTimestamp time).
Proof.
  rewrite <- (app_nil_r (getNtpTimestamp time)) at 2.
  rewrite !parse_getNtpTimestamp. reflexivity.
Qed.

Lemma forallb_range (P : Z -> bool) (from : Z) (n : nat) :
  forallb P (range from n) = true ->
  forall k : Z, from <= k < from + Z.of_nat n -> P k = true.
Proof.
  intros H k Hk. rewrite forallb_forall in H. apply H.
  unfold range. apply in_map_iff. exists (Z.to_nat (k - from)).
  split; [ lia | ]. apply in_seq. lia.
Qed.

(** Evaluated on every whole number of seconds below 1024 s: the
    timestamp reads back as the time itself. *)
Lemma ntp_whole_seconds_exact (k : Z) :
  0 <= k < 1024 -> ntp_exact (of_Z (1000 * k)) = true.
Proof.
  apply (forallb_range (fun k => ntp_exact (of_Z (1000 * k))) 0 1024).
  vm_compute. reflexivity.
Qed.

(** Evaluated on the 1024 whole milliseconds from 1 700 000 000 000 (a
    date in 2023): the timestamp reads back less than a microsecond away
    from the time. *)
Lemma ntp_epoch_close (t : Z) :
  1700000000000 <= t < 1700000000000 + 1024 -> ntp_close t = true.
Proof.
  apply (forallb_range ntp_close 1700000000000 1024).
  vm_compute. reflexivity.
Qed.

(** The words that binary64 arithmetic gives.  5001 ms reads back below
    5001; 2 097 152 001 ms is written with the fraction word 4294968 and
    reads back above the time; times [2^32] seconds apart get the same
    integer word and different fraction words; a negative time is written
    as a large positive one. *)
Lemma ntp_binary64_examples :
  ntp_integer (of_Z 5001) = 5
  /\ ntp_fraction (of_Z 5001) = 4294967
  /\ ltb (ntp_decode 5 4294967) (of_Z 5001) = true
  /\ ntp_integer (of_Z 2097152001) = 2097152
  /\ ntp_fraction (of_Z 2097152001) = 4294968
  /\ ltb (of_Z 2097152001) (ntp_decode 2097152 4294968) = true
  /\ ntp_integer (of_Z 1700000000001) = 1700000000
  /\ ntp_fraction (of_Z 1700000000001) = 4294656
  /\ ntp_integer (of_Z 1) = 0
  /\ ntp_fraction (of_Z 1) = 4294967
  /\ ntp_integer (of_Z (1 + 2 ^ 32 * 1000)) = 0
  /\ ntp_fraction (of_Z (1 + 2 ^ 32 * 1000)) = 4296704
  /\ ntp_integer (of_Z (-1)) = 4294967295
  /\ ntp_fraction (of_Z (-1)) = 4290672328.
Proof. repeat split; vm_compute; reflexivity. Qed.

(** *** The timing response *)









(** The scenario S5 itself, on the code: the request's send time,
    1 700 000 000 000 ms, is multiplied by 1000 before it is encoded, so
    the first slot of the reply holds [1.7e12 mod 2^32 = 3 487 918 080]
    seconds; the other two slots read back as 5000. *)
Lemma timingResponse_S5 :
  exists (slots : TimingRequest) (reply : list Z),
    sendTime S5_parsed = of_Z 1700000000000
    /\ packetSender_timingResponse S5_parsed S5_header (of_Z 5000) S5_socket
       = Ok (socket_send reply S5_socket)
    /\ packetParsers_timingRequest reply = Ok slots
    /\ referenceTime slots = of_Z 3487918080000
    /\ receivedTime slots = of_Z 5000
    /\ sendTime slots = of_Z 5000.
Proof.
  eexists _, _.
  split; [ vm_compute; reflexivity | ].
  split; [ vm_compute; reflexivity | ].
  split; [ vm_compute; reflexivity | ].
  split; [ vm_compute; reflexivity | ].
  split; vm_compute; reflexivity.
Qed.

(** *** The receive path *)

(** A datagram shorter than the four header bytes makes [parseRtpHeader],
    and with it the ['message'] listener, throw a RangeError. *)
Lemma short_datagram_throws (msg : list Z) :
  (length msg < 4)%nat -> onSocketMessage msg = Throw RangeError.
Proof.
  intros Hlen. unfold onSocketMessage, parseRtpHeader, getUint8, getUint16.
  destruct msg as [ | a [ | b [ | b2 [ | b3 msg ] ] ] ]; try reflexivity.
  simpl in Hlen. lia.
Qed.

(** C8, as amended: a datagram of at least four bytes whose payload type
    is not in the known set does not make the receive path throw and runs
    no packet parser, but it is not dropped: the listener emits an event
    keyed by the (undefined) payload type and then the ['message'] event,
    each with an undefined parsed message and the parsed header. *)
Theorem unknown_payload_type_emitted (msg : list Z) (b : Z) :
  (4 <= length msg)%nat ->
  msg !! 1%nat = Some b ->
  enum_reverse (js_and b RTP_HEADER_B_PAYLOAD_TYPE) = None ->
  exists hdr : RTP_HEADER,
    parseRtpHeader msg = Ok hdr
    /\ payloadType hdr = PTUndefined
    /\ onSocketMessage msg
       = Ok [ {| event := EventPayloadType PTUndefined;
                 parsedMessage := ParsedUndefined; header := hdr |};
              {| event := EventMessage;
                 parsedMessage := ParsedUndefined; header := hdr |} ].
Proof.
  intros Hlen Hb Hunknown.
  destruct msg as [ | a [ | b' [ | b2 [ | b3 msg ] ] ] ];
    try (simpl in Hlen; lia).
  injection Hb as ->.
  eexists. unfold onSocketMessage, parseRtpHeader, getUint8, getUint16.
  cbn [lookup list_lookup rbind]. rewrite Hunknown.
  repeat split; reflexivity.
Qed.

Lemma unknown_payload_type_emitted_witness :
  exists hdr : RTP_HEADER,
    parseRtpHeader [0x80; 0x00; 0x12; 0x34] = Ok hdr
    /\ payloadType hdr = PTUndefined
    /\ onSocketMessage [0x80; 0x00; 0x12; 0x34]
       = Ok [ {| event := EventPayloadType PTUndefined;
                 parsedMessage := ParsedUndefined; header := hdr |};
              {| event := EventMessage;
                 parsedMessage := ParsedUndefined; header := hdr |} ].
Proof.
  apply (unknown_payload_type_emitted [0x80; 0x00; 0x12; 0x34] 0).
  - simpl. lia.
  - reflexivity.
  - reflexivity.
Defined.

(** C8 as stated fails.  The four bytes [80 00 00 00] carry payload type 0,
    which is not in the known set: the receive path emits two events to
    the higher layer, the second being ['message'].  The two bytes [80 d2]
    are shorter than a header: the receive path throws. *)
Lemma malformed_packet_counterexample :
  let hdr := {| extension := false; source := 0; payloadType := PTUndefined;
                marker := false; seqnum := 0 |} in
  enum_reverse (js_and 0x00 RTP_HEADER_B_PAYLOAD_TYPE) = None
  /\ onSocketMessage [0x80; 0x00; 0; 0]
     = Ok [ {| event := EventPayloadType PTUndefined;
               parsedMessage := ParsedUndefined; header := hdr |};
            {| event := EventMessage;
               parsedMessage := ParsedUndefined; header := hdr |} ]
  /\ onSocketMessage [0x80; 0xd2] = Throw RangeError.
Proof. repeat split; reflexivity. Qed.

(** *** Port acquisition *)

Lemma ports_from_S (P : Z) (n : nat) :
  ports_from P (S n) = P :: ports_from (P + 1) n.
Proof.
  unfold ports_from. cbn [seq map]. f_equal; [ lia | ].
  rewrite <- seq_shift, map_map. apply map_ext. intros i. lia.
Qed.

(** The loop from an arbitrary state: [k] busy ports, then a port whose
    bind ends otherwise. *)
Lemma bind_loop_busy_prefix (os : Z -> BindOutcome) (k : nat) :
  forall (st : BindState) (o : BindOutcome),
    (forall i : nat, (i < k)%nat ->
       os (bs_serverPort st + Z.of_nat i) = BindError EADDRINUSE) ->
    os (bs_serverPort st + Z.of_nat k) = o ->
    o <> BindError EADDRINUSE ->
    let final := {| bs_serverPort := bs_serverPort st + Z.of_nat k;
                    bs_attempts := bs_attempts st
                                   ++ ports_from (bs_serverPort st) (S k) |} in
    bind_loop os st final (outcome_result o)
    /\ forall fuel : nat, (k < fuel)%nat ->
         bind_loop_fuel fuel os st = Some (final, outcome_result o).
Proof.
  induction k as [ | k IH ]; intros st o Hbusy Hend Hne; cbv zeta.
  - rewrite Z.add_0_r in *. rewrite ports_from_S. cbn [ports_from seq map].
    split.
    + destruct o as [ | code ]; cbn [outcome_result].
      * apply bind_listening. exact Hend.
      * apply bind_rethrow; [ exact Hend | congruence ].
    + intros [ | fuel ] Hfuel; [ lia | ]. cbn [bind_loop_fuel]. rewrite Hend.
      destruct o as [ | code ]; [ reflexivity | ].
      destruct (decide (code = EADDRINUSE)) as [ -> | _ ];
        [ congruence | reflexivity ].
  - pose (st1 := {| bs_serverPort := bs_serverPort st + 1;
                    bs_attempts := bs_attempts st ++ [bs_serverPort st] |}).
    assert (Hfirst : os (bs_serverPort st) = BindError EADDRINUSE).
    { rewrite <- (Hbusy 0%nat) by lia. f_equal. lia. }
    destruct (IH st1 o) as [Hrel Hfun].
    + intros i Hi. cbn [st1 bs_serverPort].
      rewrite <- (Hbusy (S i)) by lia. f_equal. lia.
    + cbn [st1 bs_serverPort]. rewrite <- Hend. f_equal. lia.
    + exact Hne.
    + cbn [st1 bs_serverPort bs_attempts] in Hrel, Hfun.
      rewrite <- app_assoc in Hrel, Hfun. cbn [app] in Hrel, Hfun.
      rewrite <- ports_from_S in Hrel, Hfun.
      replace (bs_serverPort st + 1 + Z.of_nat k)
        with (bs_serverPort st + Z.of_nat (S k)) in Hrel, Hfun by lia.
      split.
      * eapply bind_retry; [ exact Hfirst | exact Hrel ].
      * intros [ | fuel ] Hfuel; [ lia | ]. cbn [bind_loop_fuel].
        rewrite Hfirst. rewrite decide_True by reflexivity.
        apply Hfun. lia.
Qed.

(** C7: [bindToPort(P)] binds the ports [P], [P+1], ... in order.  When
    the first [k] of them fail with EADDRINUSE and the bind of [P+k] ends
    otherwise, the call ends after exactly these [k+1] attempts with
    [serverPort = P+k]: it resolves if [P+k] is free, and it rejects with
    the error of [P+k] if that error is not EADDRINUSE. *)
Theorem bindToPort_first_free (os : Z -> BindOutcome) (P : Z) (k : nat)
    (o : BindOutcome) :
  (forall i : nat, (i < k)%nat -> os (P + Z.of_nat i) = BindError EADDRINUSE) ->
  os (P + Z.of_nat k) = o ->
  o <> BindError EADDRINUSE ->
  let final := {| bs_serverPort := P + Z.of_nat k;
                  bs_attempts := ports_from P (S k) |} in
  let result := match o with
                | Listening => Resolved
                | BindError code => Rejected code
                end in
  bind_loop os (bindToPort_start P) final result
  /\ forall fuel : nat, (k < fuel)%nat ->
       bindToPort fuel os P = Some (final, result).
Proof.
  intros Hbusy Hend Hne.
  exact (bind_loop_busy_prefix os k (bindToPort_start P) o Hbusy Hend Hne).
Qed.

(** Scenario S6: the ports 6001 and 6002 are occupied, 6003 is free. *)
Lemma bindToPort_first_free_witness :
  bind_loop S6_os (bindToPort_start 6001)
    {| bs_serverPort := 6003; bs_attempts := [6001; 6002; 6003] |} Resolved
  /\ forall fuel : nat, (2 < fuel)%nat ->
       bindToPort fuel S6_os 6001
       = Some ({| bs_serverPort := 6003; bs_attempts := [6001; 6002; 6003] |},
               Resolved).
Proof.
  apply (bindToPort_first_free S6_os 6001 2 Listening).
  - intros [ | [ | i ] ] Hi; [ reflexivity | reflexivity | lia ].
  - reflexivity.
  - discriminate.
Defined.

(** Scenario S6, second half: the bind of 6003 fails with EACCES. *)
Lemma bindToPort_other_error :
  bindToPort 3 (fun p => if decide (p = 6003) then BindError "EACCES" else S6_os p)
             6001
  = Some ({| bs_serverPort := 6003; bs_attempts := [6001; 6002; 6003] |},
          Rejected "EACCES").
Proof. reflexivity. Qed.

(** When every port is occupied the call never ends. *)
Lemma bindToPort_all_busy (os : Z -> BindOutcome) (fuel : nat) :
  (forall p : Z, os p = BindError EADDRINUSE) ->
  forall st : BindState, bind_loop_fuel fuel os st = None.
Proof.
  intros Hbusy. induction fuel as [ | fuel IH ]; intros st; [ reflexivity | ].
  cbn [bind_loop_fuel]. rewrite Hbusy, decide_True by reflexivity. apply IH.
Qed.

(** The semantics is deterministic: a call ends in at most one way. *)
Lemma bind_loop_deterministic (os : Z -> BindOutcome) (st st1 st2 : BindState)
    (r1 r2 : BindResult) :
  bind_loop os st st1 r1 -> bind_loop os st st2 r2 -> st1 = st2 /\ r1 = r2.
Proof.
  intros H1. revert st2 r2.
  induction H1 as [ st Hl | st code He Hne | st st' r He Hrest IH ];
    intros st2 r2 H2; inversion H2; subst; try congruence.
  - split; reflexivity.
  - split; [ reflexivity | congruence ].
  - apply IH. assumption.
Qed.

End AirplayFacts.

(** ** The peer link *)

Module PeerFacts.
Import BasicNumericStatsTracker Peer.

(** *** The heap *)

Lemma lookup_update_peer_eq (h : nat) (f : Peer -> Peer) (w : World) (p : Peer) :
  peers w !! h = Some p -> peers (update_peer h f w) !! h = Some (f p).
Proof.
  intros H. unfold update_peer, set_peers. cbn [peers]. rewrite H.
  apply lookup_insert_eq.
Qed.

Lemma lookup_update_peer_ne (h h' : nat) (f : Peer -> Peer) (w : World) :
  h <> h' -> peers (update_peer h f w) !! h' = peers w !! h'.
Proof.
  intros H. unfold update_peer, set_peers. cbn [peers].
  destruct (peers w !! h); [ apply lookup_insert_ne; exact H | reflexivity ].
Qed.

Lemma update_peer_missing (h : nat) (f : Peer -> Peer) (w : World) :
  peers w !! h = None -> peers (update_peer h f w) = peers w.
Proof. intros H. unfold update_peer, set_peers. cbn [peers]. rewrite H. reflexivity. Qed.

(** *** [setState] and [destroy]: the state of the peer *)

Lemma state_of_setState (h : nat) (s : PeerState) (w : World) (p : Peer) :
  peers w !! h = Some p ->
  state_of h (setState h s w)
  = Some (if decide (state p = deleted) then deleted else s).
Proof.
  intros H. unfold setState, state_of. rewrite H.
  destruct (decide (state p = s)) as [ Hs | Hs ].
  - rewrite H. cbn. rewrite Hs. destruct (decide (s = deleted)); congruence.
  - destruct (decide (state p = deleted)) as [ Hd | Hd ].
    + rewrite H. cbn. congruence.
    + cbn [set_immediates peers].
      rewrite (lookup_update_peer_eq h _ w p H). reflexivity.
Qed.

Lemma state_of_update_peer (h : nat) (f : Peer -> Peer) (w : World) :
  (forall p, state (f p) = state p) ->
  state_of h (update_peer h f w) = state_of h w.
Proof.
  intros Hf. unfold state_of.
  destruct (peers w !! h) as [ p | ] eqn:H.
  - rewrite (lookup_update_peer_eq h f w p H). cbn. f_equal. apply Hf.
  - rewrite update_peer_missing by exact H. rewrite H. reflexivity.
Qed.

Lemma state_of_destroy (h : nat) (a r : bool) (w : World) (p : Peer) :
  peers w !! h = Some p ->
  state_of h (destroy h a r w) = Some deleted.
Proof.
  intros H. unfold destroy. rewrite H.
  destruct (decide (state p = deleted)) as [ Hd | Hd ].
  - unfold state_of. rewrite H. cbn. congruence.
  - assert (Hs : state_of h (setState h deleted
                   (if a then sendControllerMessage h disconnect w else w))
                 = Some deleted).
    { rewrite (state_of_setState h deleted _ p) by (destruct a; exact H).
      destruct (decide (state p = deleted)); reflexivity. }
    set (w1 := setState h deleted _) in *.
    assert (Hfin : state_of h
              (effect (ManagerEmitted "peerChange" None)
                 (update_peer h removeAllListeners
                    (update_peer h
                       (fun p0 => set_timers false (missingPeerResponseTimeout p0) p0)
                       (unregisterPeer h (effect (Destroyed h) w1)))))
              = Some deleted).
    { change (state_of h (effect ?e ?x)) with (state_of h x).
      rewrite !state_of_update_peer by reflexivity. exact Hs. }
    destruct r; exact Hfin.
Qed.

(** One call, from a known state. *)
Lemma state_of_run_call (h : nat) (c : Call) (w : World) (s0 : PeerState) :
  state_of h w = Some s0 ->
  state_of h (run_call h c w)
  = Some (match c with
          | call_setState s => if decide (s0 = deleted) then deleted else s
          | call_destroy _ _ => deleted
          end).
Proof.
  unfold state_of at 1. destruct (peers w !! h) as [ p | ] eqn:H; [ | discriminate ].
  cbn. intros [= <-]. destruct c as [ s | a r ]; cbn [run_call].
  - apply state_of_setState. exact H.
  - apply (state_of_destroy h a r w p H).
Qed.

Lemma deleted_stays (h : nat) (calls : list Call) :
  forall w : World,
    state_of h w = Some deleted ->
    Forall (fun s => s = Some deleted) (states_after h calls w).
Proof.
  induction calls as [ | c calls IH ]; intros w Hd; cbn [states_after].
  - constructor.
  - assert (Hc : state_of h (run_call h c w) = Some deleted).
    { rewrite (state_of_run_call h c w deleted Hd). destruct c; reflexivity. }
    constructor; [ exact Hc | apply IH; exact Hc ].
Qed.

Lemma forward_calls (h : nat) (calls : list Call) :
  forall (w : World) (s0 : PeerState),
    Forall (fun c => c <> call_setState connecting) calls ->
    state_of h w = Some s0 ->
    forward_from s0 (states_after h calls w).
Proof.
  induction calls as [ | c calls IH ]; intros w s0 Hcalls Hs; cbn [states_after].
  - exact I.
  - inversion Hcalls as [ | ? ? Hc Hrest ]; subst.
    pose proof (state_of_run_call h c w s0 Hs) as Hstep.
    rewrite Hstep. cbn [forward_from]. split.
    + destruct c as [ [ | | ] | a r ]; destruct s0;
        try (exfalso; apply Hc; reflexivity); vm_compute; lia.
    + apply IH; assumption.
Qed.

(** C3, as amended: for every peer and every sequence of [setState] and
    [destroy] calls, once the state is [deleted] no later call changes it;
    and when no call of the sequence is [setState('connecting')], every
    transition goes forward (connecting, connected, deleted).  Nothing
    keeps [setState('connecting')] from moving a connected peer back. *)
Theorem deleted_terminal_forward_only (w : World) (h : nat) (calls : list Call) :
  (state_of h w = Some deleted ->
   Forall (fun s => s = Some deleted) (states_after h calls w))
  /\ (forall s0 : PeerState,
        Forall (fun c => c <> call_setState connecting) calls ->
        state_of h w = Some s0 ->
        forward_from s0 (states_after h calls w)).
Proof.
  split.
  - apply deleted_stays.
  - intros s0. apply forward_calls.
Qed.

(** C3 as stated fails: a fresh peer (connecting) on which
    [setState('connected')] and then [setState('connecting')] are called
    goes from connected back to connecting. *)
Lemma backward_transition_counterexample :
  let (h, w) := one_peer_world in
  state_of h w = Some connecting
  /\ states_after h [call_setState connected; call_setState connecting] w
     = [Some connected; Some connecting].
Proof. vm_compute. split; reflexivity. Qed.

(** *** The time-sync estimator *)

Lemma length_push (x : Q) (r : BasicNumericStatsTracker.t) :
  (length (buffer r) <= capacity r)%nat ->
  (length (buffer (push x r)) <= capacity r)%nat.
Proof.
  intros H. unfold push. cbn [buffer].
  destruct (capacity r <? length (buffer r ++ [x]))%nat eqn:E.
  - rewrite length_tl, length_app. cbn [length]. lia.
  - apply Nat.ltb_ge in E. exact E.
Qed.

Lemma ring_bounded_push (x : Q) (p : Peer) :
  ring_bounded p -> ring_bounded (set_timedeltas (push x) p).
Proof.
  intros [Hc Hl]. unfold ring_bounded. cbn [timedeltas set_timedeltas].
  split; [ exact Hc | ].
  rewrite <- Hc. change (capacity (push x (timedeltas p))) with (capacity (timedeltas p)).
  apply length_push. rewrite Hc. exact Hl.
Qed.

Lemma ring_bounded_flush (p : Peer) :
  ring_bounded p -> ring_bounded (set_timedeltas flush p).
Proof.
  intros [Hc _]. split; [ exact Hc | cbn; lia ].
Qed.

Lemma ring_bounded_new (d : PeerDescriptor) (w : World) :
  forall p, peers (new_Peer d w).2 !! (new_Peer d w).1 = Some p -> ring_bounded p.
Proof.
  intros p. unfold new_Peer. cbn [fst snd effect set_peers peers].
  rewrite lookup_insert_eq. intros [= <-]. split; [ reflexivity | cbn; lia ].
Qed.

Lemma Forall_remove_first {P : Event * Listener -> Prop} el ls :
  Forall P ls -> Forall P (remove_first el ls).
Proof.
  induction 1 as [ | x ls Hx Hls IH ]; cbn [remove_first]; [ constructor | ].
  destruct (decide (x = el)); [ exact Hls | constructor; assumption ].
Qed.

Lemma well_registered_removeListener (ev : Event) (l : Listener) (p : Peer) :
  well_registered p -> well_registered (removeListener ev l p).
Proof.
  unfold well_registered, removeListener. cbn [listeners set_listeners].
  intros H. apply Forall_rev, Forall_remove_first, Forall_rev, H.
Qed.

Lemma run_listener_sync (h : nat) (ev : Event) (l : Listener) (w : World) (p q : Peer) :
  sync_event ev ->
  registered_on ev l = true ->
  peers w !! h = Some q -> same_sync_state p q ->
  exists (q' : Peer) (calls : list Effect),
    peers (run_listener h ev l w) !! h = Some q'
    /\ same_sync_state p q'
    /\ trace (run_listener h ev l w) = trace w ++ calls
    /\ Forall is_call calls.
Proof.
  intros Hev Hreg Hq Hsame. unfold run_listener. rewrite Hq.
  assert (Hkeep : exists (q' : Peer) (calls : list Effect),
             peers w !! h = Some q' /\ same_sync_state p q'
             /\ trace w = trace w ++ calls /\ Forall is_call calls).
  { exists q, []. rewrite app_nil_r.
    split; [ exact Hq | split; [ exact Hsame | split; [ reflexivity | constructor ] ] ]. }
  destruct l; cbn [registered_on] in Hreg; try exact Hkeep.
  - apply bool_decide_eq_true in Hreg. destruct Hev; congruence.
  - apply bool_decide_eq_true in Hreg. destruct Hev; congruence.
  - destruct (isTimeSynchronized h w); [ exact Hkeep | ].
    exists (removeListener timesyncStateUpdated (waitForFirstTimeSync_handler promise) q), [].
    cbn [resolve peers trace]. rewrite app_nil_r.
    split; [ apply (lookup_update_peer_eq h _ w q Hq) | ].
    split; [ | split; [ reflexivity | constructor ] ].
    destruct Hsame as (H1 & H2 & H3 & H4).
    split; [ exact H1 | split; [ exact H2 | split; [ exact H3 | ] ] ].
    apply well_registered_removeListener, H4.
  - exists q, [Called id h ev]. cbn [effect peers trace].
    split; [ exact Hq | split; [ exact Hsame | split; [ reflexivity | ] ] ].
    constructor; [ exact I | constructor ].
Qed.

Lemma run_listeners_sync (h : nat) (ev : Event) (p : Peer) (ls : list Listener) :
  sync_event ev ->
  Forall (fun l => registered_on ev l = true) ls ->
  forall (w : World) (q : Peer),
    peers w !! h = Some q -> same_sync_state p q ->
    exists (q' : Peer) (calls : list Effect),
      peers (foldl (fun w l => run_listener h ev l w) w ls) !! h = Some q'
      /\ same_sync_state p q'
      /\ trace (foldl (fun w l => run_listener h ev l w) w ls) = trace w ++ calls
      /\ Forall is_call calls.
Proof.
  intros Hev Hls. induction Hls as [ | l ls Hl Hls IH ]; intros w q Hq Hsame.
  - exists q, []. cbn [foldl]. rewrite app_nil_r.
    split; [ exact Hq | split; [ exact Hsame | split; [ reflexivity | constructor ] ] ].
  - cbn [foldl].
    destruct (run_listener_sync h ev l w p q Hev Hl Hq Hsame)
      as (q1 & c1 & Hq1 & Hs1 & Ht1 & Hc1).
    destruct (IH _ q1 Hq1 Hs1) as (q2 & c2 & Hq2 & Hs2 & Ht2 & Hc2).
    exists q2, (c1 ++ c2). rewrite Ht2, Ht1, app_assoc.
    split; [ exact Hq2 | split; [ exact Hs2 | split; [ reflexivity | ] ] ].
    apply Forall_app; split; assumption.
Qed.

Lemma listeners_of_registered (ev : Event) (p : Peer) :
  well_registered p ->
  Forall (fun l => registered_on ev l = true) (listeners_of ev p).
Proof.
  unfold well_registered, listeners_of. intros H.
  apply Forall_forall. intros l Hl.
  apply list_elem_of_In, in_map_iff in Hl. destruct Hl as ([ev' l'] & <- & Hin).
  apply list_elem_of_In, list_elem_of_filter in Hin.
  destruct Hin as [Hev Hin]. cbn in Hev. subst ev'.
  rewrite Forall_forall in H. apply (H (ev, l')), Hin.
Qed.

(** Emitting a sync event changes neither the committed delta nor the
    ring, and adds to the trace the emission followed by calls of
    listeners of other modules. *)
Lemma emit_sync (h : nat) (ev : Event) (w : World) (p : Peer) :
  sync_event ev ->
  peers w !! h = Some p -> well_registered p ->
  exists (q : Peer) (calls : list Effect),
    peers (emit h ev w) !! h = Some q
    /\ same_sync_state p q
    /\ trace (emit h ev w) = trace w ++ Emitted h ev :: calls
    /\ Forall is_call calls.
Proof.
  intros Hev Hp Hwr. unfold emit. rewrite Hp.
  destruct (run_listeners_sync h ev p (listeners_of ev p) Hev
              (listeners_of_registered ev p Hwr)
              (effect (Emitted h ev) w) p Hp)
    as (q & calls & Hq & Hs & Ht & Hc).
  { split; [ reflexivity | split; [ reflexivity | split; [ reflexivity | exact Hwr ] ] ]. }
  exists q, calls. rewrite Ht. cbn [effect trace]. rewrite <- app_assoc.
  split; [ exact Hq | split; [ exact Hs | split; [ reflexivity | exact Hc ] ] ].
Qed.

Lemma not_call_emitted (h : nat) (ev : Event) (calls : list Effect) :
  Forall is_call calls -> ~ In (Emitted h ev) calls.
Proof.
  intros Hc Hin. rewrite Forall_forall in Hc.
  apply (Hc (Emitted h ev)). apply list_elem_of_In. exact Hin.
Qed.

(** One run of the timekeepResponse listener. *)
Lemma timekeepResponse_step
    (w : World) (h : nat) (p : Peer) (sentAt respondedAt : Q) :
  peers w !! h = Some p ->
  well_registered p ->
  ring_bounded p ->
  let ring := push (delta_sample (clock w (ticks w)) sentAt respondedAt)
                   (timedeltas p) in
  let reassigned :=
    (TIMESYNC_INIT_REQUEST_COUNT <= length (buffer ring))%nat
    /\ (MS_DIFF_TO_UPDATE_TIME_DELTA < Qabs (median ring - timeDelta p))%Q in
  exists (p' : Peer) (new : list Effect),
    peers (handle_timekeepResponse h sentAt respondedAt w) !! h = Some p'
    /\ trace (handle_timekeepResponse h sentAt respondedAt w) = trace w ++ new
    /\ timedeltas p' = ring
    /\ (length (buffer (timedeltas p')) <= TIME_DELTAS_TO_KEEP)%nat
    /\ ring_bounded p'
    /\ well_registered p'
    /\ (reassigned ->
        timeDelta p' = median (timedeltas p')
        /\ In (Emitted h timedeltaUpdated) new)
    /\ (~ reassigned ->
        timeDelta p' = timeDelta p
        /\ ~ In (Emitted h timedeltaUpdated) new).
Proof.
  intros Hp Hwr Hring ring reassigned.
  unfold handle_timekeepResponse. cbn [now].
  set (w1 := {| peers := peers w; registry := registry w; localPeer := localPeer w;
                immediates := immediates w; resolved := resolved w;
                nextPromise := nextPromise w; trace := trace w; clock := clock w;
                ticks := S (ticks w) |}).
  fold (delta_sample (clock w (ticks w)) sentAt respondedAt).
  set (delta := delta_sample (clock w (ticks w)) sentAt respondedAt) in *.
  set (p1 := set_timedeltas (push delta) p).
  assert (Hp1 : peers (update_peer h (set_timedeltas (push delta)) w1) !! h = Some p1).
  { apply lookup_update_peer_eq. exact Hp. }
  assert (Hb1 : ring_bounded p1) by (apply ring_bounded_push; exact Hring).
  rewrite Hp1.
  change (timedeltas p1) with ring. change (timeDelta p1) with (timeDelta p).
  unfold full.
  destruct (TIMESYNC_INIT_REQUEST_COUNT <=? length (buffer ring))%nat eqn:Hfull;
    [ destruct (Qlt_le_dec MS_DIFF_TO_UPDATE_TIME_DELTA
                           (Qabs (median ring - timeDelta p))) as [Hdiff | Hdiff] | ].
  - (* the committed value is reassigned *)
    set (p2 := set_timeDelta (median ring) p1).
    set (w2 := update_peer h (set_timeDelta (median ring)) _).
    assert (Hp2 : peers w2 !! h = Some p2)
      by (apply lookup_update_peer_eq; exact Hp1).
    destruct (emit_sync h timedeltaUpdated w2 p2 (or_introl eq_refl) Hp2 Hwr)
      as (q1 & c1 & Hq1 & (Hd1 & Hr1 & _ & Hw1) & Ht1 & Hc1).
    destruct (emit_sync h timesyncStateUpdated _ q1 (or_intror eq_refl) Hq1 Hw1)
      as (q2 & c2 & Hq2 & (Hd2 & Hr2 & _ & Hw2) & Ht2 & Hc2).
    exists q2, ((Emitted h timedeltaUpdated :: c1)
                ++ Emitted h timesyncStateUpdated :: c2).
    split; [ exact Hq2 | ].
    split; [ rewrite Ht2, Ht1, <- app_assoc; reflexivity | ].
    assert (Hr : timedeltas q2 = ring) by (rewrite Hr2, Hr1; reflexivity).
    split; [ exact Hr | ].
    split; [ rewrite Hr; apply Hb1 | ].
    split; [ unfold ring_bounded; rewrite Hr; exact Hb1 | ].
    split; [ exact Hw2 | ].
    split.
    + intros _. split; [ rewrite Hr, Hd2, Hd1; reflexivity | left; reflexivity ].
    + intros Hn. exfalso. apply Hn. split; [ apply Nat.leb_le, Hfull | exact Hdiff ].
  - (* enough samples, but the median is within 5 ms *)
    destruct (emit_sync h timesyncStateUpdated _ p1 (or_intror eq_refl) Hp1 Hwr)
      as (q2 & c2 & Hq2 & (Hd2 & Hr2 & _ & Hw2) & Ht2 & Hc2).
    exists q2, (Emitted h timesyncStateUpdated :: c2).
    split; [ exact Hq2 | ].
    split; [ exact Ht2 | ].
    split; [ exact Hr2 | ].
    split; [ rewrite Hr2; apply Hb1 | ].
    split; [ unfold ring_bounded; rewrite Hr2; exact Hb1 | ].
    split; [ exact Hw2 | ].
    split.
    + intros [_ Hlt]. exfalso. apply (Qlt_not_le _ _ Hlt), Hdiff.
    + intros _. split; [ exact Hd2 | ].
      intros [ Hin | Hin ]; [ discriminate Hin | ].
      apply (not_call_emitted h timedeltaUpdated c2 Hc2 Hin).
  - (* fewer than 10 samples *)
    destruct (emit_sync h timesyncStateUpdated _ p1 (or_intror eq_refl) Hp1 Hwr)
      as (q2 & c2 & Hq2 & (Hd2 & Hr2 & _ & Hw2) & Ht2 & Hc2).
    exists q2, (Emitted h timesyncStateUpdated :: c2).
    split; [ exact Hq2 | ].
    split; [ exact Ht2 | ].
    split; [ exact Hr2 | ].
    split; [ rewrite Hr2; apply Hb1 | ].
    split; [ unfold ring_bounded; rewrite Hr2; exact Hb1 | ].
    split; [ exact Hw2 | ].
    split.
    + intros [Hlen _]. apply Nat.leb_gt in Hfull. lia.
    + intros _. split; [ exact Hd2 | ].
      intros [ Hin | Hin ]; [ discriminate Hin | ].
      apply (not_call_emitted h timedeltaUpdated c2 Hc2 Hin).
Qed.

(** From then on: after any number of responses the ring of the peer still
    holds at most 100 samples. *)
Lemma timekeepResponses_ring_bounded (h : nat) (msgs : list (Q * Q)) :
  forall (w : World) (p : Peer),
    peers w !! h = Some p -> well_registered p -> ring_bounded p ->
    exists p' : Peer,
      peers (foldl (fun w m => handle_timekeepResponse h m.1 m.2 w) w msgs) !! h
      = Some p'
      /\ well_registered p' /\ ring_bounded p'.
Proof.
  induction msgs as [ | [sentAt respondedAt] msgs IH ]; intros w p Hp Hwr Hrb.
  - exists p. cbn [foldl]. split; [ exact Hp | split; assumption ].
  - cbn [foldl fst snd].
    destruct (timekeepResponse_step w h p sentAt respondedAt Hp Hwr Hrb)
      as (p1 & new & Hp1 & _ & _ & _ & Hrb1 & Hwr1 & _).
    apply (IH _ p1 Hp1 Hwr1 Hrb1).
Qed.


(** *** Projections of an updated world *)

Lemma World_ext (w1 w2 : World) :
  peers w1 = peers w2 -> registry w1 = registry w2 -> localPeer w1 = localPeer w2 ->
  immediates w1 = immediates w2 -> resolved w1 = resolved w2 ->
  nextPromise w1 = nextPromise w2 -> trace w1 = trace w2 -> clock w1 = clock w2 ->
  ticks w1 = ticks w2 -> w1 = w2.
Proof. destruct w1, w2. cbn. intros. subst. reflexivity. Qed.

Lemma peers_effect (e : Effect) (w : World) :
  peers (effect e w) = peers w.
Proof. reflexivity. Qed.

Lemma registry_effect (e : Effect) (w : World) :
  registry (effect e w) = registry w.
Proof. reflexivity. Qed.

Lemma localPeer_effect (e : Effect) (w : World) :
  localPeer (effect e w) = localPeer w.
Proof. reflexivity. Qed.

Lemma immediates_effect (e : Effect) (w : World) :
  immediates (effect e w) = immediates w.
Proof. reflexivity. Qed.

Lemma resolved_effect (e : Effect) (w : World) :
  resolved (effect e w) = resolved w.
Proof. reflexivity. Qed.

Lemma nextPromise_effect (e : Effect) (w : World) :
  nextPromise (effect e w) = nextPromise w.
Proof. reflexivity. Qed.

Lemma trace_effect (e : Effect) (w : World) :
  trace (effect e w) = trace w ++ [e].
Proof. reflexivity. Qed.

Lemma clock_effect (e : Effect) (w : World) :
  clock (effect e w) = clock w.
Proof. reflexivity. Qed.

Lemma ticks_effect (e : Effect) (w : World) :
  ticks (effect e w) = ticks w.
Proof. reflexivity. Qed.

Lemma peers_set_immediates (f : list Immediate -> list Immediate) (w : World) :
  peers (set_immediates f w) = peers w.
Proof. reflexivity. Qed.

Lemma registry_set_immediates (f : list Immediate -> list Immediate) (w : World) :
  registry (set_immediates f w) = registry w.
Proof. reflexivity. Qed.

Lemma localPeer_set_immediates (f : list Immediate -> list Immediate) (w : World) :
  localPeer (set_immediates f w) = localPeer w.
Proof. reflexivity. Qed.

Lemma immediates_set_immediates (f : list Immediate -> list Immediate) (w : World) :
  immediates (set_immediates f w) = f (immediates w).
Proof. reflexivity. Qed.

Lemma resolved_set_immediates (f : list Immediate -> list Immediate) (w : World) :
  resolved (set_immediates f w) = resolved w.
Proof. reflexivity. Qed.

Lemma nextPromise_set_immediates (f : list Immediate -> list Immediate) (w : World) :
  nextPromise (set_immediates f w) = nextPromise w.
Proof. reflexivity. Qed.

Lemma trace_set_immediates (f : list Immediate -> list Immediate) (w : World) :
  trace (set_immediates f w) = trace w.
Proof. reflexivity. Qed.

Lemma clock_set_immediates (f : list Immediate -> list Immediate) (w : World) :
  clock (set_immediates f w) = clock w.
Proof. reflexivity. Qed.

Lemma ticks_set_immediates (f : list Immediate -> list Immediate) (w : World) :
  ticks (set_immediates f w) = ticks w.
Proof. reflexivity. Qed.

Lemma peers_set_registry (f : list nat -> list nat) (w : World) :
  peers (set_registry f w) = peers w.
Proof. reflexivity. Qed.

Lemma registry_set_registry (f : list nat -> list nat) (w : World) :
  registry (set_registry f w) = f (registry w).
Proof. reflexivity. Qed.

Lemma localPeer_set_registry (f : list nat -> list nat) (w : World) :
  localPeer (set_registry f w) = localPeer w.
Proof. reflexivity. Qed.

Lemma immediates_set_registry (f : list nat -> list nat) (w : World) :
  immediates (set_registry f w) = immediates w.
Proof. reflexivity. Qed.

Lemma resolved_set_registry (f : list nat -> list nat) (w : World) :
  resolved (set_registry f w) = resolved w.
Proof. reflexivity. Qed.

Lemma nextPromise_set_registry (f : list nat -> list nat) (w : World) :
  nextPromise (set_registry f w) = nextPromise w.
Proof. reflexivity. Qed.

Lemma trace_set_registry (f : list nat -> list nat) (w : World) :
  trace (set_registry f w) = trace w.
Proof. reflexivity. Qed.

Lemma clock_set_registry (f : list nat -> list nat) (w : World) :
  clock (set_registry f w) = clock w.
Proof. reflexivity. Qed.

Lemma ticks_set_registry (f : list nat -> list nat) (w : World) :
  ticks (set_registry f w) = ticks w.
Proof. reflexivity. Qed.

Lemma peers_unregisterPeer (h : nat) (w : World) :
  peers (unregisterPeer h w) = peers w.
Proof. reflexivity. Qed.

Lemma registry_unregisterPeer (h : nat) (w : World) :
  registry (unregisterPeer h w) = filter (fun h' => h' <> h) (registry w).
Proof. reflexivity. Qed.

Lemma localPeer_unregisterPeer (h : nat) (w : World) :
  localPeer (unregisterPeer h w) = localPeer w.
Proof. reflexivity. Qed.

Lemma immediates_unregisterPeer (h : nat) (w : World) :
  immediates (unregisterPeer h w) = immediates w.
Proof. reflexivity. Qed.

Lemma resolved_unregisterPeer (h : nat) (w : World) :
  resolved (unregisterPeer h w) = resolved w.
Proof. reflexivity. Qed.

Lemma nextPromise_unregisterPeer (h : nat) (w : World) :
  nextPromise (unregisterPeer h w) = nextPromise w.
Proof. reflexivity. Qed.

Lemma trace_unregisterPeer (h : nat) (w : World) :
  trace (unregisterPeer h w) = trace w.
Proof. reflexivity. Qed.

Lemma clock_unregisterPeer (h : nat) (w : World) :
  clock (unregisterPeer h w) = clock w.
Proof. reflexivity. Qed.

Lemma ticks_unregisterPeer (h : nat) (w : World) :
  ticks (unregisterPeer h w) = ticks w.
Proof. reflexivity. Qed.

Lemma peers_resolve (promise : nat) (w : World) :
  peers (resolve promise w) = peers w.
Proof. reflexivity. Qed.

Lemma registry_resolve (promise : nat) (w : World) :
  registry (resolve promise w) = registry w.
Proof. reflexivity. Qed.

Lemma localPeer_resolve (promise : nat) (w : World) :
  localPeer (resolve promise w) = localPeer w.
Proof. reflexivity. Qed.

Lemma immediates_resolve (promise : nat) (w : World) :
  immediates (resolve promise w) = immediates w.
Proof. reflexivity. Qed.

Lemma resolved_resolve (promise : nat) (w : World) :
  resolved (resolve promise w) = resolved w ++ [promise].
Proof. reflexivity. Qed.

Lemma nextPromise_resolve (promise : nat) (w : World) :
  nextPromise (resolve promise w) = nextPromise w.
Proof. reflexivity. Qed.

Lemma trace_resolve (promise : nat) (w : World) :
  trace (resolve promise w) = trace w.
Proof. reflexivity. Qed.

Lemma clock_resolve (promise : nat) (w : World) :
  clock (resolve promise w) = clock w.
Proof. reflexivity. Qed.

Lemma ticks_resolve (promise : nat) (w : World) :
  ticks (resolve promise w) = ticks w.
Proof. reflexivity. Qed.

Lemma peers_update_peer (h : nat) (f : Peer -> Peer) (w : World) :
  peers (update_peer h f w) = match peers w !! h with
    | Some p => <[h := f p]> (peers w)
    | None => peers w
    end.
Proof. reflexivity. Qed.

Lemma registry_update_peer (h : nat) (f : Peer -> Peer) (w : World) :
  registry (update_peer h f w) = registry w.
Proof. reflexivity. Qed.

Lemma localPeer_update_peer (h : nat) (f : Peer -> Peer) (w : World) :
  localPeer (update_peer h f w) = localPeer w.
Proof. reflexivity. Qed.

Lemma immediates_update_peer (h : nat) (f : Peer -> Peer) (w : World) :
  immediates (update_peer h f w) = immediates w.
Proof. reflexivity. Qed.

Lemma resolved_update_peer (h : nat) (f : Peer -> Peer) (w : World) :
  resolved (update_peer h f w) = resolved w.
Proof. reflexivity. Qed.

Lemma nextPromise_update_peer (h : nat) (f : Peer -> Peer) (w : World) :
  nextPromise (update_peer h f w) = nextPromise w.
Proof. reflexivity. Qed.

Lemma trace_update_peer (h : nat) (f : Peer -> Peer) (w : World) :
  trace (update_peer h f w) = trace w.
Proof. reflexivity. Qed.

Lemma clock_update_peer (h : nat) (f : Peer -> Peer) (w : World) :
  clock (update_peer h f w) = clock w.
Proof. reflexivity. Qed.

Lemma ticks_update_peer (h : nat) (f : Peer -> Peer) (w : World) :
  ticks (update_peer h f w) = ticks w.
Proof. reflexivity. Qed.

Lemma peers_sendControllerMessage (h : nat) (m : ControllerMessage) (w : World) :
  peers (sendControllerMessage h m w) = peers w.
Proof. reflexivity. Qed.

Lemma registry_sendControllerMessage (h : nat) (m : ControllerMessage) (w : World) :
  registry (sendControllerMessage h m w) = registry w.
Proof. reflexivity. Qed.

Lemma localPeer_sendControllerMessage (h : nat) (m : ControllerMessage) (w : World) :
  localPeer (sendControllerMessage h m w) = localPeer w.
Proof. reflexivity. Qed.

Lemma immediates_sendControllerMessage (h : nat) (m : ControllerMessage) (w : World) :
  immediates (sendControllerMessage h m w) = immediates w.
Proof. reflexivity. Qed.

Lemma resolved_sendControllerMessage (h : nat) (m : ControllerMessage) (w : World) :
  resolved (sendControllerMessage h m w) = resolved w.
Proof. reflexivity. Qed.

Lemma nextPromise_sendControllerMessage (h : nat) (m : ControllerMessage) (w : World) :
  nextPromise (sendControllerMessage h m w) = nextPromise w.
Proof. reflexivity. Qed.

Lemma trace_sendControllerMessage (h : nat) (m : ControllerMessage) (w : World) :
  trace (sendControllerMessage h m w) = trace w ++ [Sent h m].
Proof. reflexivity. Qed.

Lemma clock_sendControllerMessage (h : nat) (m : ControllerMessage) (w : World) :
  clock (sendControllerMessage h m w) = clock w.
Proof. reflexivity. Qed.

Lemma ticks_sendControllerMessage (h : nat) (m : ControllerMessage) (w : World) :
  ticks (sendControllerMessage h m w) = ticks w.
Proof. reflexivity. Qed.

Create Rewrite HintDb world.

#[global] Hint Rewrite peers_effect registry_effect localPeer_effect : world.
#[global] Hint Rewrite immediates_effect resolved_effect nextPromise_effect : world.
#[global] Hint Rewrite trace_effect clock_effect ticks_effect : world.
#[global] Hint Rewrite peers_set_immediates registry_set_immediates localPeer_set_immediates : world.
#[global] Hint Rewrite immediates_set_immediates resolved_set_immediates nextPromise_set_immediates : world.
#[global] Hint Rewrite trace_set_immediates clock_set_immediates ticks_set_immediates : world.
#[global] Hint Rewrite peers_set_registry registry_set_registry localPeer_set_registry : world.
#[global] Hint Rewrite immediates_set_registry resolved_set_registry nextPromise_set_registry : world.
#[global] Hint Rewrite trace_set_registry clock_set_registry ticks_set_registry : world.
#[global] Hint Rewrite peers_unregisterPeer registry_unregisterPeer localPeer_unregisterPeer : world.
#[global] Hint Rewrite immediates_unregisterPeer resolved_unregisterPeer nextPromise_unregisterPeer : world.
#[global] Hint Rewrite trace_unregisterPeer clock_unregisterPeer ticks_unregisterPeer : world.
#[global] Hint Rewrite peers_resolve registry_resolve localPeer_resolve : world.
#[global] Hint Rewrite immediates_resolve resolved_resolve nextPromise_resolve : world.
#[global] Hint Rewrite trace_resolve clock_resolve ticks_resolve : world.
#[global] Hint Rewrite peers_update_peer registry_update_peer localPeer_update_peer : world.
#[global] Hint Rewrite immediates_update_peer resolved_update_peer nextPromise_update_peer : world.
#[global] Hint Rewrite trace_update_peer clock_update_peer ticks_update_peer : world.
#[global] Hint Rewrite peers_sendControllerMessage registry_sendControllerMessage localPeer_sendControllerMessage : world.
#[global] Hint Rewrite immediates_sendControllerMessage resolved_sendControllerMessage nextPromise_sendControllerMessage : world.
#[global] Hint Rewrite trace_sendControllerMessage clock_sendControllerMessage ticks_sendControllerMessage : world.

(** *** [destroy] on a live peer *)

Lemma setState_live (h : nat) (s : PeerState) (w : World) (p : Peer) :
  peers w !! h = Some p -> state p <> s -> state p <> deleted ->
  setState h s w
  = set_immediates (fun q => q ++ [ {| im_peer := h; im_state := s |} ])
      (update_peer h (set_state s) w).
Proof.
  intros Hp Hs Hd. unfold setState. rewrite Hp.
  rewrite decide_False by exact Hs. rewrite decide_False by exact Hd. reflexivity.
Qed.

Lemma destroy_live (h : nat) (a r : bool) (w : World) (p : Peer) :
  peers w !! h = Some p -> state p <> deleted ->
  destroy h a r w
  = {| peers := <[h := destroyed p]> (peers w);
       registry := filter (fun h' => h' <> h) (registry w);
       localPeer := localPeer w;
       immediates := immediates w ++ [ {| im_peer := h; im_state := deleted |} ];
       resolved := resolved w;
       nextPromise := nextPromise w;
       trace := trace w ++ (if a then [Sent h disconnect] else [])
                ++ [Destroyed h; ManagerEmitted "peerChange" None]
                ++ (if r then [RemoteDisconnect h] else []);
       clock := clock w;
       ticks := ticks w |}.
Proof.
  intros Hp Hlive. unfold destroy. rewrite Hp.
  rewrite decide_False by exact Hlive.
  set (wa := if a then sendControllerMessage h disconnect w else w).
  assert (Hpa : peers wa = peers w) by (unfold wa; destruct a; reflexivity).
  assert (Hta : trace wa = trace w ++ (if a then [Sent h disconnect] else [])).
  { unfold wa. destruct a; [ reflexivity | symmetry; apply app_nil_r ]. }
  rewrite (setState_live h deleted wa p) by (rewrite ?Hpa; assumption).
  set (w5 := effect (ManagerEmitted "peerChange" None) _).
  assert (Hpeers : peers w5 = <[h := destroyed p]> (peers w)).
  { unfold w5. autorewrite with world. rewrite Hpa, Hp.
    rewrite lookup_insert_eq, insert_insert_eq.
    rewrite lookup_insert_eq, insert_insert_eq. reflexivity. }
  assert (Htrace : trace w5 = trace w ++ (if a then [Sent h disconnect] else [])
                              ++ [Destroyed h; ManagerEmitted "peerChange" None]).
  { unfold w5. autorewrite with world. rewrite Hta, <- !app_assoc. reflexivity. }
  apply World_ext; destruct r; autorewrite with world; cbn [peers registry localPeer
    immediates resolved nextPromise trace clock ticks];
    try (unfold w5; autorewrite with world; unfold wa; destruct a; reflexivity);
    try exact Hpeers;
    rewrite Htrace, <- ?app_assoc, ?app_nil_r; reflexivity.
Qed.

Lemma destroy_other (h h' : nat) (a r : bool) (w : World) :
  h <> h' -> peers (destroy h a r w) !! h' = peers w !! h'.
Proof.
  intros Hne. destruct (peers w !! h) as [ p | ] eqn:Hp.
  - destruct (decide (state p = deleted)) as [ Hd | Hd ].
    + unfold destroy. rewrite Hp, decide_True by exact Hd. reflexivity.
    + rewrite (destroy_live h a r w p Hp Hd). cbn [peers].
      apply lookup_insert_ne. exact Hne.
  - unfold destroy. rewrite Hp. reflexivity.
Qed.

(** *** Duplicate-peer resolution *)

Lemma peerInfo_accept_live (h : nat) (d : PeerDescriptor) (ss : bool) (w : World)
    (p : Peer) :
  peers w !! h = Some p -> state p <> deleted ->
  exists p' : Peer,
    peers (peerInfo_accept h d ss w) !! h = Some p'
    /\ state p' = connected
    /\ uuid p' = d_uuid d
    /\ instanceUuid p' = d_instanceUuid d
    /\ (forall h', h <> h' -> peers (peerInfo_accept h d ss w) !! h' = peers w !! h')
    /\ registry (peerInfo_accept h d ss w) = registry w
    /\ exists rest, trace (peerInfo_accept h d ss w) = trace w ++ rest.
Proof.
  intros Hp Hlive. unfold peerInfo_accept.
  pose proof (lookup_update_peer_eq h (set_descriptor d) w p Hp) as Hp1.
  rewrite Hp1. change (state (set_descriptor d p)) with (state p).
  set (w1 := update_peer h (set_descriptor d) w) in *.
  assert (Hss : forall x : World,
             peers (if ss then effect SharedStateHandled x else x) = peers x
             /\ registry (if ss then effect SharedStateHandled x else x) = registry x
             /\ exists rest, trace (if ss then effect SharedStateHandled x else x)
                             = trace x ++ rest).
  { intros x. destruct ss.
    - split; [ reflexivity | split; [ reflexivity | ] ].
      exists [SharedStateHandled]. reflexivity.
    - split; [ reflexivity | split; [ reflexivity | ] ].
      exists []. symmetry. apply app_nil_r. }
  destruct (decide (state p <> connected)) as [ Hc | Hc ].
  - rewrite (setState_live h connected w1 _ Hp1) by assumption.
    set (w2 := set_immediates _ _).
    destruct (Hss w2) as (Hpe & Hre & rest & Htr). rewrite Hpe, Hre, Htr.
    exists (set_state connected (set_descriptor d p)).
    split.
    { unfold w2. autorewrite with world. fold w1. rewrite Hp1.
      apply lookup_insert_eq. }
    split; [ reflexivity | ]. split; [ reflexivity | ]. split; [ reflexivity | ].
    split.
    { intros h' Hne. unfold w2. rewrite peers_set_immediates.
      rewrite lookup_update_peer_ne by exact Hne.
      apply lookup_update_peer_ne. exact Hne. }
    split; [ reflexivity | ].
    exists rest. reflexivity.
  - assert (Hst : state p = connected)
      by (destruct (decide (state p = connected)); [ assumption | contradiction ]).
    destruct (Hss w1) as (Hpe & Hre & rest & Htr). rewrite Hpe, Hre, Htr.
    exists (set_descriptor d p).
    split; [ exact Hp1 | ].
    split; [ exact Hst | ]. split; [ reflexivity | ]. split; [ reflexivity | ].
    split.
    { intros h' Hne. apply lookup_update_peer_ne. exact Hne. }
    split; [ reflexivity | ].
    exists rest. reflexivity.
Qed.

Lemma filter_at_most_one (f : nat -> bool) (a : nat) (l : list nat) :
  NoDup l ->
  (forall x, In x l -> f x = true -> x = a) ->
  (length (List.filter f l) <= 1)%nat.
Proof.
  induction 1 as [ | x l Hx Hnd IH ]; intros Hall; cbn [List.filter].
  - cbn. lia.
  - destruct (f x) eqn:Hfx.
    + assert (Hxa : x = a) by (apply Hall; [ left; reflexivity | exact Hfx ]).
      assert (Hnone : List.filter f l = []).
      { destruct (List.filter f l) as [ | y ys ] eqn:E; [ reflexivity | exfalso ].
        assert (Hy : In y (List.filter f l)) by (rewrite E; left; reflexivity).
        apply filter_In in Hy. destruct Hy as [Hyl Hfy].
        assert (y = a) by (apply Hall; [ right; exact Hyl | exact Hfy ]).
        subst. apply Hx, list_elem_of_In, Hyl. }
      rewrite Hnone. cbn. lia.
    + apply IH. intros y Hy. apply Hall. right. exact Hy.
Qed.

Lemma is_connected_with_uuid_ext (u : string) (w w' : World) (h : nat) :
  peers w' !! h = peers w !! h ->
  is_connected_with_uuid u w' h = is_connected_with_uuid u w h.
Proof. intros H. unfold is_connected_with_uuid. rewrite H. reflexivity. Qed.

Lemma is_connected_with_uuid_true (u : string) (w : World) (h : nat) :
  is_connected_with_uuid u w h = true ->
  exists p, peers w !! h = Some p /\ uuid p = u /\ state p = connected.
Proof.
  unfold is_connected_with_uuid.
  destruct (peers w !! h) as [ p | ]; [ | discriminate ].
  intros H. apply andb_true_iff in H. destruct H as [H1 H2].
  apply bool_decide_eq_true in H1, H2. eauto.
Qed.

Lemma destroy_live_parts (h : nat) (a r : bool) (w : World) (p : Peer) :
  peers w !! h = Some p -> state p <> deleted ->
  peers (destroy h a r w) = <[h := destroyed p]> (peers w)
  /\ registry (destroy h a r w) = filter (fun h' => h' <> h) (registry w)
  /\ resolved (destroy h a r w) = resolved w
  /\ trace (destroy h a r w)
     = trace w ++ (if a then [Sent h disconnect] else [])
       ++ [Destroyed h; ManagerEmitted "peerChange" None]
       ++ (if r then [RemoteDisconnect h] else []).
Proof.
  intros Hp Hlive. rewrite (destroy_live h a r w p Hp Hlive).
  repeat split; reflexivity.
Qed.

(** C2: a live peer link [h] receives [peerInfo] while another peer [e]
    is the connected peer found under the same stable uuid, and no third
    registered peer is connected under that uuid.  If the instance uuid of
    [e] equals the incoming one, [h] ends deleted and [e] is untouched and
    still registered.  Otherwise [e] ends deleted after a [disconnect]
    message was sent on its link ([advertiseDestroy]), and [h] ends
    connected under the incoming uuid and instance uuid.  Either way at
    most one registered peer is connected under that uuid afterwards. *)
Theorem peerInfo_duplicate_resolution
    (w : World) (h e : nat) (p pe : Peer) (d : PeerDescriptor) (sharedState : bool) :
  peers w !! h = Some p ->
  state p <> deleted ->
  getConnectedPeerByUuid (d_uuid d) w = Some e ->
  e <> h ->
  peers w !! e = Some pe ->
  NoDup (registry w) ->
  (forall h', In h' (registry w) -> h' <> e -> h' <> h ->
     is_connected_with_uuid (d_uuid d) w h' = false) ->
  let w' := handle_peerInfo h d sharedState w in
  (instanceUuid pe = d_instanceUuid d ->
     state_of h w' = Some deleted
     /\ peers w' !! e = Some pe
     /\ In e (registry w'))
  /\ (instanceUuid pe <> d_instanceUuid d ->
     state_of e w' = Some deleted
     /\ (exists rest, trace w' = trace w ++ Sent e disconnect :: rest)
     /\ (exists p', peers w' !! h = Some p'
                    /\ state p' = connected
                    /\ uuid p' = d_uuid d
                    /\ instanceUuid p' = d_instanceUuid d))
  /\ (length (connected_with_uuid (d_uuid d) w') <= 1)%nat.
Proof.
  intros Hp Hlive Hfind Hne He Hnd Hothers. cbv zeta.
  pose proof (find_some _ _ Hfind) as [Hreg Hconn].
  destruct (is_connected_with_uuid_true _ _ _ Hconn) as (pe' & He' & Hu & Hst).
  rewrite He in He'. injection He' as <-.
  assert (Helive : state pe <> deleted) by (rewrite Hst; discriminate).
  unfold handle_peerInfo. rewrite Hfind, He.
  destruct (decide (instanceUuid pe = d_instanceUuid d)) as [ Hi | Hi ].
  - (* the same instance: the receiving link is the duplicate *)
    destruct (destroy_live_parts h false false w p Hp Hlive) as (_ & Hdr & _ & _).
    assert (Hreg' : In e (registry (destroy h false false w))).
    { rewrite Hdr. apply list_elem_of_In, list_elem_of_filter.
      split; [ exact Hne | apply list_elem_of_In, Hreg ]. }
    split; [ intros _ | split; [ intros Hc; contradiction | ] ].
    + split; [ apply (state_of_destroy h false false w p Hp) | ].
      split; [ | exact Hreg' ].
      rewrite destroy_other by congruence. exact He.
    + unfold connected_with_uuid. apply (filter_at_most_one _ e).
      * rewrite Hdr. apply NoDup_filter, Hnd.
      * intros x Hx Hcx. rewrite Hdr in Hx.
        apply list_elem_of_In, list_elem_of_filter in Hx. destruct Hx as [Hxh Hx].
        destruct (decide (x = e)) as [ -> | Hxe ]; [ reflexivity | exfalso ].
        rewrite (is_connected_with_uuid_ext _ w) in Hcx
          by (apply destroy_other; congruence).
        rewrite Hothers in Hcx; [ discriminate | | assumption | assumption ].
        apply list_elem_of_In, Hx.
  - (* a new instance: the existing peer is destroyed *)
    destruct (destroy_live_parts e true false w pe He Helive)
      as (Hdp & Hdr & _ & Hdt).
    set (w1 := destroy e true false w) in *.
    assert (Hp1 : peers w1 !! h = Some p).
    { rewrite Hdp. rewrite lookup_insert_ne by exact Hne. exact Hp. }
    destruct (peerInfo_accept_live h d sharedState w1 p Hp1 Hlive)
      as (p' & Hp' & Hs' & Hu' & Hi' & Hframe & Hregs & rest & Htrace).
    split; [ intros Hc; contradiction | split; [ intros _ | ] ].
    + split.
      { unfold state_of. rewrite Hframe by congruence.
        rewrite Hdp, lookup_insert_eq. reflexivity. }
      split.
      { exists ([Destroyed e; ManagerEmitted "peerChange" None] ++ rest).
        rewrite Htrace, Hdt. cbn [app]. rewrite <- !app_assoc. reflexivity. }
      exists p'. split; [ exact Hp' | split; [ exact Hs' | split; assumption ] ].
    + unfold connected_with_uuid. apply (filter_at_most_one _ h).
      * rewrite Hregs, Hdr. apply NoDup_filter, Hnd.
      * intros x Hx Hcx. rewrite Hregs, Hdr in Hx.
        apply list_elem_of_In, list_elem_of_filter in Hx. destruct Hx as [Hxe Hx].
        destruct (decide (x = h)) as [ -> | Hxh ]; [ reflexivity | exfalso ].
        assert (Hsame : peers (peerInfo_accept h d sharedState w1) !! x = peers w !! x).
        { rewrite Hframe by congruence. rewrite Hdp.
          apply lookup_insert_ne. congruence. }
        rewrite (is_connected_with_uuid_ext _ w _ _ Hsame) in Hcx.
        rewrite Hothers in Hcx; [ discriminate | | assumption | assumption ].
        apply list_elem_of_In, Hx.
Qed.

Lemma peerInfo_duplicate_resolution_witness :
  state_of 1 (handle_peerInfo 2 restarted_descriptor false two_links_world)
  = Some deleted
  /\ (exists rest,
        trace (handle_peerInfo 2 restarted_descriptor false two_links_world)
        = Sent 1%nat disconnect :: rest)
  /\ state_of 2 (handle_peerInfo 2 restarted_descriptor false two_links_world)
     = Some connected
  /\ (length (connected_with_uuid "peer-x"
                (handle_peerInfo 2 restarted_descriptor false two_links_world))
      <= 1)%nat.
Proof.
  assert (Hnd : NoDup (registry two_links_world)).
  { apply (bool_decide_unpack _). reflexivity. }
  assert (Hothers : forall h' : nat,
             In h' (registry two_links_world) -> h' <> 1%nat -> h' <> 2%nat ->
             is_connected_with_uuid (d_uuid restarted_descriptor) two_links_world h'
             = false).
  { intros h' [ <- | [ <- | [] ] ] H1 H2; contradiction. }
  pose proof (peerInfo_duplicate_resolution two_links_world 2 1
                newcomer connected_peer_x restarted_descriptor false
                eq_refl ltac:(discriminate) eq_refl ltac:(discriminate) eq_refl
                Hnd Hothers) as H.
  cbv zeta in H. destruct H as (_ & Hnew & Hone).
  destruct Hnew as (Hd & Hsent & (p' & Hp' & Hs' & _)); [ discriminate | ].
  split; [ exact Hd | ]. split; [ exact Hsent | ].
  split; [ unfold state_of; rewrite Hp'; cbn [fmap option_fmap option_map];
           rewrite Hs'; reflexivity | ].
  exact Hone.
Defined.


(** *** [waitForConnected] *)

(** On a deleted peer [setState] and [destroy] do nothing at all. *)
Lemma run_call_deleted (h : nat) (c : Call) (w : World) :
  state_of h w = Some deleted -> run_call h c w = w.
Proof.
  unfold state_of. destruct (peers w !! h) as [ p | ] eqn:Hp; [ | discriminate ].
  cbn. intros [= Hd]. destruct c as [ s | a r ]; cbn [run_call].
  - unfold setState. rewrite Hp.
    destruct (decide (state p = s)); [ reflexivity | ].
    rewrite decide_True by exact Hd. reflexivity.
  - unfold destroy. rewrite Hp. rewrite decide_True by exact Hd. reflexivity.
Qed.

(** A fresh peer on which [waitForConnected] is called while it is
    connecting, followed through its transitions; the event loop runs the
    pending [setImmediate] callbacks after each call. *)
Lemma waitForConnected_scenario (d : PeerDescriptor) (clock : nat -> Q) (a r : bool) :
  let h := (new_Peer d (empty_world clock)).1 in
  let w0 := (new_Peer d (empty_world clock)).2 in
  let promise := (waitForConnected h w0).1 in
  let w1 := (waitForConnected h w0).2 in
  let w2 := run_immediates (setState h connected w1) in
  state_of h w0 = Some connecting
  /\ resolved w1 = []
  /\ state_of h w2 = Some connected /\ resolved w2 = []
  /\ resolved (run_immediates (setState h deleted w2)) = [promise]
  /\ resolved (run_immediates (setState h deleted w1)) = [promise]
  /\ resolved (run_immediates (setState h connecting w2)) = [promise]
  /\ (let w3 := run_immediates (destroy h a r w2) in
      state_of h w3 = Some deleted /\ resolved w3 = [] /\ immediates w3 = []
      /\ (listeners <$> peers w3 !! h) = Some [])
  /\ (let w3 := run_immediates (destroy h a r w1) in
      state_of h w3 = Some deleted /\ resolved w3 = [] /\ immediates w3 = []
      /\ (listeners <$> peers w3 !! h) = Some []).
Proof.
  destruct a, r; vm_compute; repeat split; reflexivity.
Qed.

Lemma emit_no_listener (h : nat) (ev : Event) (w : World) (p : Peer) :
  peers w !! h = Some p -> listeners p = [] ->
  emit h ev w = effect (Emitted h ev) w.
Proof.
  intros Hp Hl. unfold emit, listeners_of. rewrite Hp, Hl. reflexivity.
Qed.

(** C10, as amended: [waitForConnected] returns a promise that is
    resolved at once when the peer is connected; otherwise it installs a
    [stateChange] listener, which leaves the promise pending at every
    [stateChange] event that finds the peer connected, and removes itself
    and resolves the promise at the first [stateChange] event that finds
    the peer in another state.  [destroy] leaves the peer without any
    listener and resolves nothing.  So for a fresh (connecting) peer the
    promise stays pending through the transition to connected; it is
    resolved by the [stateChange] event of a later [setState('deleted')];
    and when the transition to deleted is made by [destroy], whose deferred
    [stateChange] event finds no listener, it is never resolved, whatever
    is called afterwards. *)
Theorem waitForConnected_resolution (w : World) (h : nat) (p : Peer) :
  peers w !! h = Some p ->
  let promise := nextPromise w in
  let w1 := (waitForConnected h w).2 in
  (waitForConnected h w).1 = promise
  /\ (state p = connected ->
      resolved w1 = resolved w ++ [promise] /\ peers w1 = peers w)
  /\ (state p <> connected ->
      resolved w1 = resolved w
      /\ peers w1 !! h
         = Some (addListener stateChange (waitForConnected_listener promise) p))
  /\ (forall (w2 : World) (q : Peer),
        peers w2 !! h = Some q -> state q = connected ->
        run_listener h stateChange (waitForConnected_listener promise) w2 = w2)
  /\ (forall (w2 : World) (q : Peer),
        peers w2 !! h = Some q -> state q <> connected ->
        run_listener h stateChange (waitForConnected_listener promise) w2
        = resolve promise
            (update_peer h
               (removeListener stateChange (waitForConnected_listener promise)) w2))
  /\ (forall (w2 : World) (q : Peer) (a r : bool),
        peers w2 !! h = Some q -> state q <> deleted ->
        peers (destroy h a r w2) !! h = Some (destroyed q)
        /\ listeners (destroyed q) = []
        /\ resolved (destroy h a r w2) = resolved w2)
  /\ (forall (d : PeerDescriptor) (clock : nat -> Q) (a r : bool) (calls : list Call),
        let h0 := (new_Peer d (empty_world clock)).1 in
        let w0 := (new_Peer d (empty_world clock)).2 in
        let promise0 := (waitForConnected h0 w0).1 in
        let wa := (waitForConnected h0 w0).2 in
        let wb := run_immediates (setState h0 connected wa) in
        let wc := run_immediates (destroy h0 a r wb) in
        resolved wa = []
        /\ state_of h0 wb = Some connected /\ resolved wb = []
        /\ resolved (run_immediates (setState h0 deleted wb)) = [promise0]
        /\ state_of h0 wc = Some deleted
        /\ resolved (run_immediates (foldl (fun w c => run_call h0 c w) wc calls))
           = []).
Proof.
  intros Hp promise w1.
  assert (Hscenario :
    forall (d : PeerDescriptor) (clock : nat -> Q) (a r : bool) (calls : list Call),
      let h0 := (new_Peer d (empty_world clock)).1 in
      let w0 := (new_Peer d (empty_world clock)).2 in
      let promise0 := (waitForConnected h0 w0).1 in
      let wa := (waitForConnected h0 w0).2 in
      let wb := run_immediates (setState h0 connected wa) in
      let wc := run_immediates (destroy h0 a r wb) in
      resolved wa = []
      /\ state_of h0 wb = Some connected /\ resolved wb = []
      /\ resolved (run_immediates (setState h0 deleted wb)) = [promise0]
      /\ state_of h0 wc = Some deleted
      /\ resolved (run_immediates (foldl (fun w c => run_call h0 c w) wc calls))
         = []).
  { intros d clock a r calls h0 w0 promise0 wa wb wc.
    destruct (waitForConnected_scenario d clock a r)
      as (_ & Ha & Hb1 & Hb2 & Hdel & _ & _ & (Hc1 & Hc2 & Hc3 & _) & _).
    fold h0 w0 in Ha, Hb1, Hb2, Hdel, Hc1, Hc2, Hc3.
    fold promise0 wa in Ha, Hb1, Hb2, Hdel, Hc1, Hc2, Hc3.
    fold wb in Hb1, Hb2, Hdel, Hc1, Hc2, Hc3. fold wc in Hc1, Hc2, Hc3.
    split; [ exact Ha | ]. split; [ exact Hb1 | ]. split; [ exact Hb2 | ].
    split; [ exact Hdel | ]. split; [ exact Hc1 | ].
    assert (Hsame : foldl (fun w c => run_call h0 c w) wc calls = wc).
    { induction calls as [ | c calls IH ]; [ reflexivity | ].
      cbn [foldl]. rewrite (run_call_deleted h0 c wc Hc1). exact IH. }
    rewrite Hsame. unfold run_immediates. rewrite Hc3. exact Hc2. }
  unfold w1, promise, waitForConnected.
  cbn [new_promise]. cbn [peers]. rewrite Hp.
  split; [ destruct (decide (state p = connected)); reflexivity | ].
  split.
  { intros Hc. rewrite decide_True by exact Hc. split; reflexivity. }
  split.
  { intros Hc. rewrite decide_False by exact Hc. cbn [snd].
    split; [ reflexivity | ].
    apply (lookup_update_peer_eq h _ _ p). exact Hp. }
  split.
  { intros w2 q Hq Hc. unfold run_listener. rewrite Hq.
    rewrite decide_True by exact Hc. reflexivity. }
  split.
  { intros w2 q Hq Hc. unfold run_listener. rewrite Hq.
    rewrite decide_False by exact Hc. reflexivity. }
  split.
  { intros w2 q a r Hq Hlive.
    destruct (destroy_live_parts h a r w2 q Hq Hlive) as (Hdp & _ & Hdr & _).
    rewrite Hdp, Hdr, lookup_insert_eq. repeat split; reflexivity. }
  exact Hscenario.
Qed.

Lemma waitForConnected_resolution_witness :
  (waitForConnected one_peer_world.1 one_peer_world.2).1 = 0%nat
  /\ resolved (waitForConnected one_peer_world.1 one_peer_world.2).2 = []
  /\ (listeners <$> peers (waitForConnected one_peer_world.1 one_peer_world.2).2
                      !! one_peer_world.1)
     = Some (constructor_listeners ++ [(stateChange, waitForConnected_listener 0)]).
Proof.
  destruct (waitForConnected_resolution one_peer_world.2 one_peer_world.1
              fresh_peer eq_refl)
    as (Hid & _ & Hpending & _).
  destruct Hpending as [Hres Hl]; [ discriminate | ].
  split; [ exact Hid | ]. split; [ exact Hres | ].
  rewrite Hl. reflexivity.
Defined.

(** C10 as stated fails for the transition made by [destroy]: a fresh
    peer is connecting, [waitForConnected] is called, then [destroy]; when
    the pending [setImmediate] callback has run the peer is deleted, the
    promise is not resolved, and no listener or callback is left that
    could resolve it. *)
Lemma waitForConnected_counterexample :
  let h := one_peer_world.1 in
  let promise := (waitForConnected h one_peer_world.2).1 in
  let w1 := (waitForConnected h one_peer_world.2).2 in
  let w2 := run_immediates (destroy h false false w1) in
  state_of h w1 = Some connecting
  /\ state_of h w2 = Some deleted
  /\ promise = 0%nat
  /\ resolved w2 = []
  /\ immediates w2 = []
  /\ (listeners <$> peers w2 !! h) = Some [].
Proof. vm_compute. repeat split; reflexivity. Qed.

(** *** Dispatch of a received message *)

(** [_onReceivedMessage] hands the message to the listener registered for
    its type, here for a peer on which nothing listens to
    [controllerMessage:all] and one listener listens to the type. *)
Lemma onReceivedMessage_dispatch
    (h : nat) (m : ControllerMessage) (w : World) (p : Peer) (l : Listener) :
  peers w !! h = Some p ->
  listeners_of controllerMessage_all p = [] ->
  listeners_of (controllerMessage (message_type m)) p = [l] ->
  _onReceivedMessage h m w
  = effect (ManagerEmitted "controllerMessage" (Some h))
      (run_message_listener h m l
         (effect (Emitted h (controllerMessage (message_type m)))
            (effect (Emitted h controllerMessage_all)
               (update_peer h
                  (fun p => set_timers (timekeepInterval p) (negb (isLocal p)) p) w)))).
Proof.
  intros Hp Hall Hone. unfold _onReceivedMessage.
  set (w1 := update_peer h _ w).
  assert (Hp1 : peers w1 !! h
                = Some (set_timers (timekeepInterval p) (negb (isLocal p)) p)).
  { unfold w1.
    apply (lookup_update_peer_eq h
             (fun p => set_timers (timekeepInterval p) (negb (isLocal p)) p) w p Hp). }
  unfold emit_message at 2. rewrite Hp1.
  change (listeners_of controllerMessage_all
            (set_timers (timekeepInterval p) (negb (isLocal p)) p))
    with (listeners_of controllerMessage_all p).
  rewrite Hall. cbn [foldl].
  unfold emit_message. rewrite peers_effect, Hp1.
  change (listeners_of (controllerMessage (message_type m))
            (set_timers (timekeepInterval p) (negb (isLocal p)) p))
    with (listeners_of (controllerMessage (message_type m)) p).
  rewrite Hone. reflexivity.
Qed.

(** On a peer that carries the listeners of the constructor, a received
    [timekeepResponse] runs the time-sync listener and a received
    [peerInfo] runs the duplicate resolution. *)
Lemma constructor_dispatch (p : Peer) :
  listeners p = constructor_listeners ->
  listeners_of controllerMessage_all p = []
  /\ listeners_of (controllerMessage type_timekeepResponse) p = [on_timekeepResponse]
  /\ listeners_of (controllerMessage type_peerInfo) p = [on_peerInfo].
Proof. intros H. unfold listeners_of. rewrite H. repeat split; reflexivity. Qed.

End PeerFacts.

(** ** The local device sink *)

Module SinkFacts.
Import Sink.

Lemma setDelayFromLocalNow_spec (this : LocalDeviceSink) :
  delayFromLocalNowBuffer (setDelayFromLocalNow this)
  = spec_delay_from_local_now this.
Proof.
  unfold setDelayFromLocalNow, spec_delay_from_local_now.
  destruct (Peer.getCurrentTime (peer (pipedSource this)) true (world this))
    as [currentTime w].
  reflexivity.
Qed.

Lemma setDelayFromLocalNow_frame (this : LocalDeviceSink) :
  pipedSource (setDelayFromLocalNow this) = pipedSource this
  /\ registrations (setDelayFromLocalNow this) = registrations this.
Proof.
  unfold setDelayFromLocalNow.
  destruct (Peer.getCurrentTime (peer (pipedSource this)) true (world this))
    as [currentTime w].
  split; reflexivity.
Qed.

(** The value in terms of the two readings of the clock. *)
Lemma spec_delay_closed_form (this : LocalDeviceSink) :
  let w := world this in
  let source := pipedSource this in
  let t1 := Peer.clock w (Peer.ticks w) in
  let t2 := Peer.clock w (S (Peer.ticks w)) in
  spec_delay_from_local_now this
  = match Peer.peers w !! peer source with
    | Some p =>
        if decide (peer source = Peer.localPeer w)
        then (t1 - startedAt source - latency source - t2)%Q
        else (t1 + BasicNumericStatsTracker.median (Peer.timedeltas p)
              - startedAt source - latency source - t2)%Q
    | None => (t1 - startedAt source - latency source - t2)%Q
    end.
Proof.
  cbv zeta. unfold spec_delay_from_local_now, Peer.getCurrentTime.
  change (Peer.now (world this))
    with (Peer.clock (world this) (Peer.ticks (world this)),
          (Peer.now (world this)).2).
  cbv iota beta.
  change (Peer.localPeer (Peer.now (world this)).2) with (Peer.localPeer (world this)).
  change (Peer.peers (Peer.now (world this)).2) with (Peer.peers (world this)).
  destruct (decide (peer (pipedSource this) = Peer.localPeer (world this)));
    destruct (Peer.peers (world this) !! peer (pipedSource this)); reflexivity.
Qed.

(** C6: immediately after every run of [setDelayFromLocalNow] the shared
    scalar holds [peer.getCurrentTime(true) - source.startedAt -
    source.latency - now()], the clock being read once by [getCurrentTime]
    and once more by [now()].  [_startSink] runs it once and registers it
    on the [timedeltaUpdated] event of the piped source's peer, on the
    [update] event of the source and on a 1000 ms interval, so on a sink
    that had nothing registered each of these three triggers runs exactly
    this resync. *)
Theorem resync_sets_delay (this : LocalDeviceSink) (t : Trigger) :
  registrations this = [] ->
  In t [peer_timedeltaUpdated; source_update; interval 1000] ->
  delayFromLocalNowBuffer (setDelayFromLocalNow this) = spec_delay_from_local_now this
  /\ delayFromLocalNowBuffer (_startSink this) = spec_delay_from_local_now this
  /\ fire t (_startSink this) = setDelayFromLocalNow (_startSink this)
  /\ delayFromLocalNowBuffer (fire t (_startSink this))
     = spec_delay_from_local_now (_startSink this)
  /\ (forall sink : LocalDeviceSink,
        let w := world sink in
        let source := pipedSource sink in
        let t1 := Peer.clock w (Peer.ticks w) in
        let t2 := Peer.clock w (S (Peer.ticks w)) in
        delayFromLocalNowBuffer (setDelayFromLocalNow sink)
        = match Peer.peers w !! peer source with
          | Some p =>
              if decide (peer source = Peer.localPeer w)
              then (t1 - startedAt source - latency source - t2)%Q
              else (t1 + BasicNumericStatsTracker.median (Peer.timedeltas p)
                    - startedAt source - latency source - t2)%Q
          | None => (t1 - startedAt source - latency source - t2)%Q
          end).
Proof.
  intros Hnone Ht.
  assert (Hfire : fire t (_startSink this) = setDelayFromLocalNow (_startSink this)).
  { unfold fire.
    assert (Hregs : registrations (_startSink this)
                    = [ (peer_timedeltaUpdated, handleTimedeltaUpdate);
                        (source_update, handleTimedeltaUpdate);
                        (interval 1000, setDelayFromLocalNow_callback) ]).
    { unfold _startSink, register. cbn [registrations].
      rewrite (proj2 (setDelayFromLocalNow_frame this)), Hnone. reflexivity. }
    rewrite Hregs.
    destruct Ht as [ <- | [ <- | [ <- | [] ] ] ]; reflexivity. }
  split; [ apply setDelayFromLocalNow_spec | ].
  split.
  { unfold _startSink, register. cbn [delayFromLocalNowBuffer].
    apply setDelayFromLocalNow_spec. }
  split; [ exact Hfire | ].
  split; [ rewrite Hfire; apply setDelayFromLocalNow_spec | ].
  intros sink. cbv zeta. rewrite setDelayFromLocalNow_spec.
  apply spec_delay_closed_form.
Qed.

(** A ring of nine samples of 137 ms, a source started at 400 with latency
    250, and a clock that advances by 40 ms at each reading from 1000:
    [_startSink] reads 1000 and 1040, and the resync on [timedeltaUpdated]
    reads 1080 and 1120 and stores 1080 + 137 - 400 - 250 - 1120. *)
Lemma resync_sets_delay_witness :
  fire peer_timedeltaUpdated (_startSink sample_sink)
  = setDelayFromLocalNow (_startSink sample_sink)
  /\ (delayFromLocalNowBuffer (fire peer_timedeltaUpdated (_startSink sample_sink))
      == 1080 + 137 - 400 - 250 - 1120)%Q.
Proof.
  destruct (resync_sets_delay sample_sink peer_timedeltaUpdated eq_refl
              (or_introl eq_refl)) as (_ & _ & Hfire & Hval & _).
  split; [ exact Hfire | ].
  rewrite Hval. reflexivity.
Defined.

End SinkFacts.

(** ** The rendezvous relay *)

Module RendezvousFacts.
Import Rendezvous.

(** C9, as amended: the handler answers 204 or 400.  When it answers 204
    the body is a string of fewer than 1024 characters, the message has
    been pushed at the head of the list [conversation:<id>] and the expiry
    of that list has been set.  When it answers 400 the store is unchanged.
    A body that is not a string, or a string of 1024 characters or more,
    is always answered 400.  (Which conversation ids are accepted is not
    stated.) *)
Theorem post_messages_outcome
    (StringToNumber : string -> StringNumber) (conversationExpireTime : Z)
    (body : RequestBody) (conversationId : string) (r : Redis) :
  let out := post_messages StringToNumber conversationExpireTime body conversationId r in
  let key := ("conversation:" +:+ conversationId)%string in
  ((status out.1 = 204
    /\ exists m : string,
         body = body_string m
         /\ (String.length m < 1024)%nat
         /\ out.2 = expire key conversationExpireTime (lpush key m r)
         /\ lists out.2 !! key = Some (m :: default [] (lists r !! key))
         /\ expiry out.2 !! key = Some conversationExpireTime)
   \/ (status out.1 = 400 /\ out.2 = r))
  /\ ((forall m : string, body = body_string m -> (1024 <= String.length m)%nat) ->
      status out.1 = 400 /\ out.2 = r).
Proof.
  cbv zeta. unfold post_messages.
  destruct body as [ m | | ].
  - destruct (String.length m <? 1024)%nat eqn:Hlen; cbn [negb].
    + apply Nat.ltb_lt in Hlen.
      destruct (string_lt_number StringToNumber conversationId 64); cbn [negb fst snd].
      * split.
        { left. split; [ reflexivity | ]. exists m.
          split; [ reflexivity | ]. split; [ exact Hlen | ].
          split; [ reflexivity | ].
          unfold expire, lpush. cbn [lists expiry].
          rewrite !lookup_insert_eq. split; reflexivity. }
        intros Hlong. specialize (Hlong m eq_refl). lia.
      * split; [ right; split; reflexivity | ].
        intros _. split; reflexivity.
    + cbn [fst snd]. split; [ right; split; reflexivity | ].
      intros _. split; reflexivity.
  - cbn [fst snd]. split; [ right; split; reflexivity | ].
    intros _. split; reflexivity.
  - cbn [fst snd]. split; [ right; split; reflexivity | ].
    intros _. split; reflexivity.
Qed.

(** C9 as stated fails: a body of exactly 1024 characters sent to the
    conversation ["1"] is within the stated limits, and the handler answers
    400 and stores nothing. *)
Lemma post_messages_counterexample :
  String.length (letters 1024) = 1024%nat
  /\ String.length "1" = 1%nat
  /\ post_messages decimal_StringToNumber 3600 (body_string (letters 1024)) "1"
       empty_redis
     = ({| status := 400; message := "body should be less than 1024 chars" |},
        empty_redis).
Proof. split; [ | split ]; vm_compute; reflexivity. Qed.

(** The check of the conversation id compares the id, read as a number,
    with 64: a three-letter id is refused, and an id of seventy digits
    whose value is 7 is accepted. *)
Lemma post_messages_id_examples :
  post_messages decimal_StringToNumber 3600 (body_string "offer") "abc" empty_redis
  = ({| status := 400; message := "conversion_id should be less than 64 chars" |},
     empty_redis)
  /\ String.length
       "0000000000000000000000000000000000000000000000000000000000000000000007"
     = 70%nat
  /\ status
       (post_messages decimal_StringToNumber 3600 (body_string "offer")
          "0000000000000000000000000000000000000000000000000000000000000000000007"
          empty_redis).1
     = 204
  /\ status
       (post_messages decimal_StringToNumber 3600 (body_string "offer") "12"
          empty_redis).1
     = 204.
Proof. repeat split; vm_compute; reflexivity. Qed.

End RendezvousFacts.

(** * Further properties of the code *)

(** ** The AirPlay transport: packets sent and the receive path *)

Module AirplayMoreFacts.
Import Bytes BytesFacts Binary64 Airplay AirplayFacts AirplaySenders.

(** *** Writing into an array *)

Lemma set_app (src pre mid post : list Z) (off : nat) :
  length pre = off -> length mid = length src ->
  set src off (pre ++ mid ++ post) = Ok (pre ++ src ++ post).
Proof.
  intros Hpre Hmid. unfold set.
  rewrite decide_True by (rewrite !length_app; lia).
  subst off. f_equal. rewrite take_app_length. f_equal. f_equal.
  rewrite <- Hmid. rewrite app_assoc, <- length_app.
  apply drop_app_length.
Qed.

Lemma setUint32_app (v : Z) (pre mid post : list Z) (off : nat) :
  length pre = off -> length mid = 4%nat ->
  setUint32 off v (pre ++ mid ++ post) = pre ++ be32 v ++ post.
Proof.
  intros <- Hmid.
  destruct mid as [ | m0 [ | m1 [ | m2 [ | m3 [ | ] ] ] ] ]; try discriminate Hmid.
  unfold setUint32, be32. induction pre as [ | x pre IH ].
  - reflexivity.
  - cbn [length app] in *. rewrite <- IH. reflexivity.
Qed.

Lemma setUint16_app (v : Z) (pre mid post : list Z) (off : nat) :
  length pre = off -> length mid = 2%nat ->
  setUint16 off v (pre ++ mid ++ post) = pre ++ be16 v ++ post.
Proof.
  intros <- Hmid.
  destruct mid as [ | m0 [ | m1 [ | ] ] ]; try discriminate Hmid.
  unfold setUint16, be16. induction pre as [ | x pre IH ].
  - reflexivity.
  - cbn [length app] in *. rewrite <- IH. reflexivity.
Qed.

Lemma getUint32_be32 (v : Z) (pre post : list Z) (off : nat) :
  length pre = off ->
  getUint32 (pre ++ be32 v ++ post) off = Ok (ToUint32 v).
Proof.
  intros <-. induction pre as [ | x pre IH ]; [ | exact IH ].
  unfold getUint32, be32. cbn [app length lookup list_lookup].
  pose proof (Z.mod_pos_bound v (2 ^ 32) ltac:(lia)) as Hu.
  unfold ToUint32 in *. generalize dependent (v mod 2 ^ 32). intros u Hu.
  f_equal. change (2 ^ 8) with 256. change (2 ^ 16) with 65536.
  change (2 ^ 24) with 16777216. change (2 ^ 32) with 4294967296 in Hu.
  Z.div_mod_to_equations. lia.
Qed.

Lemma parseRtpHeader_cons (a b s1 s2 : Z) (rest : list Z) :
  parseRtpHeader (a :: b :: s1 :: s2 :: rest)
  = Ok {| extension := Boolean (js_and a RTP_HEADER_A_EXTENSION);
          source := js_and a RTP_HEADER_A_SOURCE;
          payloadType :=
            match enum_reverse (js_and b RTP_HEADER_B_PAYLOAD_TYPE) with
            | Some m => PTName m
            | None => PTUndefined
            end;
          marker := Boolean (js_and b RTP_HEADER_B_MARKER);
          seqnum := s1 * 256 + s2 |}.
Proof. reflexivity. Qed.

Lemma be16_value (v : Z) :
  ToUint16 v / 256 * 256 + ToUint16 v mod 256 = ToUint16 v.
Proof. Z.div_mod_to_equations. lia. Qed.

Lemma length_be32 (v : Z) : length (be32 v) = 4%nat.
Proof. reflexivity. Qed.

(** *** NTP timestamps *)

Lemma ntp_reads_back_above :
  exists decoded : float64,
    parseNtpTimestamp (getNtpTimestamp (of_Z 2097152001)) = Ok decoded
    /\ ltb (of_Z 2097152001) decoded = true.
Proof.
  destruct ntp_binary64_examples as (_ & _ & _ & Hi & Hf & Habove & _).
  exists (ntp_decode 2097152 4294968).
  split; [ | exact Habove ].
  pose proof (parse_getNtpTimestamp (of_Z 2097152001) []) as H.
  rewrite app_nil_r in H. rewrite H. congruence.
Qed.

Lemma ntp_exact_sound (time : float64) :
  ntp_exact time = true ->
  parseNtpTimestamp (getNtpTimestamp time) = Ok time.
Proof.
  unfold ntp_exact.
  generalize (parseNtpTimestamp (getNtpTimestamp time)).
  intros [ decoded | e ] H; [ | discriminate H ].
  apply bool_decide_eq_true in H. rewrite H. reflexivity.
Qed.

Lemma ntp_close_sound (t : Z) :
  ntp_close t = true ->
  exists decoded : float64,
    parseNtpTimestamp (getNtpTimestamp (of_Z t)) = Ok decoded
    /\ (Qabs (to_Q decoded - inject_Z t) < 1 # 1000)%Q.
Proof.
  unfold ntp_close.
  generalize (parseNtpTimestamp (getNtpTimestamp (of_Z t))).
  intros [ decoded | e ] H; [ | discriminate H ].
  exists decoded. split; [ reflexivity | ].
  destruct (Qlt_le_dec (Qabs (to_Q decoded - inject_Z t)) (1 # 1000))
    as [ Hlt | ]; [ exact Hlt | discriminate H ].
Qed.

(** X1.  The NTP timestamp round trip, in binary64 arithmetic.  Reading
    with [parseNtpTimestamp] the eight bytes that [getNtpTimestamp] writes
    never throws, whatever the time (NaN and the infinities included) and
    whatever bytes follow them in the buffer, and what follows them does
    not change the result.  For every whole number of seconds below
    1024 s the time read back is the time written; for each of the 1024
    whole milliseconds from 1 700 000 000 000 it is less than a
    microsecond away from the time written (the code evaluated on each of
    these times).  The time read back can be above the time written, as
    for 2 097 152 001 ms. *)
Theorem ntp_timestamp_roundtrip :
  (forall (time : float64) (rest : list Z),
     exists decoded : float64,
       parseNtpTimestamp (getNtpTimestamp time ++ rest) = Ok decoded
       /\ parseNtpTimestamp (getNtpTimestamp time) = Ok decoded)
  /\ (forall k : Z,
        0 <= k < 1024 ->
        parseNtpTimestamp (getNtpTimestamp (of_Z (1000 * k)))
        = Ok (of_Z (1000 * k)))
  /\ (forall t : Z,
        1700000000000 <= t < 1700000000000 + 1024 ->
        exists decoded : float64,
          parseNtpTimestamp (getNtpTimestamp (of_Z t)) = Ok decoded
          /\ (Qabs (to_Q decoded - inject_Z t) < 1 # 1000)%Q)
  /\ (exists decoded : float64,
        parseNtpTimestamp (getNtpTimestamp (of_Z 2097152001)) = Ok decoded
        /\ ltb (of_Z 2097152001) decoded = true).
Proof.
  split.
  { intros time rest. eexists. rewrite parse_getNtpTimestamp_alone.
    rewrite <- (app_nil_r (getNtpTimestamp time)), parse_getNtpTimestamp.
    split; reflexivity. }
  split.
  { intros k Hk. apply ntp_exact_sound. exact (ntp_whole_seconds_exact k Hk). }
  split.
  { intros t Ht. apply ntp_close_sound. exact (ntp_epoch_close t Ht). }
  exact ntp_reads_back_above.
Qed.

Lemma be32_bytes (v : Z) : Forall (fun b => 0 <= b <= 255) (be32 v).
Proof.
  unfold be32. pose proof (ToUint32_range v) as H.
  repeat constructor; Z.div_mod_to_equations; lia.
Qed.

Lemma getNtpTimestamp_be32 (time : float64) :
  getNtpTimestamp time = be32 (ntp_integer time) ++ be32 (ntp_fraction time).
Proof.
  unfold getNtpTimestamp, ntp_integer, ntp_fraction, be32, setUint32, ToUint32.
  rewrite !Z.mod_mod by lia. reflexivity.
Qed.

(** X2.  The bytes of [getNtpTimestamp], in binary64 arithmetic.  Whatever
    the time, the function writes eight bytes, each between 0 and 255: the
    big-endian seconds word followed by the big-endian fraction word, both
    reduced modulo 2^32.  NaN and the infinities are written as eight zero
    bytes.  The seconds wrap modulo 2^32, but two times 2^32 seconds apart
    need not be written as the same bytes: 1 ms and 1 + 2^32 * 1000 ms both
    have seconds word 0, with fraction words 4294967 and 4296704. *)
Theorem getNtpTimestamp_bytes :
  (forall time : float64,
     getNtpTimestamp time = be32 (ntp_integer time) ++ be32 (ntp_fraction time)
     /\ length (getNtpTimestamp time) = 8%nat
     /\ Forall (fun b => 0 <= b <= 255) (getNtpTimestamp time))
  /\ getNtpTimestamp S754_nan = Uint8Array 8
  /\ (forall s : bool, getNtpTimestamp (S754_infinity s) = Uint8Array 8)
  /\ ntp_integer (of_Z 1) = 0
  /\ ntp_fraction (of_Z 1) = 4294967
  /\ ntp_integer (of_Z (1 + 2 ^ 32 * 1000)) = 0
  /\ ntp_fraction (of_Z (1 + 2 ^ 32 * 1000)) = 4296704
  /\ getNtpTimestamp (of_Z (1 + 2 ^ 32 * 1000)) <> getNtpTimestamp (of_Z 1).
Proof.
  split.
  { intros time. split; [ apply getNtpTimestamp_be32 | ].
    split; [ exact (length_getNtpTimestamp time) | ].
    rewrite getNtpTimestamp_be32. apply Forall_app. split; apply be32_bytes. }
  split; [ reflexivity | ].
  split; [ intros [ | ]; reflexivity | ].
  split; [ vm_compute; reflexivity | ].
  split; [ vm_compute; reflexivity | ].
  split; [ vm_compute; reflexivity | ].
  split; [ vm_compute; reflexivity | ].
  vm_compute. discriminate.
Qed.

(** *** The receive path *)

Lemma getUint32_short (buf : list Z) (off : nat) :
  (length buf < off + 4)%nat -> getUint32 buf off = Throw RangeError.
Proof.
  intros H. unfold getUint32.
  destruct (buf !! off) eqn:E0; [ | reflexivity ].
  destruct (buf !! S off) eqn:E1; [ | reflexivity ].
  destruct (buf !! S (S off)) eqn:E2; [ | reflexivity ].
  destruct (buf !! S (S (S off))) eqn:E3; [ | reflexivity ].
  apply lookup_lt_Some in E3. lia.
Qed.

Lemma getUint32_long (buf : list Z) (off : nat) :
  (off + 4 <= length buf)%nat -> exists v, getUint32 buf off = Ok v.
Proof.
  intros H. unfold getUint32.
  destruct (lookup_lt_is_Some_2 buf off ltac:(lia)) as [b0 ->].
  destruct (lookup_lt_is_Some_2 buf (S off) ltac:(lia)) as [b1 ->].
  destruct (lookup_lt_is_Some_2 buf (S (S off)) ltac:(lia)) as [b2 ->].
  destruct (lookup_lt_is_Some_2 buf (S (S (S off))) ltac:(lia)) as [b3 ->].
  eexists. reflexivity.
Qed.

Lemma getUint16_short (buf : list Z) (off : nat) :
  (length buf < off + 2)%nat -> getUint16 buf off = Throw RangeError.
Proof.
  intros H. unfold getUint16.
  destruct (buf !! off) eqn:E0; [ | reflexivity ].
  destruct (buf !! S off) eqn:E1; [ | reflexivity ].
  apply lookup_lt_Some in E1. lia.
Qed.

Lemma getUint16_long (buf : list Z) (off : nat) :
  (off + 2 <= length buf)%nat -> exists v, getUint16 buf off = Ok v.
Proof.
  intros H. unfold getUint16.
  destruct (lookup_lt_is_Some_2 buf off ltac:(lia)) as [b0 ->].
  destruct (lookup_lt_is_Some_2 buf (S off) ltac:(lia)) as [b1 ->].
  eexists. reflexivity.
Qed.

Lemma parseNtpTimestamp_short (buf : list Z) :
  (length buf < 8)%nat -> parseNtpTimestamp buf = Throw RangeError.
Proof.
  intros H. unfold parseNtpTimestamp.
  destruct (getUint32 buf 0) eqn:E0; [ | destruct e; reflexivity ].
  cbn [rbind]. rewrite getUint32_short by lia. reflexivity.
Qed.

Lemma parseNtpTimestamp_long (buf : list Z) :
  (8 <= length buf)%nat -> exists t, parseNtpTimestamp buf = Ok t.
Proof.
  intros H. unfold parseNtpTimestamp.
  destruct (getUint32_long buf 0 ltac:(lia)) as [i ->].
  destruct (getUint32_long buf 4 ltac:(lia)) as [f ->].
  eexists. reflexivity.
Qed.

Lemma parseRtpHeader_long (msg : list Z) :
  (4 <= length msg)%nat -> exists hdr, parseRtpHeader msg = Ok hdr.
Proof.
  intros H. destruct msg as [ | a [ | b [ | s1 [ | s2 rest ] ] ] ];
    simpl in H; try lia.
  rewrite parseRtpHeader_cons. eexists. reflexivity.
Qed.

Lemma parseRtpHeader_short (msg : list Z) :
  (length msg < 4)%nat -> parseRtpHeader msg = Throw RangeError.
Proof.
  intros H. destruct msg as [ | a [ | b [ | s1 [ | s2 rest ] ] ] ];
    try reflexivity. simpl in H. lia.
Qed.

Lemma timingRequest_parser_length (msg : list Z) :
  if decide (length msg < 32)%nat
  then packetParsers_timingRequest msg = Throw RangeError
  else exists m, packetParsers_timingRequest msg = Ok m.
Proof.
  unfold packetParsers_timingRequest, slice,
    RTP_HEADER_LENGTH, RTP_NTP_TIMESTAMP_LENGTH.
  destruct (decide (length msg < 32)%nat) as [Hs | Hl].
  - destruct (decide (length msg < 16)%nat) as [H16 | H16].
    { rewrite (parseNtpTimestamp_short (drop (4 + 4) msg))
        by (rewrite length_drop; lia). reflexivity. }
    destruct (parseNtpTimestamp_long (drop (4 + 4) msg)) as [t1 ->];
      [ rewrite length_drop; lia | cbn [rbind] ].
    destruct (decide (length msg < 24)%nat) as [H24 | H24].
    { rewrite (parseNtpTimestamp_short (drop (4 + 4 + 8) msg))
        by (rewrite length_drop; lia). reflexivity. }
    destruct (parseNtpTimestamp_long (drop (4 + 4 + 8) msg)) as [t2 ->];
      [ rewrite length_drop; lia | cbn [rbind] ].
    rewrite (parseNtpTimestamp_short (drop (4 + 4 + 8 + 8) msg))
      by (rewrite length_drop; lia). reflexivity.
  - destruct (parseNtpTimestamp_long (drop (4 + 4) msg)) as [t1 ->];
      [ rewrite length_drop; lia | cbn [rbind] ].
    destruct (parseNtpTimestamp_long (drop (4 + 4 + 8) msg)) as [t2 ->];
      [ rewrite length_drop; lia | cbn [rbind] ].
    destruct (parseNtpTimestamp_long (drop (4 + 4 + 8 + 8) msg)) as [t3 ->];
      [ rewrite length_drop; lia | cbn [rbind] ].
    eexists. reflexivity.
Qed.

Lemma rangeResend_parser_length (msg : list Z) :
  if decide (length msg < 8)%nat
  then packetParsers_rangeResend msg = Throw RangeError
  else exists m, packetParsers_rangeResend msg = Ok m.
Proof.
  unfold packetParsers_rangeResend, RTP_HEADER_LENGTH.
  destruct (decide (length msg < 8)%nat) as [Hs | Hl].
  - destruct (decide (length msg < 6)%nat) as [H6 | H6].
    { rewrite getUint16_short by lia. reflexivity. }
    destruct (getUint16_long msg 4) as [s ->]; [ lia | cbn [rbind] ].
    rewrite getUint16_short by lia. reflexivity.
  - destruct (getUint16_long msg 4) as [s ->]; [ lia | cbn [rbind] ].
    destruct (getUint16_long msg (4 + 2)) as [c ->]; [ lia | cbn [rbind] ].
    eexists. reflexivity.
Qed.

Lemma packetParsers_length (key : PayloadTypeField) (msg : list Z) :
  (4 <= length msg)%nat ->
  if decide (length msg < needed_length key)%nat
  then packetParsers key msg = Throw RangeError
  else exists parsed, packetParsers key msg = Ok parsed.
Proof.
  intros H4.
  destruct key as [ n | [ | | | | ] | ]; cbn [needed_length packetParsers];
    unfold RTP_HEADER_LENGTH, RTP_NTP_TIMESTAMP_LENGTH;
    try (rewrite decide_False by lia; eexists; reflexivity).
  - pose proof (timingRequest_parser_length msg) as H.
    change (4 + 4 + 3 * 8)%nat with 32%nat.
    destruct (decide (length msg < 32)%nat).
    + rewrite H. reflexivity.
    + destruct H as [m ->]. eexists. reflexivity.
  - pose proof (rangeResend_parser_length msg) as H.
    change (4 + 4)%nat with 8%nat.
    destruct (decide (length msg < 8)%nat).
    + rewrite H. reflexivity.
    + destruct H as [m ->]. eexists. reflexivity.
Qed.

Lemma needed_length_header (key : PayloadTypeField) :
  (RTP_HEADER_LENGTH <= needed_length key)%nat.
Proof.
  destruct key as [ n | [ | | | | ] | ]; cbn [needed_length];
    unfold RTP_HEADER_LENGTH, RTP_NTP_TIMESTAMP_LENGTH; lia.
Qed.

(** X3.  What the socket's ['message'] listener does with a datagram is
    decided by its length alone (the datagram being the whole of its
    ArrayBuffer, as dgram delivers it).  The listener throws a RangeError exactly
    when the datagram is shorter than what is read from it: the four
    header bytes, 32 bytes when the header's payload type is
    timingRequest, 8 bytes when it is rangeResend.  Every other datagram,
    whatever its payload type and bytes, makes it emit exactly two events,
    the one named by the payload type and then ['message'], both with the
    same parsed message and header. *)
Theorem onSocketMessage_length (msg : list Z) :
  if decide (length msg < required_length msg)%nat
  then onSocketMessage msg = Throw RangeError
  else exists hdr parsed,
         parseRtpHeader msg = Ok hdr
         /\ packetParsers (payloadType hdr) msg = Ok parsed
         /\ onSocketMessage msg
            = Ok [ {| event := EventPayloadType (payloadType hdr);
                      parsedMessage := parsed; header := hdr |};
                   {| event := EventMessage;
                      parsedMessage := parsed; header := hdr |} ].
Proof.
  unfold required_length, onSocketMessage.
  destruct (decide (length msg < 4)%nat) as [Hshort | Hlong].
  - rewrite parseRtpHeader_short by exact Hshort.
    rewrite decide_True by (unfold RTP_HEADER_LENGTH; lia). reflexivity.
  - destruct (parseRtpHeader_long msg ltac:(lia)) as [hdr Hhdr].
    rewrite Hhdr. cbn [rbind].
    pose proof (packetParsers_length (payloadType hdr) msg ltac:(lia)) as H.
    destruct (decide (length msg < needed_length (payloadType hdr))%nat).
    + rewrite H. reflexivity.
    + destruct H as [parsed Hp]. exists hdr, parsed. rewrite Hp.
      repeat split; reflexivity.
Qed.

(** *** The packets of [packetSender.sync] and [packetSender.audioData] *)

Lemma sync_data (next currentTime latency : float64) (isFirst : bool)
    (this : AirplayUdpSocket) :
  packetSender_sync next currentTime latency isFirst this
  = Ok (if decide (clientPort this = -1) then this
        else socket_send
               (getRtpHeader {| extension := isFirst; source := 0;
                                payloadType := PTNumber (enum_value sync);
                                marker := true; seqnum := 7 |}
                ++ be32 (ToIntegerOrZero (sub next latency))
                ++ getNtpTimestamp (Math_max (of_Z 0) currentTime)
                ++ be32 (ToIntegerOrZero next) ++ []) this).
Proof.
  unfold packetSender_sync.
  destruct (decide (clientPort this = -1)) as [ | _ ]; [ reflexivity | ].
  cbv zeta.
  set (hd := getRtpHeader _). set (ntp := getNtpTimestamp _).
  assert (Hhd : length hd = 4%nat) by apply length_getRtpHeader.
  assert (Hntp : length ntp = 8%nat) by apply length_getNtpTimestamp.
  change (Uint8Array (RTP_HEADER_LENGTH + 4 * 4))
    with ([] ++ replicate 4 0 ++ (replicate 4 0 ++ replicate 8 0
                                  ++ replicate 4 0 ++ [])).
  rewrite set_app by (rewrite ?Hhd; reflexivity). cbn [rbind app].
  rewrite (setUint32_app _ hd (replicate 4 0)) by (assumption || reflexivity).
  rewrite (app_assoc hd).
  rewrite set_app
    by (rewrite ?length_app, ?Hhd, ?Hntp; reflexivity).
  cbn [rbind].
  rewrite (app_assoc (hd ++ _) ntp).
  rewrite (setUint32_app _ ((hd ++ _) ++ ntp) (replicate 4 0))
    by (rewrite ?length_app, ?Hhd, ?Hntp; reflexivity).
  rewrite <- !app_assoc. reflexivity.
Qed.

(** [Math.max(0, x)] is [+0] for every [x] that is not above 0 and is not
    NaN, and the timestamp of [+0] and of NaN is eight zero bytes. *)
Lemma getNtpTimestamp_not_positive (x : float64) :
  ltb (of_Z 0) x = false ->
  getNtpTimestamp (Math_max (of_Z 0) x) = Uint8Array 8.
Proof.
  destruct x as [ [ | ] | [ | ] | | [ | ] m e ]; intros H;
    try discriminate H; reflexivity.
Qed.

(** X4.  The sync packet, in binary64 arithmetic.  [packetSender.sync]
    never throws.  Before the client port is known it sends nothing;
    afterwards it sends one datagram of 20 bytes to the client's host and
    port: its header reads back as payload type sync with the marker set,
    sequence number 7, source 0 and the extension bit equal to [isFirst];
    the words at offsets 4 and 16 are [nextAudioChunkTimestamp - latency]
    and [nextAudioChunkTimestamp] rounded toward zero and reduced modulo
    [2^32] (0 for NaN and the infinities); bytes 8 to 15 are the NTP
    timestamp of [Math.max(0, currentTime)], which is eight zero bytes
    whenever [currentTime] is not above 0 (negative, zero or NaN), and
    which reads back as the number that reading back the timestamp of
    [Math.max(0, currentTime)] gives. *)
Theorem sync_packet (nextAudioChunkTimestamp currentTime latency : float64)
    (isFirst : bool) (this : AirplayUdpSocket) :
  exists data : list Z,
    packetSender_sync nextAudioChunkTimestamp currentTime latency isFirst this
    = Ok (if decide (clientPort this = -1) then this
          else {| serverPort := serverPort this;
                  clientPort := clientPort this;
                  clientHost := clientHost this;
                  sent := sent this
                          ++ [ {| data := data; port := clientPort this;
                                  host := clientHost this |} ] |})
    /\ length data = 20%nat
    /\ parseRtpHeader data
       = Ok {| extension := isFirst; source := 0; payloadType := PTName sync;
               marker := true; seqnum := 7 |}
    /\ getUint32 data 4
       = Ok (ToUint32 (ToIntegerOrZero (sub nextAudioChunkTimestamp latency)))
    /\ getUint32 data 16
       = Ok (ToUint32 (ToIntegerOrZero nextAudioChunkTimestamp))
    /\ take 8 (slice 8 data)
       = getNtpTimestamp (Math_max (of_Z 0) currentTime)
    /\ (ltb (of_Z 0) currentTime = false -> take 8 (slice 8 data) = Uint8Array 8)
    /\ parseNtpTimestamp (slice 8 data)
       = parseNtpTimestamp (getNtpTimestamp (Math_max (of_Z 0) currentTime)).
Proof.
  rewrite sync_data.
  set (hd := getRtpHeader _). set (ntp := getNtpTimestamp _).
  set (w1 := be32 (ToIntegerOrZero (sub nextAudioChunkTimestamp latency))).
  set (w2 := be32 (ToIntegerOrZero nextAudioChunkTimestamp)).
  assert (Hhd : length hd = 4%nat) by apply length_getRtpHeader.
  assert (Hntp : length ntp = 8%nat) by apply length_getNtpTimestamp.
  assert (Hslice : slice 8 (hd ++ w1 ++ ntp ++ w2 ++ []) = ntp ++ w2 ++ []).
  { unfold slice. rewrite (app_assoc hd w1).
    apply drop_app_length'. rewrite length_app, Hhd. reflexivity. }
  assert (Htake : take 8 (slice 8 (hd ++ w1 ++ ntp ++ w2 ++ [])) = ntp).
  { rewrite Hslice. apply take_app_length'. exact Hntp. }
  exists (hd ++ w1 ++ ntp ++ w2 ++ []).
  split; [ reflexivity | ].
  split; [ rewrite !length_app, Hhd, Hntp; reflexivity | ].
  split.
  { unfold hd. apply parse_getRtpHeader; cbn; (lia || reflexivity). }
  split; [ apply getUint32_be32; exact Hhd | ].
  split.
  { rewrite (app_assoc hd w1), (app_assoc (hd ++ w1) ntp).
    apply getUint32_be32. rewrite !length_app, Hhd, Hntp. reflexivity. }
  split; [ exact Htake | ].
  split.
  { intros Hneg. rewrite Htake. unfold ntp.
    apply getNtpTimestamp_not_positive, Hneg. }
  rewrite Hslice. unfold ntp. apply parse_getNtpTimestamp_alone.
Qed.

Section AudioDataFacts.
Variable FRAMES_PER_PACKET : Q.

Lemma audioData_data (alacData : list Z) (timestamp : Q) (first : bool)
    (clientSessionId : Q) (aesKey aesIv : string) (this : AirplayUdpSocket) :
  packetSender_audioData FRAMES_PER_PACKET alacData timestamp first
    clientSessionId aesKey aesIv this
  = Ok (if decide (clientPort this = -1) then this
        else socket_send
               ([0x80; if first then 0xe0 else 0x60]
                ++ be16 (Qfloor (timestamp / FRAMES_PER_PACKET))
                ++ be32 (Qtruncate timestamp)
                ++ be32 (Qtruncate clientSessionId)
                ++ alacData ++ []) this).
Proof.
  unfold packetSender_audioData.
  destruct (decide (clientPort this = -1)) as [ | _ ]; [ reflexivity | ].
  cbv zeta.
  change (Uint8Array (RTP_HEADER_LENGTH + 4 + 4 + length alacData))
    with ([0; 0] ++ [0; 0] ++ (replicate 4 0 ++ replicate 4 0
                               ++ replicate (length alacData) 0)).
  rewrite <- (app_nil_r (replicate (length alacData) 0)).
  assert (H01 : setUint8 1 (if first then 224 else 96)
                  (setUint8 0 128
                     ([0; 0] ++ [0; 0] ++ (replicate 4 0 ++ replicate 4 0
                        ++ replicate (length alacData) 0 ++ [])))
                = [0x80; if first then 0xe0 else 0x60] ++ [0; 0]
                  ++ (replicate 4 0 ++ replicate 4 0
                      ++ replicate (length alacData) 0 ++ [])).
  { destruct first; reflexivity. }
  rewrite H01.
  set (hd := [128; if first then 224 else 96]).
  assert (Hhd : length hd = 2%nat) by reflexivity.
  rewrite (setUint16_app _ hd [0; 0]) by (assumption || reflexivity).
  set (sq := be16 _). assert (Hsq : length sq = 2%nat) by reflexivity.
  rewrite (app_assoc hd sq).
  rewrite (setUint32_app _ (hd ++ sq) (replicate 4 0))
    by (rewrite ?length_app, ?Hhd, ?Hsq; reflexivity).
  set (w1 := be32 (Qtruncate timestamp)).
  rewrite (app_assoc (hd ++ sq) w1).
  rewrite (setUint32_app _ ((hd ++ sq) ++ w1) (replicate 4 0))
    by (rewrite ?length_app, ?Hhd, ?Hsq; reflexivity).
  set (w2 := be32 (Qtruncate clientSessionId)).
  rewrite (app_assoc ((hd ++ sq) ++ w1) w2).
  rewrite set_app
    by (rewrite ?length_app, ?Hhd, ?Hsq, ?length_replicate; reflexivity).
  cbn [rbind]. rewrite <- !app_assoc. reflexivity.
Qed.

(** X5.  The audio packet.  [packetSender.audioData] never throws.  Before
    the client port is known it sends nothing; afterwards it sends one
    datagram of [12 + alacData.length] bytes to the client's host and
    port: its header reads back as payload type audioData with source 0, no
    extension, the marker equal to [firstPacketInStream] and the sequence
    number [floor(timestamp / FRAMES_PER_PACKET)] modulo [2^16]; the words
    at offsets 4 and 8 are the timestamp and the client session id modulo
    [2^32]; and the bytes from offset 12 are [alacData] unchanged: the AES
    key and iv have no effect on the packet. *)
Theorem audioData_packet (alacData : list Z) (timestamp : Q)
    (firstPacketInStream : bool) (clientSessionId : Q) (aesKey aesIv : string)
    (this : AirplayUdpSocket) :
  exists data : list Z,
    (forall key iv : string,
       packetSender_audioData FRAMES_PER_PACKET alacData timestamp
         firstPacketInStream clientSessionId key iv this
       = Ok (if decide (clientPort this = -1) then this
             else {| serverPort := serverPort this;
                     clientPort := clientPort this;
                     clientHost := clientHost this;
                     sent := sent this
                             ++ [ {| data := data; port := clientPort this;
                                     host := clientHost this |} ] |}))
    /\ length data = (12 + length alacData)%nat
    /\ parseRtpHeader data
       = Ok {| extension := false; source := 0; payloadType := PTName audioData;
               marker := firstPacketInStream;
               seqnum := ToUint16 (Qfloor (timestamp / FRAMES_PER_PACKET)) |}
    /\ getUint32 data 4 = Ok (ToUint32 (Qtruncate timestamp))
    /\ getUint32 data 8 = Ok (ToUint32 (Qtruncate clientSessionId))
    /\ slice 12 data = alacData.
Proof.
  set (hd := [128; if firstPacketInStream then 224 else 96]).
  set (sq := be16 (Qfloor (timestamp / FRAMES_PER_PACKET))).
  set (w1 := be32 (Qtruncate timestamp)).
  set (w2 := be32 (Qtruncate clientSessionId)).
  exists (hd ++ sq ++ w1 ++ w2 ++ alacData ++ []).
  split; [ intros key iv; apply audioData_data | ].
  split; [ rewrite app_nil_r; reflexivity | ].
  split.
  { unfold hd, sq, be16. cbn [app]. rewrite parseRtpHeader_cons.
    rewrite be16_value. destruct firstPacketInStream; reflexivity. }
  split.
  { rewrite (app_assoc hd sq). apply getUint32_be32. reflexivity. }
  split.
  { rewrite (app_assoc hd sq), (app_assoc (hd ++ sq) w1).
    apply getUint32_be32. reflexivity. }
  unfold slice.
  rewrite (app_assoc hd sq), (app_assoc (hd ++ sq) w1),
    (app_assoc ((hd ++ sq) ++ w1) w2).
  rewrite drop_app_length' by reflexivity. apply app_nil_r.
Qed.

End AudioDataFacts.

End AirplayMoreFacts.

(** ** RPC correlation *)

Module RpcFacts.
Import Rpc.

Section Handlers.
Variable rpcHandlers : string -> string -> string + string.

(** X6.  An RPC round trip.  [sendRcp] sends one request; the remote
    listener answers it with exactly one response, which carries the
    request's uuid and type; when that response comes back, the promise
    that [sendRcp] returned is fulfilled with the body the remote handler
    returned, or rejected with the text of the error it threw.  No other
    promise is touched, the caller sends nothing more, the handler slot of
    the uuid is removed, and a second delivery of the same response
    changes nothing. *)
Theorem rpc_roundtrip (type message : string) (a b : RpcPeer) :
  exists (request response : RPCMessage),
    let promise := fst (sendRcp type message a) in
    let a1 := snd (sendRcp type message a) in
    let a2 := on_rpc rpcHandlers response a1 in
    sent a1 = sent a ++ [request]
    /\ sent (on_rpc rpcHandlers request b) = sent b ++ [response]
    /\ uuid response = uuid request /\ rpcType response = type
    /\ isResponse response = true
    /\ settled a2 !! promise
       = Some (match rpcHandlers type message with
               | inl r => Fulfilled r
               | inr e => RejectedWith e
               end)
    /\ (forall q, q <> promise -> settled a2 !! q = settled a !! q)
    /\ sent a2 = sent a1
    /\ rpcResponseHandlers a2 !! uuid request = None
    /\ on_rpc rpcHandlers response a2 = a2.
Proof.
  set (u := uuids a (nextUuid a)).
  exists {| rpcType := type; isResponse := false; isError := false;
            body := message; uuid := u |}.
  exists (match rpcHandlers type message with
          | inl r => {| rpcType := type; isResponse := true; isError := false;
                        body := r; uuid := u |}
          | inr e => {| rpcType := type; isResponse := true; isError := true;
                        body := e; uuid := u |}
          end).
  cbv zeta.
  assert (Hresp : forall p, forall r : RPCMessage,
            isResponse r = true -> uuid r = u ->
            rpcResponseHandlers p !! u = None -> on_rpc rpcHandlers r p = p).
  { intros p r Hr Hu Hnone. unfold on_rpc. rewrite Hr, Hu, Hnone. reflexivity. }
  split; [ reflexivity | ].
  split; [ reflexivity | ].
  destruct (rpcHandlers type message) as [r | e];
    cbn [uuid rpcType isResponse];
    (split; [ reflexivity | ]); (split; [ reflexivity | ]);
    (split; [ reflexivity | ]);
    unfold on_rpc, sendRcp; cbn [snd fst isResponse uuid rpcResponseHandlers
                                 isError body settled sent];
    fold u; rewrite lookup_insert_eq;
    cbn [settled sent rpcResponseHandlers isResponse uuid];
    rewrite lookup_insert_eq, lookup_delete_eq;
    (split; [ reflexivity | ]);
    (split; [ intros q Hq; apply lookup_insert_ne; congruence | ]);
    (split; [ reflexivity | ]); (split; [ reflexivity | ]); reflexivity.
Qed.

Lemma on_rpc_response_hit (m : RPCMessage) (p : RpcPeer) (promise : nat) :
  isResponse m = true ->
  rpcResponseHandlers p !! uuid m = Some promise ->
  on_rpc rpcHandlers m p
  = {| rpcResponseHandlers := delete (uuid m) (rpcResponseHandlers p);
       settled := <[promise := if isError m then RejectedWith (body m)
                               else Fulfilled (body m)]> (settled p);
       nextPromise := nextPromise p;
       sent := sent p;
       uuids := uuids p;
       nextUuid := nextUuid p |}.
Proof. intros Hr Hl. unfold on_rpc. rewrite Hr, Hl. reflexivity. Qed.

(** X7.  Calls in flight are told apart by their uuid alone.  Two calls
    are made one after the other and get different uuids; the remote
    answers both; the responses come back in the opposite order.  Each
    promise is then settled with the result of its own request, the two
    promises are different, and no handler slot is left for either
    uuid. *)
Theorem rpc_out_of_order (t1 m1 t2 m2 : string) (a b : RpcPeer) :
  uuids a (nextUuid a) <> uuids a (S (nextUuid a)) ->
  exists (req1 req2 resp1 resp2 : RPCMessage),
    let p1 := fst (sendRcp t1 m1 a) in
    let a1 := snd (sendRcp t1 m1 a) in
    let p2 := fst (sendRcp t2 m2 a1) in
    let a2 := snd (sendRcp t2 m2 a1) in
    let a4 := on_rpc rpcHandlers resp1 (on_rpc rpcHandlers resp2 a2) in
    sent a2 = sent a ++ [req1; req2]
    /\ sent (on_rpc rpcHandlers req2 (on_rpc rpcHandlers req1 b))
       = sent b ++ [resp1; resp2]
    /\ p1 <> p2
    /\ settled a4 !! p1
       = Some (match rpcHandlers t1 m1 with
               | inl r => Fulfilled r
               | inr e => RejectedWith e
               end)
    /\ settled a4 !! p2
       = Some (match rpcHandlers t2 m2 with
               | inl r => Fulfilled r
               | inr e => RejectedWith e
               end)
    /\ rpcResponseHandlers a4 !! uuid req1 = None
    /\ rpcResponseHandlers a4 !! uuid req2 = None
    /\ sent a4 = sent a2.
Proof.
  intros Hne.
  set (u1 := uuids a (nextUuid a)) in *. set (u2 := uuids a (S (nextUuid a))) in *.
  set (req1 := {| rpcType := t1; isResponse := false; isError := false;
                  body := m1; uuid := u1 |}).
  set (req2 := {| rpcType := t2; isResponse := false; isError := false;
                  body := m2; uuid := u2 |}).
  set (resp1 := {| rpcType := t1; isResponse := true;
                   isError := match rpcHandlers t1 m1 with inl _ => false | inr _ => true end;
                   body := match rpcHandlers t1 m1 with inl r => r | inr e => e end;
                   uuid := u1 |}).
  set (resp2 := {| rpcType := t2; isResponse := true;
                   isError := match rpcHandlers t2 m2 with inl _ => false | inr _ => true end;
                   body := match rpcHandlers t2 m2 with inl r => r | inr e => e end;
                   uuid := u2 |}).
  exists req1, req2, resp1, resp2. cbv zeta.
  split; [ unfold sendRcp; cbn [snd sent]; rewrite <- app_assoc; reflexivity | ].
  split.
  { unfold on_rpc, req1, req2, resp1, resp2.
    cbn [isResponse rpcType body uuid sent]. rewrite <- app_assoc.
    destruct (rpcHandlers t1 m1), (rpcHandlers t2 m2); reflexivity. }
  split; [ unfold sendRcp; cbn [fst snd nextPromise]; lia | ].
  rewrite (on_rpc_response_hit resp2 _ (S (nextPromise a)));
    [ | reflexivity
      | unfold sendRcp; cbn [snd rpcResponseHandlers uuids nextUuid uuid resp2];
        fold u2; apply lookup_insert_eq ].
  rewrite (on_rpc_response_hit resp1 _ (nextPromise a));
    [ | reflexivity
      | unfold sendRcp; cbn [snd rpcResponseHandlers uuids nextUuid uuid resp1 resp2];
        fold u1 u2; rewrite lookup_delete_ne by congruence;
        rewrite lookup_insert_ne by congruence; apply lookup_insert_eq ].
  unfold sendRcp. cbn [fst snd settled sent rpcResponseHandlers uuid
                         resp1 resp2 req1 req2 isError body nextPromise].
  split.
  { rewrite lookup_insert_eq. destruct (rpcHandlers t1 m1); reflexivity. }
  split.
  { rewrite lookup_insert_ne by lia. rewrite lookup_insert_eq.
    destruct (rpcHandlers t2 m2); reflexivity. }
  split; [ apply lookup_delete_eq | ].
  split; [ | reflexivity ].
  rewrite lookup_delete_ne by congruence. apply lookup_delete_eq.
Qed.

End Handlers.

Lemma rpc_out_of_order_witness :
  uuids sample_rpc_peer (nextUuid sample_rpc_peer)
  <> uuids sample_rpc_peer (S (nextUuid sample_rpc_peer))
  /\ exists (req1 req2 resp1 resp2 : RPCMessage),
    let p1 := fst (sendRcp "ping" "a" sample_rpc_peer) in
    let a1 := snd (sendRcp "ping" "a" sample_rpc_peer) in
    let p2 := fst (sendRcp "stop" "b" a1) in
    let a2 := snd (sendRcp "stop" "b" a1) in
    let a4 := on_rpc sample_rpcHandlers resp1
                (on_rpc sample_rpcHandlers resp2 a2) in
    sent a2 = sent sample_rpc_peer ++ [req1; req2]
    /\ sent (on_rpc sample_rpcHandlers req2
               (on_rpc sample_rpcHandlers req1 sample_rpc_peer))
       = sent sample_rpc_peer ++ [resp1; resp2]
    /\ p1 <> p2
    /\ settled a4 !! p1
       = Some (match sample_rpcHandlers "ping" "a" with
               | inl r => Fulfilled r
               | inr e => RejectedWith e
               end)
    /\ settled a4 !! p2
       = Some (match sample_rpcHandlers "stop" "b" with
               | inl r => Fulfilled r
               | inr e => RejectedWith e
               end)
    /\ rpcResponseHandlers a4 !! uuid req1 = None
    /\ rpcResponseHandlers a4 !! uuid req2 = None
    /\ sent a4 = sent a2.
Proof.
  split; [ discriminate | ].
  apply (rpc_out_of_order sample_rpcHandlers "ping" "a" "stop" "b"
           sample_rpc_peer sample_rpc_peer).
  discriminate.
Defined.

End RpcFacts.

(** ** The rendezvous relay: POST then GET *)

Module RendezvousGetFacts.
Import Rendezvous RendezvousGet.

Section Handler.
Variable StringToNumber : string -> StringNumber.
Variable conversationExpireTime : Z.

Lemma post_all_cons (m : string) (bodies : list string) (conversationId : string)
    (r : Redis) :
  post_all StringToNumber conversationExpireTime (m :: bodies) conversationId r
  = post_all StringToNumber conversationExpireTime bodies conversationId
      (post_messages StringToNumber conversationExpireTime
         (body_string m) conversationId r).2.
Proof. reflexivity. Qed.

Lemma post_all_lists (bodies : list string) (conversationId : string) (r : Redis) :
  string_lt_number StringToNumber conversationId 64 = true ->
  Forall (fun m => (String.length m < 1024)%nat) bodies ->
  let key := ("conversation:" +:+ conversationId)%string in
  let r' := post_all StringToNumber conversationExpireTime bodies conversationId r in
  lrange_all key r' = rev bodies ++ lrange_all key r
  /\ (forall k, k <> key ->
        lists r' !! k = lists r !! k /\ expiry r' !! k = expiry r !! k).
Proof.
  intros Hid Hlen. cbv zeta. revert r.
  induction Hlen as [ | m bodies Hm Hrest IH ]; intros r.
  - split; [ reflexivity | intros k _; split; reflexivity ].
  - rewrite post_all_cons. unfold post_messages.
    apply Nat.ltb_lt in Hm. rewrite Hm, Hid. cbn [negb snd].
    set (key := ("conversation:" +:+ conversationId)%string).
    destruct (IH (expire key conversationExpireTime (lpush key m r)))
      as [IHl IHo]; fold key in IHl, IHo.
    split.
    + rewrite IHl. unfold lrange_all, expire, lpush. cbn [lists].
      rewrite lookup_insert_eq. cbn [default rev]. rewrite <- app_assoc. reflexivity.
    + intros k Hk. destruct (IHo k Hk) as [-> ->].
      unfold expire, lpush. cbn [lists expiry].
      rewrite !lookup_insert_ne by congruence. split; reflexivity.
Qed.

(** X8.  POST then GET on one conversation.  When the id passes the
    handlers' check and every body is a string of fewer than 1024
    characters, a GET that follows a sequence of POSTs answers 200 with all
    the posted messages, the last posted first (LPUSH puts each message at the
    head), followed by what the list held before.  The GET drains the
    conversation: its list and its expiry are gone, an immediate second GET
    answers 200 with the empty list, and every other key of the store is
    as it was before the POSTs. *)
Theorem post_then_get (bodies : list string) (conversationId : string) (r : Redis) :
  string_lt_number StringToNumber conversationId 64 = true ->
  Forall (fun m => (String.length m < 1024)%nat) bodies ->
  let key := ("conversation:" +:+ conversationId)%string in
  let posted := post_all StringToNumber conversationExpireTime bodies conversationId r in
  let got := get_messages StringToNumber conversationId posted in
  let again := get_messages StringToNumber conversationId got.2 in
  get_status got.1 = 200
  /\ get_body got.1 = Some (rev bodies ++ default [] (lists r !! key))
  /\ lists got.2 !! key = None
  /\ expiry got.2 !! key = None
  /\ (forall k, k <> key ->
        lists got.2 !! k = lists r !! k /\ expiry got.2 !! k = expiry r !! k)
  /\ get_status again.1 = 200
  /\ get_body again.1 = Some []
  /\ again.2 = got.2.
Proof.
  intros Hid Hlen. cbv zeta.
  destruct (post_all_lists bodies conversationId r Hid Hlen) as [Hl Ho].
  unfold get_messages. rewrite Hid. cbn [negb fst snd get_status get_body].
  set (key := ("conversation:" +:+ conversationId)%string) in *.
  set (posted := post_all _ _ _ _ _) in *.
  split; [ reflexivity | ].
  split; [ rewrite Hl; reflexivity | ].
  split; [ apply lookup_delete_eq | ].
  split; [ apply lookup_delete_eq | ].
  split.
  { intros k Hk. unfold del. cbn [lists expiry].
    rewrite !lookup_delete_ne by congruence. apply Ho, Hk. }
  split; [ reflexivity | ].
  split.
  { unfold lrange_all, del. cbn [lists]. rewrite lookup_delete_eq. reflexivity. }
  unfold del. cbn [lists expiry]. rewrite !delete_delete_eq. reflexivity.
Qed.

End Handler.

Lemma post_then_get_witness :
  let bodies := ["offer"; "candidate"] in
  let key := ("conversation:" +:+ "12")%string in
  let posted := post_all decimal_StringToNumber 3600 bodies "12" empty_redis in
  let got := get_messages decimal_StringToNumber "12" posted in
  let again := get_messages decimal_StringToNumber "12" got.2 in
  get_status got.1 = 200
  /\ get_body got.1 = Some (rev bodies ++ default [] (lists empty_redis !! key))
  /\ lists got.2 !! key = None
  /\ expiry got.2 !! key = None
  /\ (forall k, k <> key ->
        lists got.2 !! k = lists empty_redis !! k
        /\ expiry got.2 !! k = expiry empty_redis !! k)
  /\ get_status again.1 = 200
  /\ get_body again.1 = Some []
  /\ again.2 = got.2.
Proof.
  apply (post_then_get decimal_StringToNumber 3600 ["offer"; "candidate"] "12"
           empty_redis).
  - reflexivity.
  - repeat constructor.
Defined.

End RendezvousGetFacts.

(** ** Starting and stopping the local device sink *)

Module SinkLifecycleFacts.
Import Sink SinkLifecycle.

Lemma remove_first_app (tc : Trigger * Callback) (pre l : list (Trigger * Callback)) :
  tc ∉ pre -> remove_first tc (pre ++ tc :: l) = pre ++ l.
Proof.
  induction pre as [ | x pre IH ]; intros Hnot; cbn [app remove_first].
  - rewrite decide_True by reflexivity. reflexivity.
  - rewrite decide_False by (intros ->; apply Hnot; left).
    rewrite IH; [ reflexivity | ]. intros Hin. apply Hnot. right. exact Hin.
Qed.

(** [off] and [clearInterval] take the last matching registration away. *)
Lemma unregister_last (t : Trigger) (c : Callback) (this : LocalDeviceSink)
    (l post : list (Trigger * Callback)) :
  registrations this = l ++ (t, c) :: post ->
  (t, c) ∉ post ->
  registrations (unregister t c this) = l ++ post.
Proof.
  intros H Hnot. unfold unregister. cbn [registrations].
  rewrite H, rev_app_distr. cbn [rev]. rewrite <- app_assoc. cbn [app].
  rewrite remove_first_app
    by (rewrite list_elem_of_In, <- in_rev, <- list_elem_of_In; exact Hnot).
  rewrite rev_app_distr, !rev_involutive. reflexivity.
Qed.

(** The three registrations of one [_startSink]. *)
Lemma registrations_startSink (this : LocalDeviceSink) :
  registrations (_startSink this)
  = registrations this
    ++ [ (peer_timedeltaUpdated, handleTimedeltaUpdate);
         (source_update, handleTimedeltaUpdate);
         (interval 1000, setDelayFromLocalNow_callback) ].
Proof.
  unfold _startSink, register. cbn [registrations].
  rewrite (proj2 (SinkFacts.setDelayFromLocalNow_frame this)).
  rewrite <- !app_assoc. reflexivity.
Qed.

(** [cleanStream] takes the last three registrations of a start away. *)
Lemma registrations_cleanStream (this : LocalDeviceSink)
    (l : list (Trigger * Callback)) :
  registrations this
  = l ++ [ (peer_timedeltaUpdated, handleTimedeltaUpdate);
           (source_update, handleTimedeltaUpdate);
           (interval 1000, setDelayFromLocalNow_callback) ] ->
  registrations (cleanStream_callback this) = l.
Proof.
  intros H. unfold cleanStream_callback.
  rewrite <- (app_nil_r l).
  apply (unregister_last _ _ _ l []); [ | apply not_elem_of_nil ].
  apply (unregister_last _ _ _ l [ _ ]);
    [ | rewrite list_elem_of_singleton; discriminate ].
  apply (unregister_last _ _ _ l [ _; _ ]); [ exact H | ].
  rewrite !elem_of_cons, elem_of_nil. intros [ E | [ E | [] ] ]; discriminate E.
Qed.

Lemma cleanStream_frame (this : LocalDeviceSink) :
  delayFromLocalNowBuffer (cleanStream_callback this) = delayFromLocalNowBuffer this
  /\ pipedSource (cleanStream_callback this) = pipedSource this
  /\ world (cleanStream_callback this) = world this.
Proof. repeat split. Qed.

(** X9.  [_stopSink] undoes the registrations of the [_startSink] before
    it, and only those.  After a start and a stop the sink's listeners and
    timers are exactly those it had before the start, whatever they were,
    while the delay written by the start stays; a second stop changes
    nothing.  When the sink is started twice and then stopped, only the
    second start's registrations are removed: the listeners and the
    1000 ms timer of the first start stay, and no further stop removes
    them. *)
Theorem stopSink_undoes_startSink (s : RunningSink) :
  let started := startSink s in
  let stopped := _stopSink started in
  registrations (sink stopped) = registrations (sink s)
  /\ cleanStream stopped = false
  /\ delayFromLocalNowBuffer (sink stopped) = delayFromLocalNowBuffer (sink started)
  /\ delayFromLocalNowBuffer (sink started)
     = spec_delay_from_local_now (sink s)
  /\ _stopSink stopped = stopped
  /\ (let twice := _stopSink (_stopSink (startSink started)) in
      cleanStream twice = false
      /\ registrations (sink twice)
         = registrations (sink s)
           ++ [ (peer_timedeltaUpdated, handleTimedeltaUpdate);
                (source_update, handleTimedeltaUpdate);
                (interval 1000, setDelayFromLocalNow_callback) ]).
Proof.
  cbv zeta. unfold _stopSink, startSink. cbn [cleanStream sink].
  split.
  { apply registrations_cleanStream, registrations_startSink. }
  split; [ reflexivity | ].
  split; [ reflexivity | ].
  split.
  { unfold _startSink, register. cbn [delayFromLocalNowBuffer].
    apply SinkFacts.setDelayFromLocalNow_spec. }
  split; [ reflexivity | ].
  split; [ reflexivity | ].
  apply registrations_cleanStream.
  rewrite registrations_startSink, registrations_startSink. reflexivity.
Qed.

End SinkLifecycleFacts.

(** ** The peer link: time synchronization *)

Module PeerSyncFacts.
Import BasicNumericStatsTracker Peer PeerFacts PeerSync.

(** *** What the listeners leave alone *)

Lemma foldl_effect_frame {A} (f : A -> Effect) (l : list A) (w : World) :
  let w' := foldl (fun w i => effect (f i) w) w l in
  peers w' = peers w /\ registry w' = registry w /\ localPeer w' = localPeer w
  /\ immediates w' = immediates w /\ resolved w' = resolved w
  /\ nextPromise w' = nextPromise w /\ clock w' = clock w /\ ticks w' = ticks w
  /\ trace w' = trace w ++ map f l.
Proof.
  cbv zeta. revert w. induction l as [ | i l IH ]; intros w; cbn [foldl map].
  - rewrite app_nil_r. repeat split; reflexivity.
  - destruct (IH (effect (f i) w)) as (H1 & H2 & H3 & H4 & H5 & H6 & H7 & H8 & H9).
    rewrite H1, H2, H3, H4, H5, H6, H7, H8, H9. cbn [effect trace].
    rewrite <- app_assoc. repeat split; reflexivity.
Qed.

(** A run of any listener reads no clock and leaves the local peer, the
    registry and the pending callbacks as they are. *)
Lemma run_listener_frame (h : nat) (ev : Event) (l : Listener) (w : World) :
  let w' := run_listener h ev l w in
  localPeer w' = localPeer w /\ clock w' = clock w /\ ticks w' = ticks w
  /\ registry w' = registry w /\ immediates w' = immediates w.
Proof.
  cbv zeta. unfold run_listener.
  destruct (peers w !! h) as [ p | ]; [ | repeat split; reflexivity ].
  destruct l; try (repeat split; reflexivity).
  - (* on_stateChange *)
    set (w1 := if decide (state p <> connected)
               then update_peer h (set_timedeltas flush) w else w).
    assert (H1 : localPeer w1 = localPeer w /\ clock w1 = clock w
                 /\ ticks w1 = ticks w /\ registry w1 = registry w
                 /\ immediates w1 = immediates w).
    { unfold w1. destruct (decide (state p <> connected)); repeat split; reflexivity. }
    destruct (decide (state p = connected)); [ | exact H1 ].
    destruct (isLocal p); [ exact H1 | ].
    destruct (foldl_effect_frame (fun i => SetTimeout h (Z.of_nat i * 10))
                (seq 0 TIMESYNC_INIT_REQUEST_COUNT)
                (effect (ManagerEmitted "newConnectedPeer" (Some h)) w1))
      as (_ & G2 & G3 & G4 & _ & _ & G7 & G8 & _).
    cbv zeta in G2, G3, G4, G7, G8.
    rewrite G2, G3, G4, G7, G8. exact H1.
  - destruct (decide (state p = connected)); repeat split; reflexivity.
  - destruct (isTimeSynchronized h w); repeat split; reflexivity.
Qed.

Lemma emit_frame (h : nat) (ev : Event) (w : World) :
  let w' := emit h ev w in
  localPeer w' = localPeer w /\ clock w' = clock w /\ ticks w' = ticks w
  /\ registry w' = registry w /\ immediates w' = immediates w.
Proof.
  cbv zeta. unfold emit.
  destruct (peers w !! h) as [ p | ]; [ | repeat split; reflexivity ].
  change (localPeer w) with (localPeer (effect (Emitted h ev) w)).
  change (clock w) with (clock (effect (Emitted h ev) w)).
  change (ticks w) with (ticks (effect (Emitted h ev) w)).
  change (registry w) with (registry (effect (Emitted h ev) w)).
  change (immediates w) with (immediates (effect (Emitted h ev) w)).
  generalize (effect (Emitted h ev) w) as w0.
  induction (listeners_of ev p) as [ | l ls IH ]; intros w0; cbn [foldl].
  - repeat split; reflexivity.
  - destruct (IH (run_listener h ev l w0)) as (H1 & H2 & H3 & H4 & H5).
    destruct (run_listener_frame h ev l w0) as (G1 & G2 & G3 & G4 & G5).
    cbv zeta in G1, G2, G3, G4, G5.
    rewrite H1, H2, H3, H4, H5, G1, G2, G3, G4, G5. repeat split; reflexivity.
Qed.


(** *** The sample of one exchange *)

Lemma last_push (x : Q) (r : BasicNumericStatsTracker.t) :
  (1 <= capacity r)%nat -> last (buffer (push x r)) = Some x.
Proof.
  intros Hc. unfold push. cbn [buffer].
  destruct (capacity r <? length (buffer r ++ [x]))%nat eqn:E.
  - apply Nat.ltb_lt in E. rewrite length_app in E. cbn [length] in E.
    destruct (buffer r) as [ | y ys ]; [ cbn in E; lia | ].
    cbn [app tail]. apply last_snoc.
  - apply last_snoc.
Qed.

Lemma length_push_ge (x : Q) (r : BasicNumericStatsTracker.t) (n : nat) :
  (n <= capacity r)%nat -> (n <= S (length (buffer r)))%nat ->
  (n <= length (buffer (push x r)))%nat.
Proof.
  intros Hc Hn. unfold push. cbn [buffer].
  destruct (capacity r <? length (buffer r ++ [x]))%nat eqn:E.
  - apply Nat.ltb_lt in E. rewrite length_tl. lia.
  - rewrite length_app. cbn [length]. lia.
Qed.

(** X10.  One timekeep exchange between two machines, each with its own
    clock.  [_sendTimekeepRequest] on a remote peer sends the requester's
    clock reading [t0]; the listener of the other side answers with [t0]
    and its own clock reading [tb]; the requester's listener reads its
    clock again ([t1]) and pushes the sample [tb - (t0 + t1) / 2] as the
    newest sample of the ring.  So when the responder's clock is ahead by
    [offset] and the message takes [d1] to go and [d2] to come back, the
    sample is [offset + (d1 - d2) / 2]: exactly the offset when the two
    delays are equal. *)
Theorem timekeep_exchange (wa wb : World) (h g : nat) (p : Peer) :
  peers wa !! h = Some p ->
  isLocal p = false ->
  well_registered p ->
  ring_bounded p ->
  let t0 := clock wa (ticks wa) in
  let tb := clock wb (ticks wb) in
  let t1 := clock wa (S (ticks wa)) in
  let wa1 := _sendTimekeepRequest h wa in
  let wb1 := handle_timekeepRequest g t0 wb in
  let wa2 := handle_timekeepResponse h t0 tb wa1 in
  trace wa1 = trace wa ++ [Sent h (timekeepRequest t0)]
  /\ trace wb1 = trace wb ++ [Sent g (timekeepResponse t0 tb)]
  /\ exists (p' : Peer) (sample : Q),
       peers wa2 !! h = Some p'
       /\ last (buffer (timedeltas p')) = Some sample
       /\ (sample == tb - (t0 + t1) / 2)%Q
       /\ (forall offset d1 d2 : Q,
             (tb == t0 + d1 + offset)%Q -> (t1 == t0 + d1 + d2)%Q ->
             (sample == offset + (d1 - d2) / 2)%Q).
Proof.
  intros Hp Hremote Hwr Hrb. cbv zeta.
  unfold _sendTimekeepRequest. rewrite Hp, Hremote. cbn [now].
  split; [ reflexivity | ].
  split; [ reflexivity | ].
  set (wa1 := sendControllerMessage h _ _).
  destruct (timekeepResponse_step wa1 h p (clock wa (ticks wa))
              (clock wb (ticks wb)) Hp Hwr Hrb)
    as (p' & new & Hp' & _ & Hring & _).
  exists p', (delta_sample (clock wa (S (ticks wa))) (clock wa (ticks wa))
                (clock wb (ticks wb))).
  split; [ exact Hp' | ].
  split.
  { rewrite Hring. apply last_push. destruct Hrb as [-> _].
    unfold TIME_DELTAS_TO_KEEP. lia. }
  unfold delta_sample.
  split.
  { unfold Qdiv. change (/ 2)%Q with (1 # 2)%Q. ring. }
  intros offset d1 d2 Hb H1. rewrite Hb, H1.
  unfold Qdiv. change (/ 2)%Q with (1 # 2)%Q. ring.
Qed.

Lemma timekeep_exchange_witness :
  let wa := world_with_samples 3 in
  let wb := empty_world (fun n => inject_Z (5000 + 40 * Z.of_nat n)) in
  let t0 := clock wa (ticks wa) in
  let tb := clock wb (ticks wb) in
  let t1 := clock wa (S (ticks wa)) in
  let wa1 := _sendTimekeepRequest 1 wa in
  let wb1 := handle_timekeepRequest 0 t0 wb in
  let wa2 := handle_timekeepResponse 1 t0 tb wa1 in
  trace wa1 = trace wa ++ [Sent 1%nat (timekeepRequest t0)]
  /\ trace wb1 = trace wb ++ [Sent 0%nat (timekeepResponse t0 tb)]
  /\ exists (p' : Peer) (sample : Q),
       peers wa2 !! 1%nat = Some p'
       /\ last (buffer (timedeltas p')) = Some sample
       /\ (sample == tb - (t0 + t1) / 2)%Q
       /\ (forall offset d1 d2 : Q,
             (tb == t0 + d1 + offset)%Q -> (t1 == t0 + d1 + d2)%Q ->
             (sample == offset + (d1 - d2) / 2)%Q).
Proof.
  apply (timekeep_exchange (world_with_samples 3)
           (empty_world (fun n => inject_Z (5000 + 40 * Z.of_nat n)))
           1 0 (peer_with_samples 3)).
  - reflexivity.
  - reflexivity.
  - unfold well_registered. repeat constructor.
  - split; [ reflexivity | ]. apply Nat.leb_le. reflexivity.
Defined.



(** *** [waitForFirstTimeSync] *)

Lemma length_push_room (x : Q) (r : BasicNumericStatsTracker.t) :
  (length (buffer r) < capacity r)%nat ->
  length (buffer (push x r)) = S (length (buffer r)).
Proof.
  intros H. unfold push. cbn [buffer].
  destruct (capacity r <? length (buffer r ++ [x]))%nat eqn:E.
  - apply Nat.ltb_lt in E. rewrite length_app in E. cbn [length] in E. lia.
  - rewrite length_app. cbn [length]. lia.
Qed.

(** On [timedeltaUpdated] a well-formed table holds listeners of other
    modules only: emitting it changes no peer and resolves nothing. *)
Lemma emit_timedeltaUpdated_frame (h : nat) (w : World) (p : Peer) :
  peers w !! h = Some p -> well_registered p ->
  peers (emit h timedeltaUpdated w) = peers w
  /\ resolved (emit h timedeltaUpdated w) = resolved w
  /\ nextPromise (emit h timedeltaUpdated w) = nextPromise w.
Proof.
  intros Hp Hwr. unfold emit. rewrite Hp.
  pose proof (listeners_of_registered timedeltaUpdated p Hwr) as Hls.
  assert (H : forall w0 : World,
             let w' := foldl (fun w l => run_listener h timedeltaUpdated l w) w0
                         (listeners_of timedeltaUpdated p) in
             peers w' = peers w0 /\ resolved w' = resolved w0
             /\ nextPromise w' = nextPromise w0).
  { induction Hls as [ | l ls Hl Hls IH ]; intros w0; cbv zeta; cbn [foldl].
    - repeat split; reflexivity.
    - destruct (IH (run_listener h timedeltaUpdated l w0)) as (H1 & H2 & H3).
      rewrite H1, H2, H3. unfold run_listener.
      destruct (peers w0 !! h); [ | repeat split; reflexivity ].
      destruct l; cbn [registered_on] in Hl;
        try (apply bool_decide_eq_true in Hl; discriminate Hl).
      repeat split; reflexivity. }
  destruct (H (effect (Emitted h timedeltaUpdated) w)) as (H1 & H2 & H3).
  rewrite H1, H2, H3. repeat split; reflexivity.
Qed.

(** The timekeepResponse listener up to its last statement, the emission
    of [timesyncStateUpdated]. *)
Lemma handle_timekeepResponse_last_emit
    (h : nat) (sentAt respondedAt : Q) (w : World) (p : Peer) :
  peers w !! h = Some p -> well_registered p ->
  exists (wm : World) (pm : Peer),
    handle_timekeepResponse h sentAt respondedAt w
    = emit h timesyncStateUpdated wm
    /\ peers wm !! h = Some pm
    /\ timedeltas pm
       = push (delta_sample (clock w (ticks w)) sentAt respondedAt) (timedeltas p)
    /\ listeners pm = listeners p
    /\ resolved wm = resolved w
    /\ localPeer wm = localPeer w.
Proof.
  intros Hp Hwr. unfold handle_timekeepResponse. cbn [now].
  fold (delta_sample (clock w (ticks w)) sentAt respondedAt).
  set (delta := delta_sample (clock w (ticks w)) sentAt respondedAt).
  set (w0 := {| peers := peers w; registry := registry w; localPeer := localPeer w;
                immediates := immediates w; resolved := resolved w;
                nextPromise := nextPromise w; trace := trace w; clock := clock w;
                ticks := S (ticks w) |}).
  set (w1 := update_peer h (set_timedeltas (push delta)) w0).
  set (p1 := set_timedeltas (push delta) p).
  assert (Hp1 : peers w1 !! h = Some p1) by (apply lookup_update_peer_eq; exact Hp).
  rewrite Hp1.
  assert (Hplain : exists (wm : World) (pm : Peer),
             emit h timesyncStateUpdated w1 = emit h timesyncStateUpdated wm
             /\ peers wm !! h = Some pm
             /\ timedeltas pm = push delta (timedeltas p)
             /\ listeners pm = listeners p
             /\ resolved wm = resolved w
             /\ localPeer wm = localPeer w).
  { exists w1, p1. repeat split; [ exact Hp1 ]. }
  destruct (full TIMESYNC_INIT_REQUEST_COUNT (timedeltas p1)); [ | exact Hplain ].
  destruct (Qlt_le_dec _ _); [ | exact Hplain ].
  set (w2 := update_peer h (set_timeDelta (median (timedeltas p1))) w1).
  assert (Hp2 : peers w2 !! h = Some (set_timeDelta (median (timedeltas p1)) p1))
    by (apply lookup_update_peer_eq; exact Hp1).
  destruct (emit_timedeltaUpdated_frame h w2 _ Hp2 Hwr) as (E1 & E2 & _).
  exists (emit h timedeltaUpdated w2), (set_timeDelta (median (timedeltas p1)) p1).
  split; [ reflexivity | ].
  split; [ rewrite E1; exact Hp2 | ].
  split; [ reflexivity | ].
  split; [ reflexivity | ].
  split; [ rewrite E2; reflexivity | ].
  destruct (emit_frame h timedeltaUpdated w2) as (F1 & _). exact F1.
Qed.

Lemma listeners_of_ext (ev : Event) (p q : Peer) :
  listeners q = listeners p -> listeners_of ev q = listeners_of ev p.
Proof. intros H. unfold listeners_of. rewrite H. reflexivity. Qed.

(** One response while the handler of [waitForFirstTimeSync] is the only
    listener of [timesyncStateUpdated]. *)
Lemma response_with_handler
    (h : nat) (sentAt respondedAt : Q) (w : World) (p : Peer) (promise : nat) :
  peers w !! h = Some p -> well_registered p -> h <> localPeer w ->
  listeners_of timesyncStateUpdated p = [waitForFirstTimeSync_handler promise] ->
  let ring := push (delta_sample (clock w (ticks w)) sentAt respondedAt)
                (timedeltas p) in
  let w' := handle_timekeepResponse h sentAt respondedAt w in
  exists p' : Peer,
    peers w' !! h = Some p'
    /\ timedeltas p' = ring
    /\ localPeer w' = localPeer w
    /\ (full TIMESYNC_INIT_REQUEST_COUNT ring = true ->
        resolved w' = resolved w /\ listeners p' = listeners p)
    /\ (full TIMESYNC_INIT_REQUEST_COUNT ring = false ->
        resolved w' = resolved w ++ [promise]
        /\ listeners p'
           = rev (remove_first
                    (timesyncStateUpdated, waitForFirstTimeSync_handler promise)
                    (rev (listeners p)))).
Proof.
  intros Hp Hwr Hremote Hone. cbv zeta.
  destruct (handle_timekeepResponse_last_emit h sentAt respondedAt w p Hp Hwr)
    as (wm & pm & -> & Hpm & Hring & Hl & Hres & Hlp).
  unfold emit. rewrite Hpm, (listeners_of_ext _ p pm Hl), Hone. cbn [foldl].
  unfold run_listener. rewrite peers_effect, Hpm.
  unfold isTimeSynchronized. rewrite peers_effect, localPeer_effect, Hpm, Hlp.
  rewrite bool_decide_eq_false_2 by exact Hremote. cbn [orb]. rewrite Hring.
  destruct (full TIMESYNC_INIT_REQUEST_COUNT _) eqn:Hfull.
  - exists pm. rewrite peers_effect, resolved_effect, localPeer_effect.
    split; [ exact Hpm | ]. split; [ exact Hring | ]. split; [ exact Hlp | ].
    split; [ intros _; split; assumption | discriminate ].
  - exists (removeListener timesyncStateUpdated
              (waitForFirstTimeSync_handler promise) pm).
    rewrite peers_resolve, resolved_resolve, localPeer_resolve.
    rewrite resolved_update_peer, localPeer_update_peer.
    rewrite resolved_effect, localPeer_effect.
    split.
    { apply (lookup_update_peer_eq h _ (effect _ wm) pm). exact Hpm. }
    split; [ exact Hring | ]. split; [ exact Hlp | ].
    split; [ discriminate | ].
    intros _. split; [ rewrite Hres; reflexivity | ].
    unfold removeListener. cbn [set_listeners listeners]. rewrite Hl. reflexivity.
Qed.

(** While the ring is full, responses resolve nothing. *)
Lemma responses_while_full (h : nat) (promise : nat) (msgs : list (Q * Q)) :
  forall (w : World) (p : Peer),
    peers w !! h = Some p -> well_registered p -> ring_bounded p ->
    h <> localPeer w ->
    listeners_of timesyncStateUpdated p = [waitForFirstTimeSync_handler promise] ->
    (TIMESYNC_INIT_REQUEST_COUNT <= length (buffer (timedeltas p)))%nat ->
    let w' := foldl (fun w m => handle_timekeepResponse h m.1 m.2 w) w msgs in
    resolved w' = resolved w /\ isTimeSynchronized h w' = true.
Proof.
  induction msgs as [ | [sentAt respondedAt] msgs IH ];
    intros w p Hp Hwr Hrb Hremote Hone Hfull; cbv zeta; cbn [foldl fst snd].
  - split; [ reflexivity | ].
    unfold isTimeSynchronized, full. rewrite Hp.
    apply orb_true_iff. right. apply Nat.leb_le. exact Hfull.
  - destruct (response_with_handler h sentAt respondedAt w p promise
                Hp Hwr Hremote Hone) as (p' & Hp' & Hring & Hlp & Hyes & _).
    assert (Hfull' : (TIMESYNC_INIT_REQUEST_COUNT
                      <= length (buffer (timedeltas p')))%nat).
    { rewrite Hring. destruct Hrb as [Hc Hl].
      apply length_push_ge; rewrite ?Hc;
        unfold TIMESYNC_INIT_REQUEST_COUNT, TIME_DELTAS_TO_KEEP in *; lia. }
    destruct Hyes as [Hres Hl'].
    { unfold full. rewrite <- Hring. apply Nat.leb_le. exact Hfull'. }
    destruct (IH _ p' Hp') as [IH1 IH2].
    + unfold well_registered. rewrite Hl'. exact Hwr.
    + unfold ring_bounded. rewrite Hring.
      apply (ring_bounded_push _ p Hrb).
    + rewrite Hlp. exact Hremote.
    + rewrite (listeners_of_ext _ p p' Hl'). exact Hone.
    + exact Hfull'.
    + cbv zeta in IH1, IH2. rewrite IH1, Hres. split; [ reflexivity | exact IH2 ].
Qed.

(** X12.  What [waitForFirstTimeSync] waits for, on a remote peer on which
    nothing else listens to [timesyncStateUpdated].  With ten samples or
    more in the ring the promise is resolved at once.  With fewer than
    nine samples it is resolved by the next timekeepResponse, after which
    the peer is still not time synchronized: the handler resolves when
    [isTimeSynchronized()] is false.  With exactly nine samples the next
    response makes the peer time synchronized and the promise is not
    resolved, neither by that response nor by any number of further
    responses. *)
Theorem waitForFirstTimeSync_resolution (w : World) (h : nat) (p : Peer) :
  peers w !! h = Some p ->
  h <> localPeer w ->
  well_registered p ->
  ring_bounded p ->
  listeners_of timesyncStateUpdated p = [] ->
  let samples := length (buffer (timedeltas p)) in
  let promise := nextPromise w in
  let w1 := (waitForFirstTimeSync h w).2 in
  (waitForFirstTimeSync h w).1 = promise
  /\ ((10 <= samples)%nat -> resolved w1 = resolved w ++ [promise])
  /\ ((samples < 10)%nat -> resolved w1 = resolved w)
  /\ ((samples < 9)%nat ->
      forall sentAt respondedAt : Q,
        let w2 := handle_timekeepResponse h sentAt respondedAt w1 in
        resolved w2 = resolved w ++ [promise]
        /\ isTimeSynchronized h w2 = false)
  /\ (samples = 9%nat ->
      forall (m : Q * Q) (msgs : list (Q * Q)),
        let w2 := foldl (fun w m => handle_timekeepResponse h m.1 m.2 w) w1
                    (m :: msgs) in
        resolved w2 = resolved w /\ isTimeSynchronized h w2 = true).
Proof.
  intros Hp Hremote Hwr Hrb Hnone. cbv zeta.
  unfold waitForFirstTimeSync. cbn [new_promise].
  set (w0 := {| peers := peers w; registry := registry w; localPeer := localPeer w;
                immediates := immediates w; resolved := resolved w;
                nextPromise := S (nextPromise w); trace := trace w;
                clock := clock w; ticks := ticks w |}).
  assert (Hsync : isTimeSynchronized h w0
                  = full TIMESYNC_INIT_REQUEST_COUNT (timedeltas p)).
  { unfold isTimeSynchronized. cbn [peers localPeer w0]. rewrite Hp.
    rewrite bool_decide_eq_false_2 by exact Hremote. reflexivity. }
  rewrite Hsync.
  set (handler := waitForFirstTimeSync_handler (nextPromise w)).
  set (w1 := update_peer h (addListener timesyncStateUpdated handler) w0).
  set (p1 := addListener timesyncStateUpdated handler p).
  assert (Hp1 : peers w1 !! h = Some p1)
    by exact (lookup_update_peer_eq h
                (addListener timesyncStateUpdated handler) w0 p Hp).
  assert (Hwr1 : well_registered p1).
  { unfold well_registered, p1, addListener. cbn [set_listeners listeners].
    apply Forall_app. split; [ exact Hwr | ].
    constructor; [ reflexivity | constructor ]. }
  assert (Hone : listeners_of timesyncStateUpdated p1 = [handler]).
  { unfold listeners_of, p1, addListener. cbn [set_listeners listeners].
    rewrite filter_app, map_app. fold (listeners_of timesyncStateUpdated p).
    rewrite Hnone. reflexivity. }
  destruct (full TIMESYNC_INIT_REQUEST_COUNT (timedeltas p)) eqn:Hfull;
    unfold full in Hfull.
  - apply Nat.leb_le in Hfull. unfold TIMESYNC_INIT_REQUEST_COUNT in Hfull.
    split; [ reflexivity | ]. split; [ intros _; reflexivity | ].
    repeat split; intros; lia.
  - apply Nat.leb_gt in Hfull. unfold TIMESYNC_INIT_REQUEST_COUNT in Hfull.
    cbn [fst snd]. fold w1.
    split; [ reflexivity | ]. split; [ intros; lia | ].
    split; [ intros _; reflexivity | ].
    split.
    + intros Hfew sentAt respondedAt.
      destruct (response_with_handler h sentAt respondedAt w1 p1 (nextPromise w)
                  Hp1 Hwr1 Hremote Hone) as (p' & Hp' & Hring & Hlp & _ & Hno).
      assert (Hlen : length (buffer (timedeltas p'))
                     = S (length (buffer (timedeltas p)))).
      { rewrite Hring. apply length_push_room. destruct Hrb as [Hc Hl].
        cbn [p1 addListener set_listeners timedeltas]. rewrite Hc.
        unfold TIME_DELTAS_TO_KEEP. lia. }
      assert (Hnot : full TIMESYNC_INIT_REQUEST_COUNT (timedeltas p') = false).
      { unfold full. apply Nat.leb_gt. rewrite Hlen.
        unfold TIMESYNC_INIT_REQUEST_COUNT. lia. }
      destruct Hno as [Hres _]; [ rewrite <- Hring; exact Hnot | ].
      split; [ exact Hres | ].
      unfold isTimeSynchronized. rewrite Hp', Hlp.
      rewrite bool_decide_eq_false_2 by exact Hremote. exact Hnot.
    + intros Hnine [sentAt respondedAt] msgs. cbv zeta. cbn [foldl fst snd].
      destruct (response_with_handler h sentAt respondedAt w1 p1 (nextPromise w)
                  Hp1 Hwr1 Hremote Hone) as (p' & Hp' & Hring & Hlp & Hyes & _).
      assert (Hlen : length (buffer (timedeltas p')) = 10%nat).
      { rewrite Hring, length_push_room; cbn [p1 addListener set_listeners timedeltas].
        - rewrite Hnine. reflexivity.
        - destruct Hrb as [Hc Hl]. rewrite Hc. unfold TIME_DELTAS_TO_KEEP. lia. }
      destruct Hyes as [Hres Hl'].
      { unfold full. rewrite <- Hring, Hlen. reflexivity. }
      destruct (responses_while_full h (nextPromise w) msgs _ p' Hp')
        as [R1 R2].
      * unfold well_registered. rewrite Hl'. exact Hwr1.
      * unfold ring_bounded. rewrite Hring. apply (ring_bounded_push _ p1), Hrb.
      * rewrite Hlp. exact Hremote.
      * rewrite (listeners_of_ext _ p1 p' Hl'). exact Hone.
      * rewrite Hlen. reflexivity.
      * cbv zeta in R1, R2. rewrite R1, Hres. split; [ reflexivity | exact R2 ].
Qed.

Lemma waitForFirstTimeSync_resolution_witness :
  let w := world_with_samples 3 in
  let w1 := (waitForFirstTimeSync 1 w).2 in
  (waitForFirstTimeSync 1 w).1 = 0%nat
  /\ resolved w1 = []
  /\ resolved (handle_timekeepResponse 1 960 1117 w1) = [0%nat]
  /\ isTimeSynchronized 1 (handle_timekeepResponse 1 960 1117 w1) = false.
Proof.
  destruct (waitForFirstTimeSync_resolution (world_with_samples 3) 1
              (peer_with_samples 3))
    as (Hid & _ & Hpending & Hnext & _).
  - reflexivity.
  - discriminate.
  - unfold well_registered. repeat constructor.
  - split; [ reflexivity | ]. apply Nat.leb_le. reflexivity.
  - reflexivity.
  - cbv zeta in Hid, Hpending, Hnext. cbv zeta.
    split; [ exact Hid | ].
    split; [ apply Hpending; apply Nat.ltb_lt; reflexivity | ].
    apply Hnext. apply Nat.ltb_lt. reflexivity.
Defined.

End PeerSyncFacts.

(** ** The peer link: life cycle *)

Module PeerLifecycleFacts.
Import BasicNumericStatsTracker Peer PeerFacts PeerSyncFacts PeerLifecycle.

(** *** The deferred [stateChange] event *)

(** The run of one pending [setImmediate] callback of [setState], on a
    peer that carries the constructor's [stateChange] listener and no
    other. *)
Lemma single_callback (w0 : World) (h : nat) (q : Peer) (s : PeerState) :
  peers w0 !! h = Some q ->
  state q = s ->
  immediates w0 = [ {| im_peer := h; im_state := s |} ] ->
  listeners_of stateChange q = [on_stateChange] ->
  let w' := run_immediates w0 in
  immediates w' = []
  /\ registry w' = registry w0
  /\ (s = connected ->
      peers w' !! h = Some q
      /\ trace w'
         = trace w0
           ++ [ Emitted h stateChange; ManagerEmitted "newConnectedPeer" (Some h) ]
           ++ (if isLocal q then [] else initial_timekeep_requests h)
           ++ [ ManagerEmitted "peerChange" (Some h);
                ManagerEmitted "connectedPeer" (Some h) ])
  /\ (s <> connected ->
      peers w' !! h = Some (set_timedeltas flush q)
      /\ trace w'
         = trace w0
           ++ [ Emitted h stateChange; ManagerEmitted "peerChange" (Some h) ]).
Proof.
  intros Hq Hs Himm Hone. cbv zeta.
  unfold run_immediates. rewrite Himm. cbn [length Nat.iter nat_rect].
  unfold run_immediate. rewrite Himm.
  set (w2 := set_immediates (fun _ => []) w0).
  assert (Hq2 : peers w2 !! h = Some q) by exact Hq.
  assert (Hi2 : immediates w2 = []) by reflexivity.
  assert (Ht2 : trace w2 = trace w0) by reflexivity.
  assert (Hr2 : registry w2 = registry w0) by reflexivity.
  unfold run_immediate_callback. cbn [im_peer im_state].
  unfold emit. rewrite Hq2, Hone. cbn [foldl].
  unfold run_listener. rewrite peers_effect, Hq2, Hs.
  destruct (decide (s = connected)) as [ Hc | Hnc ].
  - rewrite decide_False by (intros H; apply H; exact Hc).
    destruct (isLocal q).
    + autorewrite with world. rewrite Hi2, Ht2, Hr2, <- !app_assoc.
      split; [ reflexivity | ]. split; [ reflexivity | ].
      split; [ intros _; split; [ exact Hq2 | reflexivity ] | ].
      intros Hn. contradiction.
    + destruct (foldl_effect_frame (fun i => SetTimeout h (Z.of_nat i * 10))
                  (seq 0 TIMESYNC_INIT_REQUEST_COUNT)
                  (effect (ManagerEmitted "newConnectedPeer" (Some h))
                     (effect (Emitted h stateChange) w2)))
        as (F1 & F2 & _ & F4 & _ & _ & _ & _ & F9).
      cbv zeta in F1, F2, F4, F9.
      autorewrite with world. rewrite F1, F2, F4, F9.
      autorewrite with world. rewrite Hi2, Ht2, Hr2, <- !app_assoc.
      split; [ reflexivity | ]. split; [ reflexivity | ].
      split; [ intros _; split; [ exact Hq2 | reflexivity ] | ].
      intros Hn. contradiction.
  - rewrite decide_True by exact Hnc.
    autorewrite with world. rewrite Hi2, Ht2, Hr2, <- !app_assoc.
    split; [ reflexivity | ]. split; [ reflexivity | ].
    split; [ intros Hc; contradiction | ].
    intros _. split; [ | reflexivity ].
    apply (lookup_update_peer_eq h (set_timedeltas flush)
             (effect (Emitted h stateChange) w2) q).
    exact Hq2.
Qed.

(** X13.  What the deferred [stateChange] event does on a peer that
    carries the constructor's listener.  After [setState(s)] and the run of
    the pending callback: when [s] is connected, the manager is told of the
    new connected peer and, on a remote peer, exactly ten timekeep
    requests are scheduled at 0, 10, ..., 90 ms (none on the local peer),
    the ring being left as it is; when [s] is another state, the ring of
    samples is flushed and no request is scheduled.  In both cases no
    callback is left pending. *)
Theorem stateChange_event (w : World) (h : nat) (p : Peer) (s : PeerState) :
  peers w !! h = Some p ->
  state p <> deleted -> state p <> s ->
  immediates w = [] ->
  listeners_of stateChange p = [on_stateChange] ->
  let w' := run_immediates (setState h s w) in
  immediates w' = []
  /\ (s = connected ->
      peers w' !! h = Some (set_state connected p)
      /\ trace w'
         = trace w
           ++ [ Emitted h stateChange; ManagerEmitted "newConnectedPeer" (Some h) ]
           ++ (if isLocal p then [] else initial_timekeep_requests h)
           ++ [ ManagerEmitted "peerChange" (Some h);
                ManagerEmitted "connectedPeer" (Some h) ])
  /\ (s <> connected ->
      peers w' !! h = Some (set_timedeltas flush (set_state s p))
      /\ trace w'
         = trace w
           ++ [ Emitted h stateChange; ManagerEmitted "peerChange" (Some h) ]).
Proof.
  intros Hp Hlive Hs Himm Hone. cbv zeta.
  rewrite (setState_live h s w p Hp Hs Hlive).
  set (w0 := set_immediates _ _).
  assert (Hq : peers w0 !! h = Some (set_state s p)).
  { unfold w0. rewrite peers_set_immediates.
    apply (lookup_update_peer_eq h (set_state s) w p Hp). }
  assert (Hi : immediates w0 = [ {| im_peer := h; im_state := s |} ]).
  { unfold w0. rewrite immediates_set_immediates, immediates_update_peer, Himm.
    reflexivity. }
  assert (Ht : trace w0 = trace w).
  { unfold w0. rewrite trace_set_immediates. apply trace_update_peer. }
  destruct (single_callback w0 h (set_state s p) s Hq eq_refl Hi Hone)
    as (H1 & _ & H2 & H3).
  cbv zeta in H1, H2, H3. rewrite Ht in H2, H3.
  split; [ exact H1 | ].
  split; [ intros Hc; subst s; apply (H2 eq_refl) | exact H3 ].
Qed.

Lemma stateChange_event_witness :
  let w' := run_immediates (setState one_peer_world.1 connected one_peer_world.2) in
  immediates w' = []
  /\ peers w' !! one_peer_world.1 = Some (set_state connected fresh_peer)
  /\ trace w'
     = trace one_peer_world.2
       ++ [ Emitted one_peer_world.1 stateChange;
            ManagerEmitted "newConnectedPeer" (Some one_peer_world.1) ]
       ++ initial_timekeep_requests one_peer_world.1
       ++ [ ManagerEmitted "peerChange" (Some one_peer_world.1);
            ManagerEmitted "connectedPeer" (Some one_peer_world.1) ].
Proof.
  destruct (stateChange_event one_peer_world.2 one_peer_world.1 fresh_peer connected)
    as (Hi & Hc & _).
  - reflexivity.
  - discriminate.
  - discriminate.
  - reflexivity.
  - reflexivity.
  - cbv zeta. split; [ exact Hi | ]. exact (Hc eq_refl).
Defined.

(** *** Messages that arrive after [destroy] *)

Lemma onReceivedMessage_no_listener
    (h : nat) (m : ControllerMessage) (w : World) (q : Peer) :
  peers w !! h = Some q -> listeners q = [] ->
  _onReceivedMessage h m w
  = effect (ManagerEmitted "controllerMessage" (Some h))
      (effect (Emitted h (controllerMessage (message_type m)))
         (effect (Emitted h controllerMessage_all)
            (update_peer h
               (fun p => set_timers (timekeepInterval p) (negb (isLocal p)) p) w))).
Proof.
  intros Hq Hl. unfold _onReceivedMessage.
  set (w1 := update_peer h _ w).
  assert (Hq1 : peers w1 !! h
                = Some (set_timers (timekeepInterval q) (negb (isLocal q)) q)).
  { apply (lookup_update_peer_eq h
             (fun p => set_timers (timekeepInterval p) (negb (isLocal p)) p) w q Hq). }
  assert (Hnone : forall ev,
             listeners_of ev (set_timers (timekeepInterval q) (negb (isLocal q)) q)
             = []).
  { intros ev. unfold listeners_of. cbn [set_timers listeners]. rewrite Hl.
    reflexivity. }
  unfold emit_message at 2. rewrite Hq1, Hnone. cbn [foldl].
  unfold emit_message. rewrite peers_effect, Hq1, Hnone. reflexivity.
Qed.

Lemma messages_after_destroy (h : nat) (p : Peer) (msgs : list ControllerMessage) :
  forall (w : World) (watchdog : bool),
    peers w !! h = Some (set_timers false watchdog (destroyed p)) ->
    let w' := foldl (fun w m => _onReceivedMessage h m w) w msgs in
    (exists watchdog' : bool,
        peers w' !! h = Some (set_timers false watchdog' (destroyed p)))
    /\ (forall h', h' <> h -> peers w' !! h' = peers w !! h')
    /\ registry w' = registry w
    /\ resolved w' = resolved w
    /\ immediates w' = immediates w
    /\ ticks w' = ticks w
    /\ exists extra, trace w' = trace w ++ extra /\ Forall is_notification extra.
Proof.
  induction msgs as [ | m msgs IH ]; intros w watchdog Hq; cbv zeta; cbn [foldl].
  - split; [ exists watchdog; exact Hq | ].
    split; [ reflexivity | ].
    repeat (split; [ reflexivity | ]).
    exists []. split; [ symmetry; apply app_nil_r | constructor ].
  - rewrite (onReceivedMessage_no_listener h m w _ Hq) by reflexivity.
    set (w1 := effect _ _).
    assert (Hq1 : peers w1 !! h
                  = Some (set_timers false (negb (isLocal p)) (destroyed p))).
    { unfold w1. rewrite !peers_effect.
      apply (lookup_update_peer_eq h
               (fun p => set_timers (timekeepInterval p) (negb (isLocal p)) p)
               w _ Hq). }
    destruct (IH w1 _ Hq1) as (Hp' & Hothers & Hreg & Hres & Himm & Hticks
                               & extra & Htrace & Hextra).
    cbv zeta in Hp', Hothers, Hreg, Hres, Himm, Hticks, Htrace.
    split; [ exact Hp' | ].
    split.
    { intros h' Hne. rewrite (Hothers h' Hne). unfold w1. rewrite !peers_effect.
      apply lookup_update_peer_ne. congruence. }
    rewrite Hreg, Hres, Himm, Hticks.
    repeat (split; [ reflexivity | ]).
    exists ([ Emitted h controllerMessage_all;
              Emitted h (controllerMessage (message_type m));
              ManagerEmitted "controllerMessage" (Some h) ] ++ extra).
    split.
    { rewrite Htrace. unfold w1. rewrite !trace_effect, trace_update_peer.
      rewrite <- !app_assoc. reflexivity. }
    repeat (constructor; [ exact I | ]). exact Hextra.
Qed.

(** X14.  A destroyed peer is out of reach of the network.  After
    [destroy] on a live peer, whatever messages are handed to
    [_onReceivedMessage] afterwards (a [peerInfo], a [timekeepResponse],
    ...), no listener of the peer runs: the peer stays deleted, unregistered
    and without listeners, its interval timer stays cleared, its committed
    delta and its ring are those it had, nothing is sent, no promise is
    resolved and the clock is not read; only the watchdog is armed again
    and the emitters are notified.  A later [destroy], and the expiry of
    the watchdog, change nothing. *)
Theorem destroyed_peer_ignores_messages
    (w : World) (h : nat) (p : Peer) (a r : bool) (msgs : list ControllerMessage) :
  peers w !! h = Some p ->
  state p <> deleted ->
  let w1 := destroy h a r w in
  let w2 := foldl (fun w m => _onReceivedMessage h m w) w1 msgs in
  (exists watchdog : bool,
      peers w2 !! h = Some (set_timers false watchdog (destroyed p)))
  /\ state_of h w2 = Some deleted
  /\ (forall h', h' <> h -> peers w2 !! h' = peers w !! h')
  /\ registry w2 = filter (fun h' => h' <> h) (registry w)
  /\ resolved w2 = resolved w
  /\ immediates w2 = immediates w1
  /\ ticks w2 = ticks w
  /\ (exists extra, trace w2 = trace w1 ++ extra /\ Forall is_notification extra)
  /\ (forall a' r' : bool, destroy h a' r' w2 = w2)
  /\ handleNoResponseTimeout h w2 = w2.
Proof.
  intros Hp Hlive. cbv zeta.
  pose proof (destroy_live h a r w p Hp Hlive) as Hd.
  set (w1 := destroy h a r w) in *.
  assert (Hq : peers w1 !! h
               = Some (set_timers false (missingPeerResponseTimeout p) (destroyed p))).
  { rewrite Hd. cbn [peers]. apply lookup_insert_eq. }
  destruct (messages_after_destroy h p msgs w1 _ Hq)
    as ((wd & Hp2) & Hothers & Hreg & Hres & Himm & Hticks & Htrace).
  cbv zeta in Hp2, Hothers, Hreg, Hres, Himm, Hticks, Htrace.
  set (w2 := foldl _ w1 msgs) in *.
  assert (Hnoop : forall a' r' : bool, destroy h a' r' w2 = w2).
  { intros a' r'. unfold destroy. rewrite Hp2.
    rewrite decide_True by reflexivity. reflexivity. }
  split; [ exists wd; exact Hp2 | ].
  split; [ unfold state_of; rewrite Hp2; reflexivity | ].
  split.
  { intros h' Hne. rewrite (Hothers h' Hne), Hd. cbn [peers].
    apply lookup_insert_ne. congruence. }
  split; [ rewrite Hreg, Hd; reflexivity | ].
  split; [ rewrite Hres, Hd; reflexivity | ].
  split; [ exact Himm | ].
  split; [ rewrite Hticks, Hd; reflexivity | ].
  split; [ exact Htrace | ].
  split; [ exact Hnoop | apply Hnoop ].
Qed.

Lemma destroyed_peer_ignores_messages_witness :
  let w1 := destroy 1 true true nine_samples_world in
  let w2 := foldl (fun w m => _onReceivedMessage 1 m w) w1
              [ peerInfo restarted_descriptor false; timekeepResponse 960 1117 ] in
  state_of 1 w2 = Some deleted
  /\ registry w2 = []
  /\ resolved w2 = []
  /\ handleNoResponseTimeout 1 w2 = w2.
Proof.
  destruct (destroyed_peer_ignores_messages nine_samples_world 1 nine_samples_peer
              true true
              [ peerInfo restarted_descriptor false; timekeepResponse 960 1117 ])
    as (_ & Hs & _ & Hreg & Hres & _ & _ & _ & _ & Hw).
  - reflexivity.
  - discriminate.
  - cbv zeta. split; [ exact Hs | ]. split; [ exact Hreg | ].
    split; [ exact Hres | exact Hw ].
Defined.

(** *** The [peerInfo] listener and the registry *)

(** What [peerInfo_accept] does to the peers, whatever the state of the
    receiving link. *)
Lemma peerInfo_accept_parts (h : nat) (d : PeerDescriptor) (ss : bool) (w : World) :
  let w' := peerInfo_accept h d ss w in
  registry w' = registry w
  /\ (forall y, y <> h -> peers w' !! y = peers w !! y)
  /\ (exists rest, trace w' = trace w ++ rest)
  /\ match peers w !! h with
     | None => peers w' !! h = None
     | Some p =>
         exists p', peers w' !! h = Some p'
                    /\ uuid p' = d_uuid d
                    /\ instanceUuid p' = d_instanceUuid d
                    /\ listeners p' = listeners p
                    /\ state p' = (if decide (state p = deleted) then deleted
                                   else connected)
     end.
Proof.
  cbv zeta. unfold peerInfo_accept.
  set (w1 := update_peer h (set_descriptor d) w).
  set (w2 := match peers w1 !! h with Some _ => _ | None => _ end).
  assert (Hss : registry (if ss then effect SharedStateHandled w2 else w2)
                = registry w2
                /\ peers (if ss then effect SharedStateHandled w2 else w2) = peers w2
                /\ exists rest, trace (if ss then effect SharedStateHandled w2 else w2)
                                = trace w2 ++ rest).
  { destruct ss; (split; [ reflexivity | split; [ reflexivity | ] ]).
    - exists [SharedStateHandled]. reflexivity.
    - exists []. symmetry. apply app_nil_r. }
  destruct Hss as (-> & -> & rest & ->).
  destruct (peers w !! h) as [ p | ] eqn:Hp.
  - pose proof (lookup_update_peer_eq h (set_descriptor d) w p Hp) as Hp1.
    fold w1 in Hp1. unfold w2. rewrite Hp1.
    change (state (set_descriptor d p)) with (state p).
    destruct (decide (state p <> connected)) as [ Hnc | Hc ].
    + unfold setState. rewrite Hp1.
      change (state (set_descriptor d p)) with (state p).
      rewrite decide_False by exact Hnc.
      destruct (decide (state p = deleted)) as [ Hd | Hd ].
      * split; [ reflexivity | ].
        split; [ intros y Hy; apply lookup_update_peer_ne; congruence | ].
        split; [ exists rest; reflexivity | ].
        exists (set_descriptor d p).
        split; [ exact Hp1 | ]. repeat (split; [ reflexivity | ]). exact Hd.
      * split; [ reflexivity | ].
        split.
        { intros y Hy. rewrite peers_set_immediates.
          rewrite lookup_update_peer_ne by congruence.
          apply lookup_update_peer_ne. congruence. }
        split; [ exists rest; reflexivity | ].
        exists (set_state connected (set_descriptor d p)).
        split.
        { rewrite peers_set_immediates.
          apply (lookup_update_peer_eq h (set_state connected) w1 _ Hp1). }
        repeat (split; [ reflexivity | ]). reflexivity.
    + assert (Hst : state p = connected)
        by (destruct (decide (state p = connected)); [ assumption | contradiction ]).
      split; [ reflexivity | ].
      split; [ intros y Hy; apply lookup_update_peer_ne; congruence | ].
      split; [ exists rest; reflexivity | ].
      exists (set_descriptor d p).
      split; [ exact Hp1 | ]. repeat (split; [ reflexivity | ]).
      rewrite decide_False by (rewrite Hst; discriminate). exact Hst.
  - assert (Hsame : peers w1 = peers w) by (apply update_peer_missing; exact Hp).
    unfold w2. rewrite Hsame, Hp.
    split; [ reflexivity | ].
    split; [ intros y _; rewrite Hsame; reflexivity | ].
    split; [ exists rest; reflexivity | ].
    rewrite Hsame. exact Hp.
Qed.

(** A peer that is connected after [peerInfo_accept] is the receiving
    link under the incoming uuid, or was connected before. *)
Lemma connected_after_accept
    (h : nat) (d : PeerDescriptor) (ss : bool) (w : World) (u : string) (y : nat) :
  is_connected_with_uuid u (peerInfo_accept h d ss w) y = true ->
  (y = h /\ u = d_uuid d /\ state_of h w <> Some deleted)
  \/ (y <> h /\ is_connected_with_uuid u w y = true).
Proof.
  destruct (peerInfo_accept_parts h d ss w) as (_ & Hothers & _ & Hh).
  cbv zeta in Hothers, Hh. intros Hc.
  destruct (decide (y = h)) as [ -> | Hne ].
  - left. split; [ reflexivity | ].
    destruct (is_connected_with_uuid_true _ _ _ Hc) as (q & Hq & Hu & Hs).
    unfold state_of. destruct (peers w !! h) as [ p | ].
    + destruct Hh as (p' & Hp' & Hu' & _ & _ & Hs').
      rewrite Hp' in Hq. injection Hq as <-.
      split; [ congruence | ].
      cbn. intros [= Hd]. rewrite decide_True in Hs' by exact Hd. congruence.
    + congruence.
  - right. split; [ exact Hne | ].
    rewrite <- (is_connected_with_uuid_ext u w _ y (Hothers y Hne)). exact Hc.
Qed.

(** A peer that is connected after [destroy] of [x] is another peer, and
    was connected before. *)
Lemma connected_after_destroy
    (x : nat) (a r : bool) (w : World) (u : string) (y : nat) :
  is_connected_with_uuid u (destroy x a r w) y = true ->
  y <> x /\ is_connected_with_uuid u w y = true.
Proof.
  intros Hc.
  destruct (peers w !! x) as [ px | ] eqn:Hx.
  - destruct (decide (state px = deleted)) as [ Hd | Hlive ].
    + assert (Hsame : destroy x a r w = w).
      { unfold destroy. rewrite Hx, decide_True by exact Hd. reflexivity. }
      rewrite Hsame in Hc. split; [ | exact Hc ].
      intros ->. destruct (is_connected_with_uuid_true _ _ _ Hc) as (q & Hq & _ & Hs).
      congruence.
    + destruct (destroy_live_parts x a r w px Hx Hlive) as (Hp & _).
      destruct (decide (y = x)) as [ -> | Hne ].
      * exfalso. destruct (is_connected_with_uuid_true _ _ _ Hc) as (q & Hq & _ & Hs).
        rewrite Hp, lookup_insert_eq in Hq. injection Hq as <-. discriminate Hs.
      * split; [ exact Hne | ].
        rewrite <- (is_connected_with_uuid_ext u w (destroy x a r w) y); [ exact Hc | ].
        rewrite Hp. apply lookup_insert_ne. congruence.
  - assert (Hsame : destroy x a r w = w).
    { unfold destroy. rewrite Hx. reflexivity. }
    rewrite Hsame in Hc. split; [ | exact Hc ].
    intros ->. destruct (is_connected_with_uuid_true _ _ _ Hc) as (q & Hq & _).
    congruence.
Qed.

Lemma registry_after_destroy (x : nat) (a r : bool) (w : World) :
  (NoDup (registry w) -> NoDup (registry (destroy x a r w)))
  /\ (forall y, In y (registry (destroy x a r w)) -> In y (registry w)).
Proof.
  destruct (peers w !! x) as [ px | ] eqn:Hx.
  - destruct (decide (state px = deleted)) as [ Hd | Hlive ].
    + assert (Hsame : destroy x a r w = w).
      { unfold destroy. rewrite Hx, decide_True by exact Hd. reflexivity. }
      rewrite Hsame. split; intros; assumption.
    + destruct (destroy_live_parts x a r w px Hx Hlive) as (_ & -> & _).
      split.
      * apply NoDup_filter.
      * intros y Hy. apply list_elem_of_In, list_elem_of_filter in Hy.
        apply list_elem_of_In, Hy.
  - assert (Hsame : destroy x a r w = w).
    { unfold destroy. rewrite Hx. reflexivity. }
    rewrite Hsame. split; intros; assumption.
Qed.

Lemma at_most_one_witness (f : nat -> bool) (l : list nat) :
  (length (List.filter f l) <= 1)%nat ->
  exists a, forall x, In x l -> f x = true -> x = a.
Proof.
  intros Hlen.
  destruct (List.filter f l) as [ | a [ | b t ] ] eqn:E.
  - exists 0%nat. intros x Hx Hf.
    assert (Hin : In x (List.filter f l)) by (apply filter_In; split; assumption).
    rewrite E in Hin. destruct Hin.
  - exists a. intros x Hx Hf.
    assert (Hin : In x (List.filter f l)) by (apply filter_In; split; assumption).
    rewrite E in Hin. destruct Hin as [ <- | [] ]. reflexivity.
  - cbn in Hlen. lia.
Qed.

(** X15.  The duplicate resolution keeps the registry a singleton per
    uuid.  When each registered peer is registered once and at most one
    registered peer is connected under each stable uuid, the same holds
    after the [peerInfo] listener has run on any link with any descriptor:
    for the incoming uuid and for every other uuid, whether the lookup
    finds no peer, another peer or the receiving link itself, and whether
    the instance uuids agree or not. *)
Theorem peerInfo_keeps_singleton
    (w : World) (h : nat) (d : PeerDescriptor) (sharedState : bool) :
  singleton_per_uuid w ->
  singleton_per_uuid (handle_peerInfo h d sharedState w).
Proof.
  intros [Hnd Hone]. unfold handle_peerInfo.
  assert (Haccept : forall w0 : World,
            NoDup (registry w0) ->
            (forall (u : string) (x : nat),
               In x (registry w0) -> is_connected_with_uuid u w0 x = true ->
               x <> h -> u <> d_uuid d /\
               exists a, forall y, In y (registry w0) ->
                 is_connected_with_uuid u w0 y = true -> y = a) ->
            (forall u, u <> d_uuid d ->
               exists a, forall y, In y (registry w0) ->
                 is_connected_with_uuid u w0 y = true -> y = a) ->
            singleton_per_uuid (peerInfo_accept h d sharedState w0)).
  { intros w0 Hnd0 Hconn Hother.
    destruct (peerInfo_accept_parts h d sharedState w0) as (Hreg & _).
    cbv zeta in Hreg.
    split; [ rewrite Hreg; exact Hnd0 | ].
    intros u. unfold connected_with_uuid. rewrite Hreg.
    destruct (decide (u = d_uuid d)) as [ -> | Hu ].
    - apply (filter_at_most_one _ h _ Hnd0). intros x Hx Hc.
      destruct (connected_after_accept _ _ _ _ _ _ Hc) as [ (-> & _) | (Hne & Hc0) ];
        [ reflexivity | ].
      destruct (Hconn _ _ Hx Hc0 Hne) as [Hcontra _]. contradiction.
    - destruct (Hother u Hu) as [a Ha].
      apply (filter_at_most_one _ a _ Hnd0). intros x Hx Hc.
      destruct (connected_after_accept _ _ _ _ _ _ Hc) as [ (_ & -> & _) | (_ & Hc0) ];
        [ contradiction | ].
      apply Ha; assumption. }
  assert (Hwit : forall u, exists a, forall y, In y (registry w) ->
                   is_connected_with_uuid u w y = true -> y = a).
  { intros u. apply at_most_one_witness, Hone. }
  destruct (getConnectedPeerByUuid (d_uuid d) w) as [ e | ] eqn:Hfind.
  - pose proof (find_some _ _ Hfind) as [Hereg Heconn].
    destruct (is_connected_with_uuid_true _ _ _ Heconn) as (pe & Hpe & _ & _).
    rewrite Hpe.
    destruct (decide (instanceUuid pe = d_instanceUuid d)) as [ Hi | Hi ].
    + (* the receiving link is destroyed *)
      destruct (registry_after_destroy h false false w) as [Hnd' Hsub].
      split; [ apply Hnd', Hnd | ].
      intros u. destruct (Hwit u) as [a Ha].
      apply (filter_at_most_one _ a _ (Hnd' Hnd)). intros x Hx Hc.
      destruct (connected_after_destroy _ _ _ _ _ _ Hc) as [_ Hc0].
      apply Ha; [ apply Hsub, Hx | exact Hc0 ].
    + (* the peer found is destroyed, the receiving link is accepted *)
      destruct (registry_after_destroy e true false w) as [Hnd' Hsub].
      apply Haccept; [ apply Hnd', Hnd | | ].
      * intros u x Hx Hc Hne.
        destruct (connected_after_destroy _ _ _ _ _ _ Hc) as [Hxe Hc0].
        destruct (Hwit u) as [a Ha].
        split.
        { intros ->. apply Hxe.
          rewrite (Ha x (Hsub x Hx) Hc0), (Ha e Hereg Heconn). reflexivity. }
        exists a. intros y Hy Hcy.
        destruct (connected_after_destroy _ _ _ _ _ _ Hcy) as [_ Hcy0].
        apply Ha; [ apply Hsub, Hy | exact Hcy0 ].
      * intros u _. destruct (Hwit u) as [a Ha].
        exists a. intros y Hy Hcy.
        destruct (connected_after_destroy _ _ _ _ _ _ Hcy) as [_ Hcy0].
        apply Ha; [ apply Hsub, Hy | exact Hcy0 ].
  - (* no connected peer under the incoming uuid *)
    apply Haccept; [ exact Hnd | | ].
    + intros u x Hx Hc Hne.
      split.
      { intros ->. pose proof (find_none _ _ Hfind x Hx) as Hn. congruence. }
      apply Hwit.
    + intros u _. apply Hwit.
Qed.

Lemma peerInfo_keeps_singleton_witness :
  singleton_per_uuid two_links_world
  /\ singleton_per_uuid (handle_peerInfo 2 restarted_descriptor false two_links_world).
Proof.
  assert (H : singleton_per_uuid two_links_world).
  { split.
    - apply (bool_decide_unpack _). reflexivity.
    - intros u. unfold connected_with_uuid, two_links_world. cbn [registry List.filter].
      unfold is_connected_with_uuid. cbn [peers].
      rewrite lookup_insert_eq.
      rewrite lookup_insert_ne by discriminate. rewrite lookup_insert_eq.
      cbn [state newcomer connected_peer_x uuid].
      rewrite (bool_decide_eq_false_2 (connecting = connected)) by discriminate.
      rewrite andb_false_r.
      destruct (bool_decide ("peer-x" = u) && bool_decide (connected = connected));
        cbn [length]; lia. }
  split; [ exact H | ].
  apply (peerInfo_keeps_singleton two_links_world 2 restarted_descriptor false H).
Defined.

(** X16.  A [peerInfo] on the link that is itself the connected peer of
    the incoming uuid.  When the manager's lookup returns the receiving
    link, the listener destroys that link, whether the instance uuid of
    the message is the link's own (the link is taken for a duplicate of
    itself) or another one (the link is destroyed as the previous
    instance, a [disconnect] being sent first, and the following
    [setState('connected')] is refused): the link ends deleted, out of the
    registry and without listeners, and no other peer is changed. *)
Theorem peerInfo_on_own_link
    (w : World) (h : nat) (p : Peer) (d : PeerDescriptor) (sharedState : bool) :
  peers w !! h = Some p ->
  getConnectedPeerByUuid (d_uuid d) w = Some h ->
  let w' := handle_peerInfo h d sharedState w in
  state_of h w' = Some deleted
  /\ ~ In h (registry w')
  /\ (exists p', peers w' !! h = Some p' /\ listeners p' = [])
  /\ (forall y, y <> h -> peers w' !! y = peers w !! y)
  /\ (exists rest,
        trace w'
        = trace w
          ++ (if decide (instanceUuid p = d_instanceUuid d) then []
              else [Sent h disconnect])
          ++ Destroyed h :: rest).
Proof.
  intros Hp Hfind. cbv zeta.
  pose proof (find_some _ _ Hfind) as [_ Hconn].
  destruct (is_connected_with_uuid_true _ _ _ Hconn) as (p0 & Hp0 & _ & Hst).
  rewrite Hp in Hp0. injection Hp0 as <-.
  assert (Hlive : state p <> deleted) by (rewrite Hst; discriminate).
  assert (Hout : forall l : list nat, ~ In h (filter (fun h' => h' <> h) l)).
  { intros l Hin. apply list_elem_of_In, list_elem_of_filter in Hin.
    destruct Hin as [Hne _]. apply Hne. reflexivity. }
  unfold handle_peerInfo. rewrite Hfind, Hp.
  destruct (decide (instanceUuid p = d_instanceUuid d)) as [ Hi | Hi ].
  - destruct (destroy_live_parts h false false w p Hp Hlive) as (Hdp & Hdr & _ & Hdt).
    split; [ apply (state_of_destroy h false false w p Hp) | ].
    split; [ rewrite Hdr; apply Hout | ].
    split; [ exists (destroyed p); rewrite Hdp, lookup_insert_eq; split; reflexivity | ].
    split; [ intros y Hy; rewrite Hdp; apply lookup_insert_ne; congruence | ].
    exists [ManagerEmitted "peerChange" None]. rewrite Hdt. reflexivity.
  - destruct (destroy_live_parts h true false w p Hp Hlive) as (Hdp & Hdr & _ & Hdt).
    set (w1 := destroy h true false w) in *.
    assert (Hp1 : peers w1 !! h = Some (destroyed p))
      by (rewrite Hdp; apply lookup_insert_eq).
    destruct (peerInfo_accept_parts h d sharedState w1)
      as (Hreg & Hothers & (rest & Htrace) & Hh).
    cbv zeta in Hreg, Hothers, Htrace, Hh. rewrite Hp1 in Hh.
    destruct Hh as (p' & Hp' & _ & _ & Hl' & Hs').
    rewrite decide_True in Hs' by reflexivity.
    split; [ unfold state_of; rewrite Hp'; cbn; rewrite Hs'; reflexivity | ].
    split; [ rewrite Hreg, Hdr; apply Hout | ].
    split; [ exists p'; split; [ exact Hp' | rewrite Hl'; reflexivity ] | ].
    split.
    { intros y Hy. rewrite (Hothers y Hy), Hdp. apply lookup_insert_ne. congruence. }
    exists ([ManagerEmitted "peerChange" None] ++ rest).
    rewrite Htrace, Hdt, <- !app_assoc. reflexivity.
Qed.

Lemma peerInfo_on_own_link_witness :
  let w' := handle_peerInfo 1 sample_descriptor false two_links_world in
  state_of 1 w' = Some deleted
  /\ ~ In 1%nat (registry w')
  /\ (exists p', peers w' !! 1%nat = Some p' /\ listeners p' = []).
Proof.
  destruct (peerInfo_on_own_link two_links_world 1 connected_peer_x
              sample_descriptor false eq_refl eq_refl)
    as (Hs & Hreg & Hl & _).
  cbv zeta. split; [ exact Hs | ]. split; [ exact Hreg | exact Hl ].
Defined.

(** X17.  The first [peerInfo] on a connecting remote link, when no
    connected peer is registered under the incoming uuid, followed by the
    run of the pending callback: the link takes the uuid, instance uuid,
    name, capacities and version of the message and is connected, nobody
    is destroyed and the registry is unchanged, and the deferred
    [stateChange] event tells the manager of the new connected peer and
    schedules the ten initial timekeep requests. *)
Theorem first_peerInfo_connects
    (w : World) (h : nat) (p : Peer) (d : PeerDescriptor) (sharedState : bool) :
  peers w !! h = Some p ->
  state p = connecting ->
  isLocal p = false ->
  listeners_of stateChange p = [on_stateChange] ->
  immediates w = [] ->
  getConnectedPeerByUuid (d_uuid d) w = None ->
  let w' := run_immediates (handle_peerInfo h d sharedState w) in
  peers w' !! h = Some (set_state connected (set_descriptor d p))
  /\ registry w' = registry w
  /\ immediates w' = []
  /\ trace w'
     = trace w
       ++ (if sharedState then [SharedStateHandled] else [])
       ++ [ Emitted h stateChange; ManagerEmitted "newConnectedPeer" (Some h) ]
       ++ initial_timekeep_requests h
       ++ [ ManagerEmitted "peerChange" (Some h);
            ManagerEmitted "connectedPeer" (Some h) ].
Proof.
  intros Hp Hst Hremote Hone Himm Hfind. cbv zeta.
  unfold handle_peerInfo. rewrite Hfind. unfold peerInfo_accept.
  set (w1 := update_peer h (set_descriptor d) w).
  assert (Hp1 : peers w1 !! h = Some (set_descriptor d p))
    by exact (lookup_update_peer_eq h (set_descriptor d) w p Hp).
  rewrite Hp1. change (state (set_descriptor d p)) with (state p). rewrite Hst.
  rewrite decide_True by discriminate.
  rewrite (setState_live h connected w1 (set_descriptor d p) Hp1)
    by (change (state (set_descriptor d p)) with (state p); rewrite Hst; discriminate).
  set (w0 := set_immediates _ _).
  set (q := set_state connected (set_descriptor d p)).
  assert (Hq0 : peers w0 !! h = Some q).
  { unfold w0. rewrite peers_set_immediates.
    exact (lookup_update_peer_eq h (set_state connected) w1 _ Hp1). }
  assert (Hi0 : immediates w0 = [ {| im_peer := h; im_state := connected |} ]).
  { unfold w0, w1.
    rewrite immediates_set_immediates, !immediates_update_peer, Himm. reflexivity. }
  assert (Ht0 : trace w0 = trace w).
  { unfold w0, w1. rewrite trace_set_immediates, !trace_update_peer. reflexivity. }
  assert (Hr0 : registry w0 = registry w).
  { unfold w0, w1. rewrite registry_set_immediates, !registry_update_peer.
    reflexivity. }
  set (wss := if sharedState then effect SharedStateHandled w0 else w0).
  assert (Hss : peers wss = peers w0 /\ immediates wss = immediates w0
                /\ registry wss = registry w0
                /\ trace wss
                   = trace w0 ++ (if sharedState then [SharedStateHandled] else [])).
  { unfold wss. destruct sharedState; repeat split; try reflexivity.
    symmetry. apply app_nil_r. }
  destruct Hss as (Hps & His & Hrs & Hts).
  destruct (single_callback wss h q connected) as (H1 & H2 & H3 & _).
  - rewrite Hps. exact Hq0.
  - reflexivity.
  - rewrite His. exact Hi0.
  - exact Hone.
  - cbv zeta in H1, H2, H3. destruct (H3 eq_refl) as [Hpeer Htrace].
    change (isLocal q) with (isLocal p) in Htrace. rewrite Hremote in Htrace.
    split; [ exact Hpeer | ].
    split; [ rewrite H2, Hrs; exact Hr0 | ].
    split; [ exact H1 | ].
    rewrite Htrace, Hts, Ht0, <- !app_assoc. reflexivity.
Qed.

Lemma first_peerInfo_connects_witness :
  let h := one_peer_world.1 in
  let w' := run_immediates (handle_peerInfo h restarted_descriptor true
                              one_peer_world.2) in
  peers w' !! h = Some (set_state connected (set_descriptor restarted_descriptor
                                               fresh_peer))
  /\ registry w' = registry one_peer_world.2
  /\ immediates w' = []
  /\ trace w'
     = trace one_peer_world.2
       ++ [SharedStateHandled]
       ++ [ Emitted h stateChange; ManagerEmitted "newConnectedPeer" (Some h) ]
       ++ initial_timekeep_requests h
       ++ [ ManagerEmitted "peerChange" (Some h);
            ManagerEmitted "connectedPeer" (Some h) ].
Proof.
  apply (first_peerInfo_connects one_peer_world.2 one_peer_world.1 fresh_peer
           restarted_descriptor true); reflexivity.
Defined.

End PeerLifecycleFacts.
